(** * The EOS combination engine of eos.cpp, embedded and verified

    This development embeds the core of the phenomenological equation of
    state of [eos.cpp] / [eos.h]: the neutron-star fit functions and the
    causal high-density continuation ([new_ns_eos]), the virial gas
    ([free_energy_density_virial]), the combiner ([free_energy_density]),
    the fixed-Ye sound speed ([cs2_fixYe]) and the model validator
    ([select_internal]); around them the virial coefficients of
    [eos_crust_virial_v2], the member functions [free_energy_density_ep],
    [cs2], [solve_T], [select_model] and [point], and
    [eos_sn_oo1::compute_eg_point].

    Conventions.
    - A C++ [double] is read as a real number ([R]): arithmetic is exact and
      the IEEE special values (NaN, infinities) are outside the model.
      Comparisons are the decidable comparisons of [R].
    - An [int] is an integer ([Z]).  Where the code compares an [int] with
      a [size_t], the conversion of the [int] to [size_t] (64 bits) is
      written out.
    - Objects passed by reference are passed in and returned.  The members
      of the [eos] object are the fields of the record [eos]; members that
      the embedded functions never touch are left out.
    - [O2SCL_ERR] is an exception and [exit] ends the process: both are
      outcomes of the error monad [outcome].
    - The O2scl and GSL library (Skyrme functional, Fermi gas integrals,
      root solvers, numerical derivative, fitter, hypergeometric function)
      is a record of functions, [o2scl]; the methods of the virial solver
      ([virial_solver.h]) are a second record, [virial_methods].  Their own
      failure paths are not modelled: they are total functions.
    - Output to the terminal and to files is not modelled. *)

From Stdlib Require Import Reals Lra Lia List ZArith String Bool DecimalString
  Sorted.
Import ListNotations.
Open Scope string_scope.
Open Scope list_scope.
Open Scope R_scope.

(** ** C library functions on the reals *)

(** [pow(x,y)] of the C library: [exp(y*log(x))] for a positive base, the
    integral power for an integral exponent.  The remaining cases are not
    real numbers in C. *)
Definition pow (x y : R) : R :=
  if Rlt_dec 0 x then Rpower x y
  else if Req_dec_T y (IZR (Int_part y)) then powerRZ x (Int_part y)
  else 0.

Definition log (x : R) : R := ln x.

Definition fabs (x : R) : R := Rabs x.

Definition Rltb (x y : R) : bool := if Rlt_dec x y then true else false.
Definition Rgtb (x y : R) : bool := if Rgt_dec x y then true else false.
Definition Reqb (x y : R) : bool := if Req_dec_T x y then true else false.

(** [v[i]] for a [std::vector<double>]. *)
Definition idx (v : list R) (i : nat) : R := nth i v 0.

(** [(size_t) i] for an [int] [i]: the value modulo [2^64]. *)
Definition size_t_of_int (i : Z) : Z := (i mod 2 ^ 64)%Z.

(** ** Outcomes: normal return, O2scl exception, process exit *)

Inductive exc : Type := exc_einval | exc_efailed.

Inductive outcome (A : Type) : Type :=
| Ok (a : A)
| Raise (e : exc) (msg : string)
| Exit (status : Z).

Arguments Ok {A} a.
Arguments Raise {A} e msg.
Arguments Exit {A} status.

Definition bind {A B : Type} (m : outcome A) (k : A -> outcome B) : outcome B :=
  match m with
  | Ok a => k a
  | Raise e msg => Raise e msg
  | Exit s => Exit s
  end.

Notation "x <- m ;; k" := (bind m (fun x => k))
  (at level 61, m at next level, right associativity).
Notation "' p <- m ;; k" := (bind m (fun x => let p := x in k))
  (at level 61, p pattern, m at next level, right associativity).

(** How a call that does not return ends: with an exception, or with the
    exit of the process. *)
Inductive failure : Type :=
| Raised (e : exc) (msg : string)
| Exited (status : Z).

Definition failure_of {A : Type} (o : outcome A) : option failure :=
  match o with
  | Ok _ => None
  | Raise e msg => Some (Raised e msg)
  | Exit status => Some (Exited status)
  end.

(** ** The objects of the O2scl library that the code holds *)

Module thermo.
Record t : Type := mk { ed : R; pr : R; en : R }.
End thermo.

Module fermion.
Record t : Type := mk {
  n : R; m : R; mu : R; ms : R; ed : R; pr : R; en : R
}.
Definition set_n (v : R) (f : t) : t :=
  mk v (m f) (mu f) (ms f) (ed f) (pr f) (en f).
Definition set_mu (v : R) (f : t) : t :=
  mk (n f) (m f) v (ms f) (ed f) (pr f) (en f).
Definition set_ms (v : R) (f : t) : t :=
  mk (n f) (m f) (mu f) v (ed f) (pr f) (en f).
End fermion.

Module boson.
Record t : Type := mk { ed : R; pr : R; en : R }.
End boson.

Module eos_had_skyrme.
Record t : Type := mk {
  t0 : R; t1 : R; t2 : R; t3 : R;
  x0 : R; x1 : R; x2 : R; x3 : R; alpha : R
}.
End eos_had_skyrme.

Module table_units.
(** [get(col,row)] and [get_nlines()] of a loaded table; [get] is a
    function of the [int] that the code passes for the row. *)
Record t : Type := mk { get : string -> Z -> R; get_nlines : Z }.
End table_units.

(** The fields of the virial solver that [free_energy_density_virial]
    assigns. *)
Module virial_solver.
Record t : Type := mk {
  nn : R; pn : R; T : R; b_n : R; b_pn : R; lambda : R;
  zn : R; zp : R; mfn2_mu_p : R; mfn2_mu_n : R;
  dbndT : R; dbpndT : R; dlambdadT : R
}.
End virial_solver.

Module eos_crust_virial_v2.
Record t : Type := mk { bn_params : list R; bpn_params : list R }.

Definition bn_func (np : nat) (par : list R) (T : R) : R :=
  idx par 0 + idx par 1 * T + idx par 2 * T * T + idx par 3 * T * T * T
  + idx par 4 * exp (- idx par 5 * pow (T - idx par 6) 2.0)
  + idx par 7 * exp (- idx par 8 * (T - idx par 9)).

Definition bpn_func (np : nat) (par : list R) (T : R) : R :=
  idx par 0 * exp (- idx par 1 * (T + idx par 2) * (T + idx par 2))
  + idx par 3 * exp (- idx par 4 * (T + idx par 5)).

Definition bn_f (v : t) (T : R) : R :=
  bn_func (List.length (bn_params v)) (bn_params v) T.

Definition bpn_f (v : t) (T : R) : R :=
  bpn_func (List.length (bpn_params v)) (bpn_params v) T.

Definition dbndT_f (v : t) (T : R) : R :=
  let p := bn_params v in
  idx p 1 + 2.0 * idx p 2 * T + 3.0 * idx p 3 * T * T
  - 2.0 * idx p 4 * idx p 5 * (T - idx p 6)
    * exp (- idx p 5 * pow (T - idx p 6) 2.0)
  - idx p 7 * idx p 8 * exp (- idx p 8 * (T - idx p 9)).

Definition dbpndT_f (v : t) (T : R) : R :=
  let p := bpn_params v in
  - idx p 0 * idx p 1 * 2.0 * (idx p 2 + T)
    * exp (- idx p 1 * (T + idx p 2) * (T + idx p 2))
  - idx p 3 * idx p 4 * exp (- idx p 4 * (T + idx p 5)).

(** [eos_crust_virial_v2()]: ten parameters for [b_n], six for [b_pn]. *)
Definition init : t :=
  mk [2.874487202922e-01; 2.200575070883e-03; -2.621025627694e-05;
      -6.061665959200e-08; 1.059451872186e-02; 5.673374476876e-02;
      3.492489364849e+00; -2.710552654167e-03; 3.140521199464e+00;
      1.200987113605e+00]
     [1.527316309589e+00; 1.748834077357e-04; 1.754991542102e+01;
      4.510380054238e-01; 2.751333759925e-01; -1.125035495140e+00].
End eos_crust_virial_v2.

(** ** The [eos] object *)

Record eos : Type := Build_eos {
  model_selected : bool;
  test_ns_cs2 : bool;
  electron : fermion.t;
  photon : boson.t;
  ns_fit_parms : list R;
  g_virial : R;
  dgvirialdT : R;
  select_cs2_test : bool;
  f_deg : R;
  f_virial : R;
  s_virial : R;
  old_ns_fit : bool;
  ns_record : bool;
  ns_nb_max : R;
  neutron : fermion.t;
  proton : fermion.t;
  n_chiral : fermion.t;
  p_chiral : fermion.t;
  th2 : thermo.t;
  th_chiral : thermo.t;
  sk : eos_had_skyrme.t;
  sk_chiral : eos_had_skyrme.t;
  verbose : Z;
  ecv : eos_crust_virial_v2.t;
  a_virial : R;
  b_virial : R;
  qmc_alpha : R;
  qmc_beta : R;
  qmc_a : R;
  qmc_b : R;
  qmc_n0 : R;
  phi : R;
  eos_S : R;
  eos_L : R;
  eos_EoA : R;
  eos_K : R;
  eos_n0 : R;
  chi2_ns : R;
  i_ns : Z;
  i_skyrme : Z;
  acl : virial_solver.t;
  nstar_tab : table_units.t;
  UNEDF_tab : table_units.t
}.

Definition set_model_selected (v : bool) (st : eos) : eos :=
  Build_eos v (test_ns_cs2 st) (electron st) (photon st) (ns_fit_parms st)
  (g_virial st) (dgvirialdT st) (select_cs2_test st) (f_deg st) (f_virial st)
  (s_virial st) (old_ns_fit st) (ns_record st) (ns_nb_max st) (neutron st)
  (proton st) (n_chiral st) (p_chiral st) (th2 st) (th_chiral st) (sk st)
  (sk_chiral st) (verbose st) (ecv st) (a_virial st) (b_virial st) (qmc_alpha
  st) (qmc_beta st) (qmc_a st) (qmc_b st) (qmc_n0 st) (phi st) (eos_S st)
  (eos_L st) (eos_EoA st) (eos_K st) (eos_n0 st) (chi2_ns st) (i_ns st)
  (i_skyrme st) (acl st) (nstar_tab st) (UNEDF_tab st).

Definition set_electron (v : fermion.t) (st : eos) : eos :=
  Build_eos (model_selected st) (test_ns_cs2 st) v (photon st) (ns_fit_parms
  st) (g_virial st) (dgvirialdT st) (select_cs2_test st) (f_deg st) (f_virial
  st) (s_virial st) (old_ns_fit st) (ns_record st) (ns_nb_max st) (neutron st)
  (proton st) (n_chiral st) (p_chiral st) (th2 st) (th_chiral st) (sk st)
  (sk_chiral st) (verbose st) (ecv st) (a_virial st) (b_virial st) (qmc_alpha
  st) (qmc_beta st) (qmc_a st) (qmc_b st) (qmc_n0 st) (phi st) (eos_S st)
  (eos_L st) (eos_EoA st) (eos_K st) (eos_n0 st) (chi2_ns st) (i_ns st)
  (i_skyrme st) (acl st) (nstar_tab st) (UNEDF_tab st).

Definition set_photon (v : boson.t) (st : eos) : eos :=
  Build_eos (model_selected st) (test_ns_cs2 st) (electron st) v (ns_fit_parms
  st) (g_virial st) (dgvirialdT st) (select_cs2_test st) (f_deg st) (f_virial
  st) (s_virial st) (old_ns_fit st) (ns_record st) (ns_nb_max st) (neutron st)
  (proton st) (n_chiral st) (p_chiral st) (th2 st) (th_chiral st) (sk st)
  (sk_chiral st) (verbose st) (ecv st) (a_virial st) (b_virial st) (qmc_alpha
  st) (qmc_beta st) (qmc_a st) (qmc_b st) (qmc_n0 st) (phi st) (eos_S st)
  (eos_L st) (eos_EoA st) (eos_K st) (eos_n0 st) (chi2_ns st) (i_ns st)
  (i_skyrme st) (acl st) (nstar_tab st) (UNEDF_tab st).

Definition set_ns_fit_parms (v : list R) (st : eos) : eos :=
  Build_eos (model_selected st) (test_ns_cs2 st) (electron st) (photon st) v
  (g_virial st) (dgvirialdT st) (select_cs2_test st) (f_deg st) (f_virial st)
  (s_virial st) (old_ns_fit st) (ns_record st) (ns_nb_max st) (neutron st)
  (proton st) (n_chiral st) (p_chiral st) (th2 st) (th_chiral st) (sk st)
  (sk_chiral st) (verbose st) (ecv st) (a_virial st) (b_virial st) (qmc_alpha
  st) (qmc_beta st) (qmc_a st) (qmc_b st) (qmc_n0 st) (phi st) (eos_S st)
  (eos_L st) (eos_EoA st) (eos_K st) (eos_n0 st) (chi2_ns st) (i_ns st)
  (i_skyrme st) (acl st) (nstar_tab st) (UNEDF_tab st).

Definition set_g_virial (v : R) (st : eos) : eos :=
  Build_eos (model_selected st) (test_ns_cs2 st) (electron st) (photon st)
  (ns_fit_parms st) v (dgvirialdT st) (select_cs2_test st) (f_deg st)
  (f_virial st) (s_virial st) (old_ns_fit st) (ns_record st) (ns_nb_max st)
  (neutron st) (proton st) (n_chiral st) (p_chiral st) (th2 st) (th_chiral st)
  (sk st) (sk_chiral st) (verbose st) (ecv st) (a_virial st) (b_virial st)
  (qmc_alpha st) (qmc_beta st) (qmc_a st) (qmc_b st) (qmc_n0 st) (phi st)
  (eos_S st) (eos_L st) (eos_EoA st) (eos_K st) (eos_n0 st) (chi2_ns st) (i_ns
  st) (i_skyrme st) (acl st) (nstar_tab st) (UNEDF_tab st).

Definition set_dgvirialdT (v : R) (st : eos) : eos :=
  Build_eos (model_selected st) (test_ns_cs2 st) (electron st) (photon st)
  (ns_fit_parms st) (g_virial st) v (select_cs2_test st) (f_deg st) (f_virial
  st) (s_virial st) (old_ns_fit st) (ns_record st) (ns_nb_max st) (neutron st)
  (proton st) (n_chiral st) (p_chiral st) (th2 st) (th_chiral st) (sk st)
  (sk_chiral st) (verbose st) (ecv st) (a_virial st) (b_virial st) (qmc_alpha
  st) (qmc_beta st) (qmc_a st) (qmc_b st) (qmc_n0 st) (phi st) (eos_S st)
  (eos_L st) (eos_EoA st) (eos_K st) (eos_n0 st) (chi2_ns st) (i_ns st)
  (i_skyrme st) (acl st) (nstar_tab st) (UNEDF_tab st).

Definition set_f_deg (v : R) (st : eos) : eos :=
  Build_eos (model_selected st) (test_ns_cs2 st) (electron st) (photon st)
  (ns_fit_parms st) (g_virial st) (dgvirialdT st) (select_cs2_test st) v
  (f_virial st) (s_virial st) (old_ns_fit st) (ns_record st) (ns_nb_max st)
  (neutron st) (proton st) (n_chiral st) (p_chiral st) (th2 st) (th_chiral st)
  (sk st) (sk_chiral st) (verbose st) (ecv st) (a_virial st) (b_virial st)
  (qmc_alpha st) (qmc_beta st) (qmc_a st) (qmc_b st) (qmc_n0 st) (phi st)
  (eos_S st) (eos_L st) (eos_EoA st) (eos_K st) (eos_n0 st) (chi2_ns st) (i_ns
  st) (i_skyrme st) (acl st) (nstar_tab st) (UNEDF_tab st).

Definition set_f_virial (v : R) (st : eos) : eos :=
  Build_eos (model_selected st) (test_ns_cs2 st) (electron st) (photon st)
  (ns_fit_parms st) (g_virial st) (dgvirialdT st) (select_cs2_test st) (f_deg
  st) v (s_virial st) (old_ns_fit st) (ns_record st) (ns_nb_max st) (neutron
  st) (proton st) (n_chiral st) (p_chiral st) (th2 st) (th_chiral st) (sk st)
  (sk_chiral st) (verbose st) (ecv st) (a_virial st) (b_virial st) (qmc_alpha
  st) (qmc_beta st) (qmc_a st) (qmc_b st) (qmc_n0 st) (phi st) (eos_S st)
  (eos_L st) (eos_EoA st) (eos_K st) (eos_n0 st) (chi2_ns st) (i_ns st)
  (i_skyrme st) (acl st) (nstar_tab st) (UNEDF_tab st).

Definition set_s_virial (v : R) (st : eos) : eos :=
  Build_eos (model_selected st) (test_ns_cs2 st) (electron st) (photon st)
  (ns_fit_parms st) (g_virial st) (dgvirialdT st) (select_cs2_test st) (f_deg
  st) (f_virial st) v (old_ns_fit st) (ns_record st) (ns_nb_max st) (neutron
  st) (proton st) (n_chiral st) (p_chiral st) (th2 st) (th_chiral st) (sk st)
  (sk_chiral st) (verbose st) (ecv st) (a_virial st) (b_virial st) (qmc_alpha
  st) (qmc_beta st) (qmc_a st) (qmc_b st) (qmc_n0 st) (phi st) (eos_S st)
  (eos_L st) (eos_EoA st) (eos_K st) (eos_n0 st) (chi2_ns st) (i_ns st)
  (i_skyrme st) (acl st) (nstar_tab st) (UNEDF_tab st).

Definition set_ns_nb_max (v : R) (st : eos) : eos :=
  Build_eos (model_selected st) (test_ns_cs2 st) (electron st) (photon st)
  (ns_fit_parms st) (g_virial st) (dgvirialdT st) (select_cs2_test st) (f_deg
  st) (f_virial st) (s_virial st) (old_ns_fit st) (ns_record st) v (neutron
  st) (proton st) (n_chiral st) (p_chiral st) (th2 st) (th_chiral st) (sk st)
  (sk_chiral st) (verbose st) (ecv st) (a_virial st) (b_virial st) (qmc_alpha
  st) (qmc_beta st) (qmc_a st) (qmc_b st) (qmc_n0 st) (phi st) (eos_S st)
  (eos_L st) (eos_EoA st) (eos_K st) (eos_n0 st) (chi2_ns st) (i_ns st)
  (i_skyrme st) (acl st) (nstar_tab st) (UNEDF_tab st).

Definition set_neutron (v : fermion.t) (st : eos) : eos :=
  Build_eos (model_selected st) (test_ns_cs2 st) (electron st) (photon st)
  (ns_fit_parms st) (g_virial st) (dgvirialdT st) (select_cs2_test st) (f_deg
  st) (f_virial st) (s_virial st) (old_ns_fit st) (ns_record st) (ns_nb_max
  st) v (proton st) (n_chiral st) (p_chiral st) (th2 st) (th_chiral st) (sk
  st) (sk_chiral st) (verbose st) (ecv st) (a_virial st) (b_virial st)
  (qmc_alpha st) (qmc_beta st) (qmc_a st) (qmc_b st) (qmc_n0 st) (phi st)
  (eos_S st) (eos_L st) (eos_EoA st) (eos_K st) (eos_n0 st) (chi2_ns st) (i_ns
  st) (i_skyrme st) (acl st) (nstar_tab st) (UNEDF_tab st).

Definition set_proton (v : fermion.t) (st : eos) : eos :=
  Build_eos (model_selected st) (test_ns_cs2 st) (electron st) (photon st)
  (ns_fit_parms st) (g_virial st) (dgvirialdT st) (select_cs2_test st) (f_deg
  st) (f_virial st) (s_virial st) (old_ns_fit st) (ns_record st) (ns_nb_max
  st) (neutron st) v (n_chiral st) (p_chiral st) (th2 st) (th_chiral st) (sk
  st) (sk_chiral st) (verbose st) (ecv st) (a_virial st) (b_virial st)
  (qmc_alpha st) (qmc_beta st) (qmc_a st) (qmc_b st) (qmc_n0 st) (phi st)
  (eos_S st) (eos_L st) (eos_EoA st) (eos_K st) (eos_n0 st) (chi2_ns st) (i_ns
  st) (i_skyrme st) (acl st) (nstar_tab st) (UNEDF_tab st).

Definition set_n_chiral (v : fermion.t) (st : eos) : eos :=
  Build_eos (model_selected st) (test_ns_cs2 st) (electron st) (photon st)
  (ns_fit_parms st) (g_virial st) (dgvirialdT st) (select_cs2_test st) (f_deg
  st) (f_virial st) (s_virial st) (old_ns_fit st) (ns_record st) (ns_nb_max
  st) (neutron st) (proton st) v (p_chiral st) (th2 st) (th_chiral st) (sk st)
  (sk_chiral st) (verbose st) (ecv st) (a_virial st) (b_virial st) (qmc_alpha
  st) (qmc_beta st) (qmc_a st) (qmc_b st) (qmc_n0 st) (phi st) (eos_S st)
  (eos_L st) (eos_EoA st) (eos_K st) (eos_n0 st) (chi2_ns st) (i_ns st)
  (i_skyrme st) (acl st) (nstar_tab st) (UNEDF_tab st).

Definition set_p_chiral (v : fermion.t) (st : eos) : eos :=
  Build_eos (model_selected st) (test_ns_cs2 st) (electron st) (photon st)
  (ns_fit_parms st) (g_virial st) (dgvirialdT st) (select_cs2_test st) (f_deg
  st) (f_virial st) (s_virial st) (old_ns_fit st) (ns_record st) (ns_nb_max
  st) (neutron st) (proton st) (n_chiral st) v (th2 st) (th_chiral st) (sk st)
  (sk_chiral st) (verbose st) (ecv st) (a_virial st) (b_virial st) (qmc_alpha
  st) (qmc_beta st) (qmc_a st) (qmc_b st) (qmc_n0 st) (phi st) (eos_S st)
  (eos_L st) (eos_EoA st) (eos_K st) (eos_n0 st) (chi2_ns st) (i_ns st)
  (i_skyrme st) (acl st) (nstar_tab st) (UNEDF_tab st).

Definition set_th2 (v : thermo.t) (st : eos) : eos :=
  Build_eos (model_selected st) (test_ns_cs2 st) (electron st) (photon st)
  (ns_fit_parms st) (g_virial st) (dgvirialdT st) (select_cs2_test st) (f_deg
  st) (f_virial st) (s_virial st) (old_ns_fit st) (ns_record st) (ns_nb_max
  st) (neutron st) (proton st) (n_chiral st) (p_chiral st) v (th_chiral st)
  (sk st) (sk_chiral st) (verbose st) (ecv st) (a_virial st) (b_virial st)
  (qmc_alpha st) (qmc_beta st) (qmc_a st) (qmc_b st) (qmc_n0 st) (phi st)
  (eos_S st) (eos_L st) (eos_EoA st) (eos_K st) (eos_n0 st) (chi2_ns st) (i_ns
  st) (i_skyrme st) (acl st) (nstar_tab st) (UNEDF_tab st).

Definition set_th_chiral (v : thermo.t) (st : eos) : eos :=
  Build_eos (model_selected st) (test_ns_cs2 st) (electron st) (photon st)
  (ns_fit_parms st) (g_virial st) (dgvirialdT st) (select_cs2_test st) (f_deg
  st) (f_virial st) (s_virial st) (old_ns_fit st) (ns_record st) (ns_nb_max
  st) (neutron st) (proton st) (n_chiral st) (p_chiral st) (th2 st) v (sk st)
  (sk_chiral st) (verbose st) (ecv st) (a_virial st) (b_virial st) (qmc_alpha
  st) (qmc_beta st) (qmc_a st) (qmc_b st) (qmc_n0 st) (phi st) (eos_S st)
  (eos_L st) (eos_EoA st) (eos_K st) (eos_n0 st) (chi2_ns st) (i_ns st)
  (i_skyrme st) (acl st) (nstar_tab st) (UNEDF_tab st).

Definition set_sk (v : eos_had_skyrme.t) (st : eos) : eos :=
  Build_eos (model_selected st) (test_ns_cs2 st) (electron st) (photon st)
  (ns_fit_parms st) (g_virial st) (dgvirialdT st) (select_cs2_test st) (f_deg
  st) (f_virial st) (s_virial st) (old_ns_fit st) (ns_record st) (ns_nb_max
  st) (neutron st) (proton st) (n_chiral st) (p_chiral st) (th2 st) (th_chiral
  st) v (sk_chiral st) (verbose st) (ecv st) (a_virial st) (b_virial st)
  (qmc_alpha st) (qmc_beta st) (qmc_a st) (qmc_b st) (qmc_n0 st) (phi st)
  (eos_S st) (eos_L st) (eos_EoA st) (eos_K st) (eos_n0 st) (chi2_ns st) (i_ns
  st) (i_skyrme st) (acl st) (nstar_tab st) (UNEDF_tab st).

Definition set_verbose (v : Z) (st : eos) : eos :=
  Build_eos (model_selected st) (test_ns_cs2 st) (electron st) (photon st)
  (ns_fit_parms st) (g_virial st) (dgvirialdT st) (select_cs2_test st) (f_deg
  st) (f_virial st) (s_virial st) (old_ns_fit st) (ns_record st) (ns_nb_max
  st) (neutron st) (proton st) (n_chiral st) (p_chiral st) (th2 st) (th_chiral
  st) (sk st) (sk_chiral st) v (ecv st) (a_virial st) (b_virial st) (qmc_alpha
  st) (qmc_beta st) (qmc_a st) (qmc_b st) (qmc_n0 st) (phi st) (eos_S st)
  (eos_L st) (eos_EoA st) (eos_K st) (eos_n0 st) (chi2_ns st) (i_ns st)
  (i_skyrme st) (acl st) (nstar_tab st) (UNEDF_tab st).

Definition set_qmc_alpha (v : R) (st : eos) : eos :=
  Build_eos (model_selected st) (test_ns_cs2 st) (electron st) (photon st)
  (ns_fit_parms st) (g_virial st) (dgvirialdT st) (select_cs2_test st) (f_deg
  st) (f_virial st) (s_virial st) (old_ns_fit st) (ns_record st) (ns_nb_max
  st) (neutron st) (proton st) (n_chiral st) (p_chiral st) (th2 st) (th_chiral
  st) (sk st) (sk_chiral st) (verbose st) (ecv st) (a_virial st) (b_virial st)
  v (qmc_beta st) (qmc_a st) (qmc_b st) (qmc_n0 st) (phi st) (eos_S st) (eos_L
  st) (eos_EoA st) (eos_K st) (eos_n0 st) (chi2_ns st) (i_ns st) (i_skyrme st)
  (acl st) (nstar_tab st) (UNEDF_tab st).

Definition set_qmc_beta (v : R) (st : eos) : eos :=
  Build_eos (model_selected st) (test_ns_cs2 st) (electron st) (photon st)
  (ns_fit_parms st) (g_virial st) (dgvirialdT st) (select_cs2_test st) (f_deg
  st) (f_virial st) (s_virial st) (old_ns_fit st) (ns_record st) (ns_nb_max
  st) (neutron st) (proton st) (n_chiral st) (p_chiral st) (th2 st) (th_chiral
  st) (sk st) (sk_chiral st) (verbose st) (ecv st) (a_virial st) (b_virial st)
  (qmc_alpha st) v (qmc_a st) (qmc_b st) (qmc_n0 st) (phi st) (eos_S st)
  (eos_L st) (eos_EoA st) (eos_K st) (eos_n0 st) (chi2_ns st) (i_ns st)
  (i_skyrme st) (acl st) (nstar_tab st) (UNEDF_tab st).

Definition set_qmc_a (v : R) (st : eos) : eos :=
  Build_eos (model_selected st) (test_ns_cs2 st) (electron st) (photon st)
  (ns_fit_parms st) (g_virial st) (dgvirialdT st) (select_cs2_test st) (f_deg
  st) (f_virial st) (s_virial st) (old_ns_fit st) (ns_record st) (ns_nb_max
  st) (neutron st) (proton st) (n_chiral st) (p_chiral st) (th2 st) (th_chiral
  st) (sk st) (sk_chiral st) (verbose st) (ecv st) (a_virial st) (b_virial st)
  (qmc_alpha st) (qmc_beta st) v (qmc_b st) (qmc_n0 st) (phi st) (eos_S st)
  (eos_L st) (eos_EoA st) (eos_K st) (eos_n0 st) (chi2_ns st) (i_ns st)
  (i_skyrme st) (acl st) (nstar_tab st) (UNEDF_tab st).

Definition set_qmc_b (v : R) (st : eos) : eos :=
  Build_eos (model_selected st) (test_ns_cs2 st) (electron st) (photon st)
  (ns_fit_parms st) (g_virial st) (dgvirialdT st) (select_cs2_test st) (f_deg
  st) (f_virial st) (s_virial st) (old_ns_fit st) (ns_record st) (ns_nb_max
  st) (neutron st) (proton st) (n_chiral st) (p_chiral st) (th2 st) (th_chiral
  st) (sk st) (sk_chiral st) (verbose st) (ecv st) (a_virial st) (b_virial st)
  (qmc_alpha st) (qmc_beta st) (qmc_a st) v (qmc_n0 st) (phi st) (eos_S st)
  (eos_L st) (eos_EoA st) (eos_K st) (eos_n0 st) (chi2_ns st) (i_ns st)
  (i_skyrme st) (acl st) (nstar_tab st) (UNEDF_tab st).

Definition set_phi (v : R) (st : eos) : eos :=
  Build_eos (model_selected st) (test_ns_cs2 st) (electron st) (photon st)
  (ns_fit_parms st) (g_virial st) (dgvirialdT st) (select_cs2_test st) (f_deg
  st) (f_virial st) (s_virial st) (old_ns_fit st) (ns_record st) (ns_nb_max
  st) (neutron st) (proton st) (n_chiral st) (p_chiral st) (th2 st) (th_chiral
  st) (sk st) (sk_chiral st) (verbose st) (ecv st) (a_virial st) (b_virial st)
  (qmc_alpha st) (qmc_beta st) (qmc_a st) (qmc_b st) (qmc_n0 st) v (eos_S st)
  (eos_L st) (eos_EoA st) (eos_K st) (eos_n0 st) (chi2_ns st) (i_ns st)
  (i_skyrme st) (acl st) (nstar_tab st) (UNEDF_tab st).

Definition set_eos_S (v : R) (st : eos) : eos :=
  Build_eos (model_selected st) (test_ns_cs2 st) (electron st) (photon st)
  (ns_fit_parms st) (g_virial st) (dgvirialdT st) (select_cs2_test st) (f_deg
  st) (f_virial st) (s_virial st) (old_ns_fit st) (ns_record st) (ns_nb_max
  st) (neutron st) (proton st) (n_chiral st) (p_chiral st) (th2 st) (th_chiral
  st) (sk st) (sk_chiral st) (verbose st) (ecv st) (a_virial st) (b_virial st)
  (qmc_alpha st) (qmc_beta st) (qmc_a st) (qmc_b st) (qmc_n0 st) (phi st) v
  (eos_L st) (eos_EoA st) (eos_K st) (eos_n0 st) (chi2_ns st) (i_ns st)
  (i_skyrme st) (acl st) (nstar_tab st) (UNEDF_tab st).

Definition set_eos_L (v : R) (st : eos) : eos :=
  Build_eos (model_selected st) (test_ns_cs2 st) (electron st) (photon st)
  (ns_fit_parms st) (g_virial st) (dgvirialdT st) (select_cs2_test st) (f_deg
  st) (f_virial st) (s_virial st) (old_ns_fit st) (ns_record st) (ns_nb_max
  st) (neutron st) (proton st) (n_chiral st) (p_chiral st) (th2 st) (th_chiral
  st) (sk st) (sk_chiral st) (verbose st) (ecv st) (a_virial st) (b_virial st)
  (qmc_alpha st) (qmc_beta st) (qmc_a st) (qmc_b st) (qmc_n0 st) (phi st)
  (eos_S st) v (eos_EoA st) (eos_K st) (eos_n0 st) (chi2_ns st) (i_ns st)
  (i_skyrme st) (acl st) (nstar_tab st) (UNEDF_tab st).

Definition set_eos_EoA (v : R) (st : eos) : eos :=
  Build_eos (model_selected st) (test_ns_cs2 st) (electron st) (photon st)
  (ns_fit_parms st) (g_virial st) (dgvirialdT st) (select_cs2_test st) (f_deg
  st) (f_virial st) (s_virial st) (old_ns_fit st) (ns_record st) (ns_nb_max
  st) (neutron st) (proton st) (n_chiral st) (p_chiral st) (th2 st) (th_chiral
  st) (sk st) (sk_chiral st) (verbose st) (ecv st) (a_virial st) (b_virial st)
  (qmc_alpha st) (qmc_beta st) (qmc_a st) (qmc_b st) (qmc_n0 st) (phi st)
  (eos_S st) (eos_L st) v (eos_K st) (eos_n0 st) (chi2_ns st) (i_ns st)
  (i_skyrme st) (acl st) (nstar_tab st) (UNEDF_tab st).

Definition set_eos_K (v : R) (st : eos) : eos :=
  Build_eos (model_selected st) (test_ns_cs2 st) (electron st) (photon st)
  (ns_fit_parms st) (g_virial st) (dgvirialdT st) (select_cs2_test st) (f_deg
  st) (f_virial st) (s_virial st) (old_ns_fit st) (ns_record st) (ns_nb_max
  st) (neutron st) (proton st) (n_chiral st) (p_chiral st) (th2 st) (th_chiral
  st) (sk st) (sk_chiral st) (verbose st) (ecv st) (a_virial st) (b_virial st)
  (qmc_alpha st) (qmc_beta st) (qmc_a st) (qmc_b st) (qmc_n0 st) (phi st)
  (eos_S st) (eos_L st) (eos_EoA st) v (eos_n0 st) (chi2_ns st) (i_ns st)
  (i_skyrme st) (acl st) (nstar_tab st) (UNEDF_tab st).

Definition set_eos_n0 (v : R) (st : eos) : eos :=
  Build_eos (model_selected st) (test_ns_cs2 st) (electron st) (photon st)
  (ns_fit_parms st) (g_virial st) (dgvirialdT st) (select_cs2_test st) (f_deg
  st) (f_virial st) (s_virial st) (old_ns_fit st) (ns_record st) (ns_nb_max
  st) (neutron st) (proton st) (n_chiral st) (p_chiral st) (th2 st) (th_chiral
  st) (sk st) (sk_chiral st) (verbose st) (ecv st) (a_virial st) (b_virial st)
  (qmc_alpha st) (qmc_beta st) (qmc_a st) (qmc_b st) (qmc_n0 st) (phi st)
  (eos_S st) (eos_L st) (eos_EoA st) (eos_K st) v (chi2_ns st) (i_ns st)
  (i_skyrme st) (acl st) (nstar_tab st) (UNEDF_tab st).

Definition set_chi2_ns (v : R) (st : eos) : eos :=
  Build_eos (model_selected st) (test_ns_cs2 st) (electron st) (photon st)
  (ns_fit_parms st) (g_virial st) (dgvirialdT st) (select_cs2_test st) (f_deg
  st) (f_virial st) (s_virial st) (old_ns_fit st) (ns_record st) (ns_nb_max
  st) (neutron st) (proton st) (n_chiral st) (p_chiral st) (th2 st) (th_chiral
  st) (sk st) (sk_chiral st) (verbose st) (ecv st) (a_virial st) (b_virial st)
  (qmc_alpha st) (qmc_beta st) (qmc_a st) (qmc_b st) (qmc_n0 st) (phi st)
  (eos_S st) (eos_L st) (eos_EoA st) (eos_K st) (eos_n0 st) v (i_ns st)
  (i_skyrme st) (acl st) (nstar_tab st) (UNEDF_tab st).

Definition set_i_ns (v : Z) (st : eos) : eos :=
  Build_eos (model_selected st) (test_ns_cs2 st) (electron st) (photon st)
  (ns_fit_parms st) (g_virial st) (dgvirialdT st) (select_cs2_test st) (f_deg
  st) (f_virial st) (s_virial st) (old_ns_fit st) (ns_record st) (ns_nb_max
  st) (neutron st) (proton st) (n_chiral st) (p_chiral st) (th2 st) (th_chiral
  st) (sk st) (sk_chiral st) (verbose st) (ecv st) (a_virial st) (b_virial st)
  (qmc_alpha st) (qmc_beta st) (qmc_a st) (qmc_b st) (qmc_n0 st) (phi st)
  (eos_S st) (eos_L st) (eos_EoA st) (eos_K st) (eos_n0 st) (chi2_ns st) v
  (i_skyrme st) (acl st) (nstar_tab st) (UNEDF_tab st).

Definition set_i_skyrme (v : Z) (st : eos) : eos :=
  Build_eos (model_selected st) (test_ns_cs2 st) (electron st) (photon st)
  (ns_fit_parms st) (g_virial st) (dgvirialdT st) (select_cs2_test st) (f_deg
  st) (f_virial st) (s_virial st) (old_ns_fit st) (ns_record st) (ns_nb_max
  st) (neutron st) (proton st) (n_chiral st) (p_chiral st) (th2 st) (th_chiral
  st) (sk st) (sk_chiral st) (verbose st) (ecv st) (a_virial st) (b_virial st)
  (qmc_alpha st) (qmc_beta st) (qmc_a st) (qmc_b st) (qmc_n0 st) (phi st)
  (eos_S st) (eos_L st) (eos_EoA st) (eos_K st) (eos_n0 st) (chi2_ns st) (i_ns
  st) v (acl st) (nstar_tab st) (UNEDF_tab st).

Definition set_acl (v : virial_solver.t) (st : eos) : eos :=
  Build_eos (model_selected st) (test_ns_cs2 st) (electron st) (photon st)
  (ns_fit_parms st) (g_virial st) (dgvirialdT st) (select_cs2_test st) (f_deg
  st) (f_virial st) (s_virial st) (old_ns_fit st) (ns_record st) (ns_nb_max
  st) (neutron st) (proton st) (n_chiral st) (p_chiral st) (th2 st) (th_chiral
  st) (sk st) (sk_chiral st) (verbose st) (ecv st) (a_virial st) (b_virial st)
  (qmc_alpha st) (qmc_beta st) (qmc_a st) (qmc_b st) (qmc_n0 st) (phi st)
  (eos_S st) (eos_L st) (eos_EoA st) (eos_K st) (eos_n0 st) (chi2_ns st) (i_ns
  st) (i_skyrme st) v (nstar_tab st) (UNEDF_tab st).
(** The state on which the member functions taking [fermion &n],
    [fermion &p] and [thermo &th] work. *)
Record world : Type := mk_world {
  w_eos : eos; w_n : fermion.t; w_p : fermion.t; w_th : thermo.t
}.

(** ** The library *)

(** What the code calls from O2scl and GSL.  [msolve] and [deriv] call back
    into member functions that change the objects they hold, so they thread
    a state of any type [W]. *)
Record o2scl : Type := mk_o2scl {
  (** [o2scl_const::hc_mev_fm] *)
  hc_mev_fm : R;
  (** [eos_had_skyrme::calc_e(n,p,th)] *)
  calc_e : eos_had_skyrme.t -> fermion.t -> fermion.t -> thermo.t ->
           fermion.t * fermion.t * thermo.t;
  (** [eos_had_skyrme::calc_temp_e(n,p,T,th)] *)
  calc_temp_e : eos_had_skyrme.t -> fermion.t -> fermion.t -> R -> thermo.t ->
                fermion.t * fermion.t * thermo.t;
  (** [eos_had_skyrme::eff_mass(n,p)] *)
  eff_mass : eos_had_skyrme.t -> fermion.t -> fermion.t -> fermion.t * fermion.t;
  (** [eos_had_skyrme::alt_params_saturation], its eleven arguments in a list *)
  alt_params_saturation : eos_had_skyrme.t -> list R -> eos_had_skyrme.t;
  (** [fermion_rel::pair_density(f,T)] *)
  pair_density : fermion.t -> R -> fermion.t;
  (** [boson::massless_calc(T)] *)
  massless_calc : boson.t -> R -> boson.t;
  (** [mroot_hybrids::msolve(2,x,f)] on a residual without side effects:
      the solution left in [x] *)
  msolve2 : R * R -> (R * R -> R * R) -> R * R;
  (** [mroot_hybrids::msolve(1,x,f)] with [err_nonconv=false]: the return
      value and the content of [x].  The residual function returns a status
      and may leave [y[0]] unwritten. *)
  msolve1 : forall W : Type, R -> (R -> W -> outcome (Z * option R * W)) ->
            W -> outcome (Z * R * W);
  (** [deriv_gsl::deriv(x,f)] *)
  deriv : forall W : Type, R -> (R -> W -> outcome (R * W)) -> W ->
          outcome (R * W);
  (** [gsl_sf_hyperg_2F1(a,b,c,x)] *)
  gsl_sf_hyperg_2F1 : R -> R -> R -> R -> R;
  (** [fit_nonlin::fit]: from the initial parameters, the data ([x], [y],
      [yerr]) and the fit function, the fitted parameters and chi squared *)
  fit : list R -> list R -> list R -> list R ->
        (nat -> list R -> R -> R) -> list R * R
}.

(** The methods of [virial_solver], each filling a vector of two: they read
    the fields of the solver. *)
Record virial_methods : Type := mk_virial_methods {
  solve_fugacity : virial_solver.t -> R * R;
  mfn21 : virial_solver.t -> R * R;
  mfn31 : virial_solver.t -> R * R;
  mfn41 : virial_solver.t -> R * R
}.

(** ** Loops *)

(** The trip count of [for (x=x0; x<bound; x+=step)] is at most the least
    integer above [(bound-x0)/step]: this is the fuel of the loops below. *)
Definition trips (x bound step : R) : nat :=
  Z.to_nat (up ((bound - x) / step)).

(** A loop whose body only updates its variables.  The result holds the
    value of the loop variable after the loop. *)
Fixpoint for_do_fuel {S : Type} (fuel : nat) (x bound step : R)
    (body : R -> S -> S) (s : S) : R * S :=
  match fuel with
  | O => (x, s)
  | Datatypes.S k =>
      if Rlt_dec x bound
      then for_do_fuel k (x + step) bound step body (body x s)
      else (x, s)
  end.

Definition for_do {S : Type} (x bound step : R) (body : R -> S -> S)
    (s : S) : R * S :=
  for_do_fuel (trips x bound step) x bound step body s.

(** A loop whose body may raise, exit, or leave the enclosing function with
    a value ([inr]); [inl] continues with a new state. *)
Fixpoint for_fuel {S B : Type} (fuel : nat) (x bound step : R)
    (body : R -> S -> outcome (S + B)) (s : S) : outcome (S + B) :=
  match fuel with
  | O => Ok (inl s)
  | Datatypes.S k =>
      if Rlt_dec x bound then
        match body x s with
        | Ok (inl s') => for_fuel k (x + step) bound step body s'
        | Ok (inr b) => Ok (inr b)
        | Raise e msg => Raise e msg
        | Exit c => Exit c
        end
      else Ok (inl s)
  end.

Definition for_loop {S B : Type} (x bound step : R)
    (body : R -> S -> outcome (S + B)) (s : S) : outcome (S + B) :=
  for_fuel (trips x bound step) x bound step body s.

(** The points [x, x+step, ...] that a loop visits: [count] of them. *)
Definition grid_points (x step : R) (count : nat) : list R :=
  map (fun k => x + INR k * step) (seq 0 count).

(** The values of the loop variable for which the body runs. *)
Fixpoint visited (fuel : nat) (x bound step : R) : list R :=
  match fuel with
  | O => []
  | Datatypes.S k =>
      if Rlt_dec x bound then x :: visited k (x + step) bound step else []
  end.

(** The body of a loop run over a list of points, one after the other. *)
Fixpoint run_over {S B X : Type} (body : X -> S -> outcome (S + B))
    (points : list X) (s : S) : outcome (S + B) :=
  match points with
  | [] => Ok (inl s)
  | x :: points =>
      match body x s with
      | Ok (inl s') => run_over body points s'
      | Ok (inr b) => Ok (inr b)
      | Raise e msg => Raise e msg
      | Exit c => Exit c
      end
  end.

(** ** The member functions *)

Section Eos.

Variable lib : o2scl.
Variable vs : virial_methods.

Local Abbreviation hc := (hc_mev_fm lib).

(** *** The fit of the neutron star energy per baryon *)

Definition fit_fun (st : eos) (np : nat) (parms : list R) (nb : R) : R :=
  if old_ns_fit st then
    sqrt nb * idx parms 0 + nb * idx parms 1
    + nb * sqrt nb * idx parms 2 + nb * nb * idx parms 3
    + nb * nb * nb * idx parms 4
  else
    nb * idx parms 0 + nb * nb * idx parms 1 + nb * nb * nb * idx parms 2
    + nb * nb * nb * nb * idx parms 3 + nb * nb * nb * nb * nb * idx parms 4.

Definition ed_fit (st : eos) (nb : R) : R :=
  fit_fun st 5 (ns_fit_parms st) nb * nb / hc.

Definition mu_fit (st : eos) (nb : R) : R :=
  let p := ns_fit_parms st in
  if old_ns_fit st then
    (1.5 * sqrt nb * idx p 0 + 2.0 * nb * idx p 1
     + 2.5 * nb * sqrt nb * idx p 2 + 3.0 * nb * nb * idx p 3
     + 4.0 * nb * nb * nb * idx p 4) / hc
  else
    (2.0 * nb * idx p 0 + 3.0 * nb * nb * idx p 1
     + 4.0 * nb * nb * nb * idx p 2
     + 5.0 * nb * nb * nb * nb * idx p 3
     + 6.0 * nb * nb * nb * nb * nb * idx p 4) / hc.

Definition dmudn_fit (st : eos) (nb : R) : R :=
  let p := ns_fit_parms st in
  if old_ns_fit st then
    (0.75 / sqrt nb * idx p 0 + 2.0 * idx p 1
     + 3.75 * sqrt nb * idx p 2 + 6.0 * nb * idx p 3
     + 12.0 * nb * nb * idx p 4) / hc
  else
    (2.0 * idx p 0 + 6.0 * nb * idx p 1
     + 12.0 * nb * nb * idx p 2 + 20.0 * nb * nb * nb * idx p 3
     + 30.0 * nb * nb * nb * nb * idx p 4) / hc.

Definition cs2_fit (st : eos) (nb : R) : R :=
  dmudn_fit st nb * nb / (mu_fit st nb + 939.565 / hc).

Definition energy_density_qmc (st : eos) (nn np : R) : R :=
  (qmc_a st * pow ((nn + np) / qmc_n0 st) (qmc_alpha st)
   + qmc_b st * pow ((nn + np) / qmc_n0 st) (qmc_beta st))
  * (nn + np) / hc.

Definition energy_density_ns (st : eos) (nn : R) : R := ed_fit st nn.

(** *** The causal continuation of the neutron star EOS *)

Definition solve_coeff_big (ns_nb_max_l cs_ns_2 cs_ns_last : R)
    (x : R * R) : R * R :=
  let a1l := fst x in
  let a2l := snd x in
  (1.0 - a1l + (a1l * a2l * pow ns_nb_max_l a1l)
               / (1.0 + a2l * pow ns_nb_max_l a1l) - cs_ns_last,
   1.0 - a1l + (a1l * a2l * pow 2.0 a1l) / (1.0 + a2l * pow 2.0 a1l)
   - cs_ns_2).

Definition solve_coeff_small (ns_nb_max_l cs_ns_2 cs_ns_last : R)
    (x : R * R) : R * R :=
  let a1l := fst x in
  let a2l := snd x in
  ((a1l - a1l * a2l * pow ns_nb_max_l a1l
          / (1.0 + a2l * pow ns_nb_max_l a1l)) - cs_ns_last,
   (a1l - a1l * a2l * pow 2.0 a1l / (1.0 + a2l * pow 2.0 a1l)) - cs_ns_2).

(** [new_ns_eos(nb,n,e_ns,densdnn)]: the two references are returned; they
    keep their value when no branch assigns them. *)
Definition new_ns_eos (st : eos) (nb : R) (n : fermion.t)
    (e_ns densdnn : R) : R * R :=
  let nmax := ns_nb_max st in
  let e_ns_last := ed_fit st nmax in
  let p_ns_last := mu_fit st nmax * nmax - e_ns_last in
  if Rlt_dec nb (nmax - 1.0e-6) then
    (energy_density_ns st nb, mu_fit st nb)
  else
    let cs_ns_last := cs2_fit st nmax in
    let cs_ns_2 := phi st in
    if Rgt_dec cs_ns_2 cs_ns_last then
      let mx := msolve2 lib (1.0, 1.0)
                  (solve_coeff_big nmax cs_ns_2 cs_ns_last) in
      let a1l := fst mx in
      let a2l := snd mx in
      let c1l := (e_ns_last + fermion.m n * nmax + p_ns_last)
                 / ((nmax * nmax) * (a2l + pow nmax (- a1l))) in
      let c2l := 0.5 * (e_ns_last + fermion.m n * nmax - p_ns_last
                        + a1l * (e_ns_last + fermion.m n * nmax + p_ns_last)
                          / ((a1l - 2.0) * (1.0 + a2l * pow nmax a1l))) in
      (- fermion.m n * nb
       + (a2l * nb * nb / 2.0 + pow nb (2.0 - a1l) / (2.0 - a1l)) * c1l + c2l,
       - fermion.m n + c1l * (a2l * nb + pow nb (1.0 - a1l)))
    else if Rlt_dec cs_ns_2 cs_ns_last then
      let mx := msolve2 lib (2.5, 1.0)
                  (solve_coeff_small nmax cs_ns_2 cs_ns_last) in
      let a1l := fst mx in
      let a2l := snd mx in
      let hyperg := gsl_sf_hyperg_2F1 lib 1.0 1.0 (1.0 - 1.0 / a1l)
                      (1.0 / a2l * pow nb (- a1l)
                       / (1.0 / a2l * pow nb (- a1l) + 1.0)) in
      let hyperg_max := gsl_sf_hyperg_2F1 lib 1.0 1.0 (1.0 - 1.0 / a1l)
                          (1.0 / a2l * pow nmax (- a1l)
                           / (1.0 / a2l * pow nmax (- a1l) + 1.0)) in
      let hyperg_new := hyperg * (1.0 / (1.0 + 1.0 / a2l * pow nb (- a1l))) in
      let hyperg_max_new :=
        hyperg_max * (1.0 / (1.0 + 1.0 / a2l * pow nmax (- a1l))) in
      let c1l := pow nmax (- a1l - 1.0) * (a2l * pow nmax a1l + 1.0)
                 * (e_ns_last + fermion.m n * nmax + p_ns_last) in
      let c2l := pow nmax (- a1l)
                 * (a2l * pow nmax a1l * (e_ns_last + fermion.m n * nmax)
                    - (a2l * pow nmax a1l + 1.0) * hyperg_max_new
                      * (e_ns_last + fermion.m n * nmax + p_ns_last))
                 / a2l in
      ((c1l * nb * hyperg_new) / a2l + c2l - fermion.m n * nb,
       - (a2l * fermion.m n * pow nb a1l - c1l * pow nb a1l + fermion.m n)
         / (a2l * pow nb a1l + 1.0))
    else if Req_dec_T cs_ns_2 cs_ns_last then
      (- fermion.m n * nb
       + (e_ns_last + fermion.m n * nmax + p_ns_last) / (1.0 + cs_ns_last)
         * pow (nb / nmax) (cs_ns_last + 1.0)
       + (cs_ns_last * (e_ns_last + fermion.m n * nmax) - p_ns_last)
         / (1.0 + cs_ns_last),
       - fermion.m n
       + (e_ns_last + fermion.m n * nmax + p_ns_last)
         * pow (nb / nmax) cs_ns_last / nmax)
    else (e_ns, densdnn).

(** *** The virial gas *)

(** What [free_energy_density_virial] returns and leaves in its reference
    arguments; [v_eos] is the object after the call (the solver [acl] has
    new fields). *)
Record virial_out : Type := mk_virial_out {
  v_f_vir : R;
  v_eos : eos; v_n : fermion.t; v_p : fermion.t; v_th : thermo.t;
  v_dmundnn : R; v_dmundpn : R; v_dmupdnn : R; v_dmupdpn : R;
  v_dmundT : R; v_dmupdT : R
}.

Definition free_energy_density_virial (st : eos) (n p : fermion.t) (T : R)
    (th : thermo.t) : virial_out :=
  let nn := fermion.n n in
  let pn := fermion.n p in
  let T_MeV := T * hc in
  let b_n := eos_crust_virial_v2.bn_f (ecv st) T_MeV in
  let dbndT := eos_crust_virial_v2.dbndT_f (ecv st) T_MeV * hc in
  let b_pn := eos_crust_virial_v2.bpn_f (ecv st) T_MeV in
  let dbpndT := eos_crust_virial_v2.dbpndT_f (ecv st) T_MeV * hc in
  let lambda := sqrt (4.0 * PI / (fermion.m n + fermion.m p) / T) in
  let dlambdadT :=
    - sqrt (PI / (fermion.m n + fermion.m p)) / pow (sqrt T) 3.0 in
  let acl1 :=
    virial_solver.mk nn pn T b_n b_pn lambda
      (virial_solver.zn (acl st)) (virial_solver.zp (acl st))
      (virial_solver.mfn2_mu_p (acl st)) (virial_solver.mfn2_mu_n (acl st))
      (virial_solver.dbndT (acl st)) (virial_solver.dbpndT (acl st))
      (virial_solver.dlambdadT (acl st)) in
  (* If the densities are large enough, then compute the virial result *)
  let dense := Rgtb (nn * pow lambda 3.0) 1.0e-5
               || Rgtb (pn * pow lambda 3.0) 1.0e-5 in
  let n_mu := if dense then fst (solve_fugacity vs acl1)
              else log (nn * pow lambda 3.0 / 2.0) * T in
  let p_mu := if dense then snd (solve_fugacity vs acl1)
              else log (pn * pow lambda 3.0 / 2.0) * T in
  let acl_zn := if dense then virial_solver.zn acl1 else exp (n_mu / T) in
  let acl_zp := if dense then virial_solver.zp acl1 else exp (p_mu / T) in
  let zn := exp (n_mu / T) in
  let zp := exp (p_mu / T) in
  let th_pr :=
    if dense then
      2.0 * T / pow lambda 3.0
      * (zn + zp + (zn * zn + zp * zp) * b_n + 2.0 * zp * zn * b_pn)
    else 2.0 * T / pow lambda 3.0 * (zn + zp) in
  let f_vir := n_mu * nn + p_mu * pn - th_pr in
  let th_en :=
    if dense then
      5.0 * th_pr / 2.0 / T - nn * log zn - pn * log zp
      + 2.0 * T / pow lambda 3.0
        * ((zn * zn + zp * zp) * dbndT + 2.0 * zp * zn * dbpndT)
    else 5.0 * th_pr / 2.0 / T - nn * log zn - pn * log zp in
  let th_ed := f_vir + T * th_en in
  let acl2 :=
    virial_solver.mk nn pn T b_n b_pn lambda acl_zn acl_zp p_mu n_mu
      (virial_solver.dbndT (acl st)) (virial_solver.dbpndT (acl st))
      (virial_solver.dlambdadT (acl st)) in
  let dmundnn := if dense then fst (mfn21 vs acl2)
                 else T * pow lambda 3.0 / 2.0 / zn in
  let dmupdnn := if dense then snd (mfn21 vs acl2) else 0 in
  let dmundpn := if dense then fst (mfn31 vs acl2) else 0 in
  let dmupdpn := if dense then snd (mfn31 vs acl2)
                 else T * pow lambda 3.0 / 2.0 / zp in
  let acl3 :=
    virial_solver.mk nn pn T b_n b_pn lambda acl_zn acl_zp p_mu n_mu
      dbndT dbpndT dlambdadT in
  let dmundT := if dense then fst (mfn41 vs acl3) else n_mu / T in
  let dmupdT := if dense then snd (mfn41 vs acl3) else p_mu / T in
  mk_virial_out f_vir (set_acl acl3 st)
    (fermion.set_mu n_mu n) (fermion.set_mu p_mu p)
    (thermo.mk th_ed th_pr th_en)
    dmundnn dmundpn dmupdnn dmupdpn dmundT dmupdT.

(** *** The combiner *)

(** The loop of the [test_ns_cs2] branch of [free_energy_density]: it
    evaluates [new_ns_eos] along [nb = 0.08, 0.09, ...] into the locals
    [e_ns] and [densdnn]; [nb] is the loop variable. *)
Definition test_ns_cs2_loop (st : eos) (n : fermion.t) (ens : R * R)
    : R * (R * R) :=
  for_do 0.08 2.0 0.01
    (fun nb (s : R * R) => new_ns_eos st nb n (fst s) (snd s)) ens.

(** The statements of [free_energy_density] after its guard: the value
    returned and the objects it leaves. *)
Definition free_energy_density_body (st : eos) (n p : fermion.t) (T : R)
    (th : thermo.t) : R * world :=
  let nn := fermion.n n in
  let pn := fermion.n p in
  let nb := nn + pn in
  let ye := pn / nb in
  let n0 := 0.16 in
  (* Compute the virial EOS *)
  let v := free_energy_density_virial st n p T th in
  let dmundT := v_dmundT v in
  let dmupdT := v_dmupdT v in
  let dmundnn := v_dmundnn v in
  let dmupdnn := v_dmupdnn v in
  let dmundpn := v_dmundpn v in
  let dmupdpn := v_dmupdpn v in
  let f_virial_ := v_f_vir v in
  let s_virial_ := thermo.en (v_th v) in
  let dfvirialdT := - thermo.en (v_th v) in
  let P_virial := thermo.pr (v_th v) in
  let mu_n_virial := fermion.mu (v_n v) in
  let mu_p_virial := fermion.mu (v_p v) in
  let zn := exp (mu_n_virial / T) in
  let zp := exp (mu_p_virial / T) in
  let g_virial_ :=
    1.0 / (a_virial st * zn * zn + a_virial st * zp * zp
           + b_virial st * zn * zp + 1.0) in
  (* Compute the Skyrme EOS in nuclear matter at T=0 *)
  let n1 := fermion.set_n ((nn + pn) / 2.0) (v_n v) in
  let p1 := fermion.set_n ((nn + pn) / 2.0) (v_p v) in
  let r := calc_e lib (sk st) n1 p1 (v_th v) in
  let n2 := fst (fst r) in
  let p2 := snd (fst r) in
  let th2_ := snd r in
  let mu_n_skyrme_eqdenT0 := fermion.mu n2 in
  let mu_p_skyrme_eqdenT0 := fermion.mu p2 in
  let P_skyrme_eqdenT0 :=
    - thermo.ed th2_ + mu_n_skyrme_eqdenT0 * fermion.n n2
    + mu_p_skyrme_eqdenT0 * fermion.n p2 in
  let f_skyrme_eqdenT0 := thermo.ed th2_ in
  (* Next, compute the Skyrme EOS at the specified density, proton
     fraction, and temperature *)
  let nc1 := fermion.set_n ((nn + pn) / 2.0) (n_chiral st) in
  let pc1 := fermion.set_n ((nn + pn) / 2.0) (p_chiral st) in
  let r := calc_temp_e lib (sk_chiral st) nc1 pc1 T (th_chiral st) in
  let nc2 := fst (fst r) in
  let pc2 := snd (fst r) in
  let thc2 := snd r in
  let f_skyrme_eqden_T := thermo.ed thc2 - T * thermo.en thc2 in
  let mu_p_eqden_T := fermion.mu pc2 in
  let mu_n_eqden_T := fermion.mu nc2 in
  let s_eqden_T := thermo.en thc2 in
  let r := calc_e lib (sk_chiral st) nc2 pc2 thc2 in
  let nc3 := fst (fst r) in
  let pc3 := snd (fst r) in
  let thc3 := snd r in
  let f_skyrme_eqden_T0 := thermo.ed thc3 in
  let mu_p_eqden_T0 := fermion.mu pc3 in
  let mu_n_eqden_T0 := fermion.mu nc3 in
  let nc4 := fermion.set_n (nn + pn) nc3 in
  let pc4 := fermion.set_n 0.0 pc3 in
  let r := calc_temp_e lib (sk_chiral st) nc4 pc4 T thc3 in
  let nc5 := fst (fst r) in
  let pc5 := snd (fst r) in
  let thc5 := snd r in
  let f_skyrme_neut_T := thermo.ed thc5 - T * thermo.en thc5 in
  let mu_p_neut_T := fermion.mu pc5 in
  let mu_n_neut_T := fermion.mu nc5 in
  let s_neut_T := thermo.en thc5 in
  let r := calc_e lib (sk_chiral st) nc5 pc5 thc5 in
  let nc6 := fst (fst r) in
  let pc6 := snd (fst r) in
  let thc6 := snd r in
  let f_skyrme_neut_T0 := thermo.ed thc6 in
  let mu_p_neut_T0 := fermion.mu pc6 in
  let mu_n_neut_T0 := fermion.mu nc6 in
  (* QMC EOS *)
  let e_qmc := energy_density_qmc st nn pn in
  (* Neutron star EOS; the locals e_ns and densdnn start unassigned *)
  let ens0 := new_ns_eos st nb n2 0 0 in
  let r := if test_ns_cs2 st then test_ns_cs2_loop st n2 ens0
           else (nb, ens0) in
  let nb := fst r in
  let e_ns := fst (snd r) in
  let densdnn := snd (snd r) in
  (* Combine all the results to get the full free energy density *)
  let T_MeV := T * hc in
  let gamma := 20.0 in
  let h := 1.0 / (1.0 + exp (gamma * (nn + pn - n0 * 1.5))) in
  let e_combine := e_qmc * h + e_ns * (1.0 - h) in
  let e_sym := e_combine - f_skyrme_eqdenT0 in
  let dyednn := - pn / nb / nb in
  let dyedpn := nn / nb / nb in
  let delta2 := (1.0 - 2.0 * ye) * (1.0 - 2.0 * ye) in
  let ddelta2dnn := 2.0 * (1.0 - 2.0 * ye) * (- 2.0 * dyednn) in
  let ddelta2dpn := 2.0 * (1.0 - 2.0 * ye) * (- 2.0 * dyedpn) in
  let f_deg_ :=
    f_skyrme_eqdenT0 + delta2 * e_sym
    + delta2 * (f_skyrme_neut_T - f_skyrme_neut_T0)
    + (1.0 - delta2) * (f_skyrme_eqden_T - f_skyrme_eqden_T0) in
  let f_total := f_virial_ * g_virial_ + f_deg_ * (1.0 - g_virial_) in
  (* Compute derivatives for chemical potentials *)
  let dgvirialdnn :=
    - (1.0 / pow (a_virial st * zn * zn + a_virial st * zp * zp
                  + b_virial st * zn * zp + 1.0) 2.0)
    * (2.0 * a_virial st * zn * zn / T * dmundnn
       + 2.0 * a_virial st * zp * zp / T * dmupdnn
       + b_virial st * zn * zp / T * dmundnn
       + b_virial st * zn * zp / T * dmupdnn) in
  let dgvirialdpn :=
    - (1.0 / pow (a_virial st * zn * zn + a_virial st * zp * zp
                  + b_virial st * zn * zp + 1.0) 2.0)
    * (2.0 * a_virial st * zn * zn / T * dmundpn
       + 2.0 * a_virial st * zp * zp / T * dmupdpn
       + b_virial st * zn * zp / T * dmundpn
       + b_virial st * zn * zp / T * dmupdpn) in
  let dfvirialdnn := mu_n_virial in
  let dfvirialdpn := mu_p_virial in
  let dfskyrme_eqden_T0dnn :=
    (mu_n_skyrme_eqdenT0 + mu_p_skyrme_eqdenT0) / 2.0 in
  let dfskyrme_eqden_T0dpn := dfskyrme_eqden_T0dnn in
  let dhdnn :=
    - gamma * exp (gamma * (nn + pn - 1.5 * n0))
    / (1.0 + exp (gamma * (nn + pn - 1.5 * n0)))
    / (1.0 + exp (gamma * (nn + pn - 1.5 * n0))) in
  let desymdnn :=
    ((qmc_a st * pow ((nn + pn) / qmc_n0 st) (qmc_alpha st)
      * (qmc_alpha st + 1.0)
      + qmc_b st * pow ((nn + pn) / qmc_n0 st) (qmc_beta st)
        * (qmc_beta st + 1.0)) / hc) * h
    + e_qmc * dhdnn + densdnn * (1.0 - h) - e_ns * dhdnn
    - dfskyrme_eqden_T0dpn / 2.0 - dfskyrme_eqden_T0dnn / 2.0 in
  let desymdpn := desymdnn in
  let dfdegdnn :=
    dfskyrme_eqden_T0dnn + (1.0 - 2.0 * ye) * (1.0 - 2.0 * ye) * desymdnn
    + ddelta2dnn * e_sym
    + delta2 * (mu_n_neut_T - mu_n_neut_T0)
    + ddelta2dnn * (f_skyrme_neut_T - f_skyrme_neut_T0)
    + (1.0 - delta2) * (mu_n_eqden_T / 2.0 + mu_p_eqden_T / 2.0
                        - mu_n_eqden_T0 / 2.0 - mu_p_eqden_T0 / 2.0)
    - ddelta2dnn * (f_skyrme_eqden_T - f_skyrme_eqden_T0) in
  let dfdegdpn :=
    dfskyrme_eqden_T0dpn + (1.0 - 2.0 * ye) * (1.0 - 2.0 * ye) * desymdpn
    + ddelta2dpn * e_sym
    + delta2 * (mu_n_neut_T - mu_n_neut_T0)
    + ddelta2dpn * (f_skyrme_neut_T - f_skyrme_neut_T0)
    + (1.0 - delta2) * (mu_p_eqden_T / 2.0 + mu_n_eqden_T / 2.0
                        - mu_p_eqden_T0 / 2.0 - mu_n_eqden_T0 / 2.0)
    - ddelta2dpn * (f_skyrme_eqden_T - f_skyrme_eqden_T0) in
  let n3 :=
    fermion.set_mu
      (dfvirialdnn * g_virial_ + f_virial_ * dgvirialdnn
       + dfdegdnn * (1 - g_virial_) + f_deg_ * (- dgvirialdnn)) n2 in
  let p3 :=
    fermion.set_mu
      (dfvirialdpn * g_virial_ + f_virial_ * dgvirialdpn
       + dfdegdpn * (1 - g_virial_) + f_deg_ * (- dgvirialdpn)) p2 in
  (* Compute derivatives for entropy *)
  let dgvirialdT_ :=
    - (1.0 / pow (1.0 + a_virial st * zn * zn + a_virial st * zp * zp
                  + b_virial st * zn * zp) 2.0)
    * (2.0 * a_virial st * zn * zn * dmundT / T
       - 2.0 * a_virial st * zn * zn * mu_n_virial / T / T
       + 2.0 * a_virial st * zp * zp * dmupdT / T
       - 2.0 * a_virial st * zp * zp * mu_p_virial / T / T
       + b_virial st * zn * zp * dmundT / T
       + b_virial st * zn * zp * dmupdT / T
       - b_virial st * zn * zp * mu_n_virial / T / T
       - b_virial st * zn * zp * mu_p_virial / T / T) in
  (* Restore p.n and n.n *)
  let n4 := fermion.set_n nn n3 in
  let p4 := fermion.set_n pn p3 in
  let dfdegdT := delta2 * (- s_neut_T) + (1.0 - delta2) * (- s_eqden_T) in
  let th_en :=
    - (dfvirialdT * g_virial_ + f_virial_ * dgvirialdT_
       + dfdegdT * (1 - g_virial_) + f_deg_ * (- dgvirialdT_)) in
  let th_pr := - f_total + fermion.n n4 * fermion.mu n4
               + fermion.n p4 * fermion.mu p4 in
  let th_ed := f_total + T * th_en in
  let st' :=
    set_dgvirialdT dgvirialdT_
      (set_f_deg f_deg_
         (set_th_chiral thc6
            (set_p_chiral pc6
               (set_n_chiral nc6
                  (set_g_virial g_virial_
                     (set_s_virial s_virial_
                        (set_f_virial f_virial_ (v_eos v)))))))) in
  (f_total, mk_world st' n4 p4 (thermo.mk th_ed th_pr th_en)).

Definition free_energy_density (st : eos) (n p : fermion.t) (T : R)
    (th : thermo.t) : outcome (R * world) :=
  if negb (model_selected st) then
    Raise exc_einval "No model selected in free_energy_density()."
  else Ok (free_energy_density_body st n p T th).



(** The locals [zn] and [zp] of [free_energy_density]: the fugacities of
    the virial gas. *)
Definition fed_zn (st : eos) (n p : fermion.t) (T : R) (th : thermo.t) : R :=
  exp (fermion.mu (v_n (free_energy_density_virial st n p T th)) / T).

Definition fed_zp (st : eos) (n p : fermion.t) (T : R) (th : thermo.t) : R :=
  exp (fermion.mu (v_p (free_energy_density_virial st n p T th)) / T).

Definition free_energy_density_alt (st : eos) (n p : fermion.t)
    (nn np T : R) (th : thermo.t) : outcome (R * world) :=
  free_energy_density st (fermion.set_n nn n) (fermion.set_n np p) T th.

(** *** Thermodynamic quantities with electrons and photons *)

(** The electron of the member functions below:
    [electron.n=pn; electron.mu=electron.m; relf.pair_density(electron,T)]. *)
Definition electron_at (st : eos) (pn T : R) : fermion.t :=
  let e := fermion.set_n pn (electron st) in
  pair_density lib (fermion.set_mu (fermion.m e) e) T.

Definition entropy (w : world) (nn pn T : R) : outcome (R * world) :=
  r <- free_energy_density (w_eos w) (fermion.set_n nn (w_n w))
         (fermion.set_n pn (w_p w)) T (w_th w) ;;
  let w1 := snd r in
  let e := electron_at (w_eos w1) pn T in
  let ph := massless_calc lib (photon (w_eos w1)) T in
  Ok (thermo.en (w_th w1) + fermion.en e + boson.en ph,
      mk_world (set_photon ph (set_electron e (w_eos w1)))
        (w_n w1) (w_p w1) (w_th w1)).

Definition ed (w : world) (nn pn T : R) : outcome (R * world) :=
  r <- free_energy_density (w_eos w) (fermion.set_n nn (w_n w))
         (fermion.set_n pn (w_p w)) T (w_th w) ;;
  let w1 := snd r in
  let e := electron_at (w_eos w1) pn T in
  let ph := massless_calc lib (photon (w_eos w1)) T in
  Ok (thermo.ed (w_th w1) + fermion.ed e + boson.ed ph
      + fermion.m (w_n w1) * nn + fermion.m (w_p w1) * pn,
      mk_world (set_photon ph (set_electron e (w_eos w1)))
        (w_n w1) (w_p w1) (w_th w1)).

Definition dfdnn_total (w : world) (nn pn T : R) : outcome (R * world) :=
  r <- free_energy_density (w_eos w) (fermion.set_n nn (w_n w))
         (fermion.set_n pn (w_p w)) T (w_th w) ;;
  let w1 := snd r in
  let e := electron_at (w_eos w1) pn T in
  Ok (fermion.mu (w_n w1) + fermion.m (w_n w1),
      mk_world (set_electron e (w_eos w1)) (w_n w1) (w_p w1) (w_th w1)).

Definition dfdpn_total (w : world) (nn pn T : R) : outcome (R * world) :=
  r <- free_energy_density (w_eos w) (fermion.set_n nn (w_n w))
         (fermion.set_n pn (w_p w)) T (w_th w) ;;
  let w1 := snd r in
  let e := electron_at (w_eos w1) pn T in
  Ok (fermion.mu (w_p w1) + fermion.mu e + fermion.m (w_p w1),
      mk_world (set_electron e (w_eos w1)) (w_n w1) (w_p w1) (w_th w1)).

(** *** The squared speed of sound at fixed Ye *)

Definition cs2_fixYe (w : world) (T : R) : outcome (R * world) :=
  let nn := fermion.n (w_n w) in
  let pn := fermion.n (w_p w) in
  r0 <- free_energy_density (w_eos w) (w_n w) (w_p w) T (w_th w) ;;
  let w0 := snd r0 in
  let th1 := w_th w0 in
  let n1 := w_n w0 in
  let p1 := w_p w0 in
  (* Numerically compute required second derivatives *)
  r <- deriv lib world nn (fun x w => dfdnn_total w x pn T) w0 ;;
  let dfdnn_totaldnn := fst r in
  r <- deriv lib world pn (fun x w => dfdnn_total w nn x T) (snd r) ;;
  let dfdnn_totaldpn := fst r in
  r <- deriv lib world T (fun x w => dfdnn_total w nn pn x) (snd r) ;;
  let dfdnn_totaldT := fst r in
  r <- deriv lib world nn (fun x w => dfdpn_total w x pn T) (snd r) ;;
  let dfdpn_totaldnn := fst r in
  r <- deriv lib world pn (fun x w => dfdpn_total w nn x T) (snd r) ;;
  let dfdpn_totaldpn := fst r in
  r <- deriv lib world T (fun x w => dfdpn_total w nn pn x) (snd r) ;;
  let dfdpn_totaldT := fst r in
  r <- deriv lib world T (fun x w => entropy w nn pn x) (snd r) ;;
  let dsdT := fst r in
  r <- deriv lib world nn (fun x w => entropy w x pn T) (snd r) ;;
  let dsdnn := fst r in
  r <- deriv lib world pn (fun x w => entropy w nn x T) (snd r) ;;
  let dsdpn := fst r in
  let dfdnbdT := dfdnn_totaldT in
  let dfdnedT := dfdpn_totaldT - dfdnn_totaldT in
  let dfdnbdne := dfdnn_totaldpn - dfdnn_totaldnn in
  let dfdTdT := - dsdT in
  let dfdnbdnb := dfdnn_totaldnn in
  let dfdnedne :=
    dfdpn_totaldpn + dfdnn_totaldnn - dfdpn_totaldnn - dfdnn_totaldpn in
  r <- dfdpn_total (snd r) nn pn T ;;
  let dfdpn_total1 := fst r in
  r <- dfdnn_total (snd r) nn pn T ;;
  let dfdnn_total1 := fst r in
  let w2 := snd r in
  let nb := fermion.n n1 + fermion.n p1 in
  let mub := dfdnn_total1 in
  let mul := dfdpn_total1 - dfdnn_total1 in
  (* entropy and ed work on the copies n1, p1 and th1 *)
  r <- entropy (mk_world (w_eos w2) n1 p1 th1)
         (fermion.n n1) (fermion.n p1) T ;;
  let s := fst r in
  r <- ed (snd r) (fermion.n (w_n (snd r))) (fermion.n (w_p (snd r))) T ;;
  let ed1 := fst r in
  let ne := fermion.n (w_p (snd r)) in
  let dPdnb := dfdnbdnb * nb + dfdnbdne * ne in
  let dPdne := dfdnbdne * nb + dfdnedne * ne in
  let dPdT := dfdnbdT * nb + dfdnedT * ne + s in
  let pr := mul * ne + mub * nb + T * s - ed1 in
  let cs_sq :=
    (- nb * dPdnb * dfdTdT - ne * dPdne * dfdTdT
     + dPdT * (dfdnbdT * nb + dfdnedT * ne + s))
    / ((pr + ed1) * (- dfdTdT)) in
  Ok (cs_sq, mk_world (w_eos (snd r)) (w_n w2) (w_p w2) (w_th w2)).

(** *** The model validator *)

Definition min_max_cs2 (st : eos) : R * R :=
  let nb := 0.08 in
  let cs2 := cs2_fit st nb in
  snd (for_do 0.04 (ns_nb_max st) 0.02
         (fun nb (mm : R * R) =>
            let cs2 := cs2_fit st nb in
            let cs2_min := if Rlt_dec cs2 (fst mm) then cs2 else fst mm in
            let cs2_max := if Rgt_dec cs2 (snd mm) then cs2 else snd mm in
            (cs2_min, cs2_max))
         (cs2, cs2)).

(** [szttos(i)] *)
Definition szttos (i : nat) : string :=
  NilEmpty.string_of_uint (Nat.to_uint i).

(** The rows of the table [nstar_high] of [ns_fit]: the loop over
    [i = i0, ..., 99] (with [left = 100 - i0]) stops at the first density
    [0.04+i*0.012] that is not below [ns_nb_max+0.000001], and keeps the rows
    with [|EoA_i| > 1.0e-2]. *)
Fixpoint nstar_high_rows (st : eos) (row : Z) (nmax : R) (left i : nat)
    : list (R * R) :=
  match left with
  | O => []
  | Datatypes.S k =>
      if Rlt_dec (0.04 + INR i * 0.012) (nmax + 0.000001) then
        let EoA_i := table_units.get (nstar_tab st) (String.append "EoA_" (szttos i)) row in
        let rest := nstar_high_rows st row nmax k (Datatypes.S i) in
        if Rgt_dec (fabs EoA_i) 1.0e-2
        then (0.04 + INR i * 0.012, EoA_i * hc) :: rest
        else rest
      else []
  end.

(** The loop of [ns_fit] that looks for the density at which the fitted
    sound speed crosses one, over consecutive rows [(nb, cs2_fit)]. *)
Fixpoint nb_new_loop (rows : list (R * R)) (nb_new : R) : R :=
  match rows with
  | (nb_j, cs2_j) :: (((nb_j1, cs2_j1) :: _) as rest) =>
      nb_new_loop rest
        (if Rltb cs2_j 1.0 && Rgtb cs2_j1 1.0
         then nb_j + (nb_j1 - nb_j) * (1.0 - cs2_j) / (cs2_j1 - cs2_j)
         else nb_new)
  | _ => nb_new
  end.

(** [ns_fit(row)].  The guard [row>=nstar_tab.get_nlines()] compares the
    [int row] with a [size_t]: [row] is converted, so that a negative row
    is not allowed either.  With an empty table [nstar_high] the bound
    [get_nlines()-1] of the last loop wraps around and the first
    [get] is out of range, which the table reports as an error. *)
Definition ns_fit (st : eos) (row : Z) : outcome eos :=
  if (size_t_of_int row >=? table_units.get_nlines (nstar_tab st))%Z then
    Raise exc_efailed "Row not allowed in ns_fit()."
  else
  let st := set_i_ns row st in
  let parms0 :=
    [-6.102748e3; 3.053497e3; 4.662834e3; -8.371958e2; -5.228209e2] in
  let nmax := table_units.get (nstar_tab st) "nb_max" (i_ns st) in
  let rows := nstar_high_rows st (i_ns st) nmax 100 0 in
  let xdat := map fst rows in
  let ydat := map snd rows in
  let yerr := map (fun y => fabs y / 100) ydat in
  let fitted := fit lib parms0 xdat ydat yerr (fit_fun st) in
  let st :=
    set_chi2_ns (snd fitted)
      (set_ns_fit_parms (fst fitted) (set_ns_nb_max nmax st)) in
  match rows with
  | [] => Raise exc_einval "table row out of range"
  | _ =>
      (* Readjust ns_nb_max to ensure it's lower than the point at which
         c_s^2 becomes superluminal *)
      let nb_new :=
        nb_new_loop (map (fun nb => (nb, cs2_fit st nb)) xdat) 0.0 in
      let st := if Rgt_dec nb_new 0.01 then set_ns_nb_max nb_new st else st in
      if ns_record st then Exit (-1) else Ok st
  end.

(** The objects that [select_internal] hands to the functions taking
    references, and their storing back. *)
Definition members (st : eos) : world :=
  mk_world st (neutron st) (proton st) (th2 st).

Definition store (w : world) : eos :=
  set_th2 (w_th w) (set_proton (w_p w) (set_neutron (w_n w) (w_eos w))).

(** [solve_Ye(nv,x,y,nb,T,muL)]: the value returned and what it writes to
    [y[0]], if it does. *)
Definition solve_Ye (nb T muL : R) (Ye : R) (st : eos)
    : outcome (Z * option R * eos) :=
  let st := set_neutron (fermion.set_n (nb * (1.0 - Ye)) (neutron st)) st in
  let st := set_proton (fermion.set_n (nb * Ye) (proton st)) st in
  let np := eff_mass lib (sk st) (neutron st) (proton st) in
  let st := set_proton (snd np) (set_neutron (fst np) st) in
  if Rltb (fermion.ms (neutron st)) 0.0 || Rltb (fermion.ms (proton st)) 0.0
  then Ok (1%Z, None, st)
  else
    r <- free_energy_density st (neutron st) (proton st) T (th2 st) ;;
    let st := store (snd r) in
    let st := set_photon (massless_calc lib (photon st) T) st in
    let st := set_electron (electron_at st (fermion.n (proton st)) T) st in
    Ok (0%Z,
        Some (fermion.mu (neutron st) - fermion.mu (proton st)
              - fermion.mu (electron st) + muL
              + fermion.m (neutron st) - fermion.m (proton st)),
        st).

(** The effective masses that [select_internal] computes at the densities
    [(nn,pn)]: both are stored, with the densities, in the members. *)
Definition set_eff_masses (nn pn : R) (st : eos) : eos :=
  let n := fermion.set_n nn (neutron st) in
  let p := fermion.set_n pn (proton st) in
  let skm := sk st in
  let term :=
    0.25 * (eos_had_skyrme.t1 skm * (1.0 + eos_had_skyrme.x1 skm / 2.0)
            + eos_had_skyrme.t2 skm * (1.0 + eos_had_skyrme.x2 skm / 2.0)) in
  let term2 :=
    0.25 * (eos_had_skyrme.t2 skm * (0.5 + eos_had_skyrme.x2 skm)
            - eos_had_skyrme.t1 skm * (0.5 + eos_had_skyrme.x1 skm)) in
  let n := fermion.set_ms
             (fermion.m n
              / (1.0 + 2.0 * ((fermion.n n + fermion.n p) * term
                              + fermion.n n * term2) * fermion.m n)) n in
  let p := fermion.set_ms
             (fermion.m p
              / (1.0 + 2.0 * ((fermion.n n + fermion.n p) * term
                              + fermion.n p * term2) * fermion.m p)) p in
  set_proton p (set_neutron n st).

Definition ms_negative (st : eos) : bool :=
  Rltb (fermion.ms (neutron st)) 0.0 || Rltb (fermion.ms (proton st)) 0.0.

(** The test that dineutrons are not bound. *)
Definition dineutron_loop (st : eos) : outcome (eos + Z * eos) :=
  for_loop 0.01 0.16 0.001
    (fun nb st =>
       let st := set_neutron (fermion.set_n nb (neutron st)) st in
       let st := set_proton (fermion.set_n 0.0 (proton st)) st in
       let r := calc_e lib (sk st) (neutron st) (proton st) (th2 st) in
       let st :=
         set_th2 (snd r) (set_proton (snd (fst r)) (set_neutron (fst (fst r)) st)) in
       if Rlt_dec (thermo.ed (th2 st) / nb) 0.0
       then Ok (inr (4%Z, set_model_selected false st))
       else Ok (inl st))
    st.

(** The test of beta equilibrium at T=1 MeV. *)
Definition beta_eq_loop (st : eos) : outcome (eos + Z * eos) :=
  for_loop 0.1 2.00001 0.05
    (fun nbx st =>
       let verbose_store := verbose st in
       let st := set_verbose 0%Z st in
       r <- msolve1 lib eos 0.05 (solve_Ye nbx (1.0 / hc) 0.0) st ;;
       let ret := fst (fst r) in
       let Ye_trial := snd (fst r) in
       let st := snd r in
       if negb (ret =? 0)%Z then Ok (inr (8%Z, set_model_selected false st))
       else
         let Ye := Ye_trial in
         let st := set_verbose verbose_store st in
         if Rltb Ye 0.0 || Rgtb Ye 1.0
         then Ok (inr (9%Z, set_model_selected false st))
         else Ok (inl st))
    st.

(** One evaluation of the sound speed test: the densities, electron
    fraction and temperature of the point and the squared sound speed
    computed there. *)
Record cs2_sample : Type := mk_cs2_sample {
  cs_nbx : R; cs_yex : R; cs_Tx : R; cs_cs2x : R
}.

(** The test of the sound speed over the grid.  Next to the object the
    loop carries the list of the values it computed, in order. *)
Definition cs2_test_loop (st : eos)
    : outcome (eos * list cs2_sample + Empty_set) :=
  for_loop 0.1 2.00001 0.05
    (fun nbx s1 =>
       for_loop 0.05 0.4501 0.1
         (fun yex s2 =>
            for_loop (1.0 / hc) (10.01 / hc) (9.0 / hc)
              (fun Tx s3 =>
                 let st := fst s3 in
                 let st :=
                   set_neutron
                     (fermion.set_n (nbx * (1.0 - yex)) (neutron st)) st in
                 let st :=
                   set_proton (fermion.set_n (nbx * yex) (proton st)) st in
                 r <- cs2_fixYe (members st) Tx ;;
                 let cs2x := fst r in
                 let st := store (snd r) in
                 if Rlt_dec cs2x 0.0 then Exit (-1)
                 else Ok (inl (st, snd s3 ++ [mk_cs2_sample nbx yex Tx cs2x])))
              s2)
         s1)
    (st, []).

Definition select_internal (st : eos) (i_ns_loc i_skyrme_loc : Z)
    (qmc_alpha_loc qmc_a_loc eos_L_loc eos_S_loc phi_loc : R)
    : outcome (Z * eos) :=
  let st := set_i_ns i_ns_loc st in
  let st := set_i_skyrme i_skyrme_loc st in
  let st := set_qmc_alpha qmc_alpha_loc st in
  let st := set_qmc_a qmc_a_loc st in
  let st := set_eos_L eos_L_loc st in
  let st := set_eos_S eos_S_loc st in
  let st := set_phi phi_loc st in
  let st := set_model_selected true st in
  st <- ns_fit st (i_ns st) ;;
  let ns_min_cs2 := fst (min_max_cs2 st) in
  let ns_max_cs2 := snd (min_max_cs2 st) in
  if Rlt_dec ns_min_cs2 0.0 then Ok (1%Z, set_model_selected false st)
  else
  if Rgtb (9.17 * eos_S st - 266.0) (eos_L st)
     || Rltb (14.3 * eos_S st - 379.0) (eos_L st)
  then Ok (2%Z, set_model_selected false st)
  else
  let tab := table_units.get (UNEDF_tab st) in
  let rho0 := tab "rho0" (i_skyrme st) in
  let Crdr0 := tab "Crdr0" (i_skyrme st) in
  let Vp := tab "Vp" (i_skyrme st) in
  let EoA := tab "EoA" (i_skyrme st) in
  let Crdr1 := tab "Crdr1" (i_skyrme st) in
  let CrdJ0 := tab "CrdJ0" (i_skyrme st) in
  let K := tab "K" (i_skyrme st) in
  let Ms_inv := tab "Ms_inv" (i_skyrme st) in
  let Vn := tab "Vn" (i_skyrme st) in
  let CrdJ1 := tab "CrdJ1" (i_skyrme st) in
  (* Store some of the nuclear matter parameters *)
  let st := set_eos_K K (set_eos_EoA EoA (set_eos_n0 rho0 st)) in
  (* Determine QMC coefficients *)
  let st := set_qmc_b (eos_S st + EoA - qmc_a st) st in
  let st :=
    set_qmc_beta ((eos_L st / 3.0 - qmc_a st * qmc_alpha st) / qmc_b st) st in
  if Rltb (qmc_b st) 0.0 || Rgtb (qmc_beta st) 5.0
  then Ok (3%Z, set_model_selected false st)
  else
  let Ms_star := 1 / Ms_inv in
  let st :=
    set_sk (alt_params_saturation lib (sk st)
              [rho0; EoA / hc; K / hc; Ms_star; eos_S st / hc; eos_L st / hc;
               1.0 / 1.249; Crdr0 / hc; Crdr1 / hc; CrdJ0 / hc; CrdJ1 / hc])
      st in
  (* Test to make sure dineutrons are not bound *)
  r <- dineutron_loop st ;;
  match r with
  | inr ret => Ok ret
  | inl st =>
  (* Ensure effective masses are positive *)
  let st := set_eff_masses 1.0 1.0 st in
  if ms_negative st then Ok (5%Z, set_model_selected false st) else
  let st := set_eff_masses 2.0 0.0 st in
  if ms_negative st then Ok (6%Z, set_model_selected false st) else
  let st := set_eff_masses 0.0 2.0 st in
  if ms_negative st then Ok (7%Z, set_model_selected false st) else
  (* Test beta equilibrium *)
  r <- beta_eq_loop st ;;
  match r with
  | inr ret => Ok ret
  | inl st =>
  (* Test cs2 *)
  let st := set_model_selected true st in
  if select_cs2_test st then
    r <- cs2_test_loop st ;;
    match r with
    | inl s => Ok (0%Z, fst s)
    | inr e => match e with end
    end
  else Ok (0%Z, st)
  end
  end.

(** [point]: the three numbers are the arguments after conversion by
    [stod]. *)
Definition point (st : eos) (nB Ye T_MeV : R) : outcome (Z * eos) :=
  if negb (model_selected st) then Ok (1%Z, st)
  else
    let T := T_MeV / hc in
    let st := set_neutron (fermion.set_n (nB * (1.0 - Ye)) (neutron st)) st in
    let st := set_proton (fermion.set_n (nB * Ye) (proton st)) st in
    r <- free_energy_density st (neutron st) (proton st) T (th2 st) ;;
    Ok (0%Z, store (snd r)).

(** *** Further member functions *)

(** [free_energy_density_ep(nn,np,T)]: the free energy with electrons,
    positrons and photons, on the members of the object. *)
Definition free_energy_density_ep (st : eos) (nn np T : R)
    : outcome (R * eos) :=
  let st := set_neutron (fermion.set_n nn (neutron st)) st in
  let st := set_proton (fermion.set_n np (proton st)) st in
  let st := set_electron (electron_at st np T) st in
  let st := set_photon (massless_calc lib (photon st) T) st in
  r <- free_energy_density st (neutron st) (proton st) T (th2 st) ;;
  let frnp := fst r in
  let st := store (snd r) in
  let st :=
    set_th2
      (thermo.mk
         (thermo.ed (th2 st) + fermion.ed (electron st) + boson.ed (photon st))
         (thermo.pr (th2 st) + fermion.pr (electron st) + boson.pr (photon st))
         (thermo.en (th2 st) + fermion.en (electron st) + boson.en (photon st)))
      st in
  Ok (frnp + fermion.ed (electron st) - fermion.en (electron st) * T
      + boson.ed (photon st) - T * boson.en (photon st),
      st).

(** [solve_T(nv,x,y,nb,Ye,sonb)]: the value returned and what it writes to
    [y[0]], if it does. *)
Definition solve_T (nb Ye sonb : R) (T : R) (st : eos)
    : outcome (Z * option R * eos) :=
  let st := set_neutron (fermion.set_n (nb * (1.0 - Ye)) (neutron st)) st in
  let st := set_proton (fermion.set_n (nb * Ye) (proton st)) st in
  let np := eff_mass lib (sk st) (neutron st) (proton st) in
  let st := set_proton (snd np) (set_neutron (fst np) st) in
  if Rltb (fermion.ms (neutron st)) 0.0 || Rltb (fermion.ms (proton st)) 0.0
  then Ok (1%Z, None, st)
  else
    r <- free_energy_density st (neutron st) (proton st) T (th2 st) ;;
    let st := store (snd r) in
    let st := set_photon (massless_calc lib (photon st) T) st in
    let st := set_electron (electron_at st (fermion.n (proton st)) T) st in
    Ok (0%Z,
        Some ((thermo.en (th2 st) + fermion.en (electron st)
               + boson.en (photon st)) / nb - sonb),
        st).

(** [cs2(n,p,T,th)]: the squared speed of sound at fixed lepton chemical
    potential.  The calls are those of [cs2_fixYe]; the expression of the
    result differs. *)
Definition cs2 (w : world) (T : R) : outcome (R * world) :=
  let nn := fermion.n (w_n w) in
  let pn := fermion.n (w_p w) in
  r0 <- free_energy_density (w_eos w) (w_n w) (w_p w) T (w_th w) ;;
  let w0 := snd r0 in
  let th1 := w_th w0 in
  let n1 := w_n w0 in
  let p1 := w_p w0 in
  (* Numerically compute required second derivatives *)
  r <- deriv lib world nn (fun x w => dfdnn_total w x pn T) w0 ;;
  let dfdnn_totaldnn := fst r in
  r <- deriv lib world pn (fun x w => dfdnn_total w nn x T) (snd r) ;;
  let dfdnn_totaldpn := fst r in
  r <- deriv lib world T (fun x w => dfdnn_total w nn pn x) (snd r) ;;
  let dfdnn_totaldT := fst r in
  r <- deriv lib world nn (fun x w => dfdpn_total w x pn T) (snd r) ;;
  let dfdpn_totaldnn := fst r in
  r <- deriv lib world pn (fun x w => dfdpn_total w nn x T) (snd r) ;;
  let dfdpn_totaldpn := fst r in
  r <- deriv lib world T (fun x w => dfdpn_total w nn pn x) (snd r) ;;
  let dfdpn_totaldT := fst r in
  r <- deriv lib world T (fun x w => entropy w nn pn x) (snd r) ;;
  let dsdT := fst r in
  r <- deriv lib world nn (fun x w => entropy w x pn T) (snd r) ;;
  let dsdnn := fst r in
  r <- deriv lib world pn (fun x w => entropy w nn x T) (snd r) ;;
  let dsdpn := fst r in
  let dfdnbdT := dfdnn_totaldT in
  let dfdnedT := dfdpn_totaldT - dfdnn_totaldT in
  let dfdnbdne := dfdnn_totaldpn - dfdnn_totaldnn in
  let dfdTdT := - dsdT in
  let dfdnbdnb := dfdnn_totaldnn in
  let dfdnedne :=
    dfdpn_totaldpn + dfdnn_totaldnn - dfdpn_totaldnn - dfdnn_totaldpn in
  r <- dfdpn_total (snd r) nn pn T ;;
  let dfdpn_total1 := fst r in
  r <- dfdnn_total (snd r) nn pn T ;;
  let dfdnn_total1 := fst r in
  let w2 := snd r in
  let nb := fermion.n n1 + fermion.n p1 in
  let mub := dfdnn_total1 in
  let mul := dfdpn_total1 - dfdnn_total1 in
  (* entropy and ed work on the copies n1, p1 and th1 *)
  r <- entropy (mk_world (w_eos w2) n1 p1 th1)
         (fermion.n n1) (fermion.n p1) T ;;
  let s := fst r in
  r <- ed (snd r) (fermion.n (w_n (snd r))) (fermion.n (w_p (snd r))) T ;;
  let ed1 := fst r in
  let ne := fermion.n (w_p (snd r)) in
  let dSdTVmulNb := (- dfdTdT * dfdnedne + dfdnedT * dfdnedT) / dfdnedne in
  let dSdVTmulNb :=
    (s * dfdnedne + dfdnedT * dfdnedne * ne + dfdnbdT * dfdnedne * nb
     - dfdnedT * dfdnedne * ne - dfdnedT * dfdnbdne * nb) / dfdnedne in
  let dpdVTmulNb :=
    (- dfdnbdnb * dfdnedne + dfdnbdne * dfdnbdne) * nb * nb / dfdnedne in
  let dpdTVmulNb := dSdVTmulNb in
  let dpdVSmulNb :=
    (dpdVTmulNb * dSdTVmulNb - dpdTVmulNb * dSdVTmulNb) / dSdTVmulNb in
  let dNedVSmulNb :=
    (dfdTdT * (dfdnedne * ne + dfdnbdne * nb)
     - (dfdnedT * ne + dfdnbdT * nb) * dfdnedT)
    / (- dfdnedT * dfdnedT + dfdTdT * dfdnedne) in
  let pr := mul * ne + mub * nb + T * s - ed1 in
  let depsilondVSmulNb := - pr - ed1 + mul * dNedVSmulNb in
  let cs_sq := dpdVSmulNb / depsilondVSmulNb in
  Ok (cs_sq, mk_world (w_eos (snd r)) (w_n w2) (w_p w2) (w_th w2)).

(** [select_model]: the seven numbers are the arguments after conversion by
    [stod] and, for the two indices, to [int]. *)
Definition select_model (st : eos) (sv1 sv2 : Z) (sv3 sv4 sv5 sv6 sv7 : R)
    : outcome (Z * eos) :=
  let st := set_i_ns sv1 st in
  let st := set_i_skyrme sv2 st in
  let st := set_qmc_alpha sv3 st in
  let st := set_qmc_a sv4 st in
  let st := set_eos_L sv5 st in
  let st := set_eos_S sv6 st in
  let st := set_phi sv7 st in
  r <- select_internal st (i_ns st) (i_skyrme st) (qmc_alpha st) (qmc_a st)
         (eos_L st) (eos_S st) (phi st) ;;
  let iret := fst r in
  if negb (iret =? 0)%Z then Ok (1%Z, snd r) else Ok (0%Z, snd r).

End Eos.

(** ** The electron-photon EOS of [eos_sn_oo1] *)

Module eos_sn_oo1.
Record t : Type := mk {
  photon : boson.t; electron : fermion.t; muon : fermion.t;
  include_muons : bool
}.
End eos_sn_oo1.

(** [eos_sn_oo1::compute_eg_point(nb1,ye1,T1)]: the free energy per baryon
    and the object it leaves.  [pair_mu] is [fermion_rel::pair_mu], the
    other functions of the library are those of [lib].  The locals [deg],
    [P_eg] and the muon terms added to [E_eg] and [S_eg] after [F_eg] is
    formed are computed and not used. *)
Definition compute_eg_point (lib : o2scl)
    (pair_mu : fermion.t -> R -> fermion.t)
    (eso : eos_sn_oo1.t) (nb1 ye1 T1 : R) : R * eos_sn_oo1.t :=
  let hc := hc_mev_fm lib in
  let deg := nb1 / pow (T1 / hc) 3.0 in
  let photon := massless_calc lib (eos_sn_oo1.photon eso) (T1 / hc) in
  let electron := fermion.set_n (nb1 * ye1) (eos_sn_oo1.electron eso) in
  let electron := fermion.set_mu (fermion.m electron) electron in
  let electron :=
    if Reqb ye1 0.0 || Reqb (fermion.n electron) 0.0 then
      fermion.mk (fermion.n electron) (fermion.m electron) 0.0
        (fermion.ms electron) 0.0 0.0 0.0
    else pair_density lib electron (T1 / hc) in
  let muon :=
    if eos_sn_oo1.include_muons eso then
      let muon := fermion.set_mu (fermion.mu electron) (eos_sn_oo1.muon eso) in
      if Reqb ye1 0.0 || Reqb (fermion.mu muon) 0.0 then
        fermion.mk 0.0 (fermion.m muon) (fermion.mu muon) (fermion.ms muon)
          0.0 0.0 0.0
      else pair_mu muon (T1 / hc)
    else eos_sn_oo1.muon eso in
  let E_eg := (fermion.ed electron + boson.ed photon) / nb1 * hc in
  let P_eg := (fermion.pr electron + boson.pr photon) * hc in
  let S_eg := (fermion.en electron + boson.en photon) / nb1 in
  let F_eg := E_eg - T1 * S_eg in
  let F_eg :=
    if eos_sn_oo1.include_muons eso then
      F_eg + (fermion.ed muon / nb1 * hc - T1 * fermion.en muon / nb1)
    else F_eg in
  (F_eg,
   eos_sn_oo1.mk photon electron muon (eos_sn_oo1.include_muons eso)).

(** The grid of the sound speed test: [nb = 0.1, 0.15, ..., 2.0] fm^-3,
    [Ye = 0.05, 0.15, ..., 0.45] and [T = 1, 10] MeV (in fm^-1), in the
    order of the loops. *)
Definition cs_point (e : cs2_sample) : R * R * R :=
  (cs_nbx e, cs_yex e, cs_Tx e).

Definition validation_grid (hc : R) : list (R * R * R) :=
  flat_map
    (fun nbx =>
       flat_map
         (fun yex =>
            map (fun Tx => (nbx, yex, Tx)) (grid_points (1.0 / hc) (9.0 / hc) 2))
         (grid_points 0.05 0.1 5))
    (grid_points 0.1 0.05 39).

(** The evaluation of the sound speed test at the point [p] of the grid:
    [cs2_fixYe] on the members of the object, with the densities of the
    point assigned, as in the loop. *)
Definition cs2_at (lib : o2scl) (vs : virial_methods) (p : R * R * R)
    (st : eos) : outcome (R * world) :=
  let nbx := fst (fst p) in
  let yex := snd (fst p) in
  let Tx := snd p in
  let st :=
    set_neutron (fermion.set_n (nbx * (1.0 - yex)) (neutron st)) st in
  let st := set_proton (fermion.set_n (nbx * yex) (proton st)) st in
  cs2_fixYe lib vs (members st) Tx.

(** The samples [log] are the values that [cs2_fixYe] returned at their
    points, one evaluation after the other: the first on the object [st],
    each next one on the object that the evaluation before it has left,
    and the last one leaves [st']. *)
Fixpoint cs2_evaluated (lib : o2scl) (vs : virial_methods) (st : eos)
    (log : list cs2_sample) (st' : eos) : Prop :=
  match log with
  | [] => st' = st
  | e :: log =>
      exists w : world,
        cs2_at lib vs (cs_point e) st = Ok (cs_cs2x e, w)
        /\ cs2_evaluated lib vs (store w) log st'
  end.

(** One trip of the sound speed test, at the point [p]. *)
Definition cs2_test_at (lib : o2scl) (vs : virial_methods) (p : R * R * R)
    (s : eos * list cs2_sample)
    : outcome (eos * list cs2_sample + Empty_set) :=
  r <- cs2_at lib vs p (fst s) ;;
  if Rlt_dec (fst r) 0.0 then Exit (-1)
  else Ok (inl (store (snd r),
                snd s ++ [mk_cs2_sample (fst (fst p)) (snd (fst p)) (snd p)
                            (fst r)])).

(** ** What the validator asks of the library

    The root solver and the numerical derivative change the objects they
    thread only by calling the function they are given: what every call of
    the function preserves, the solver and the derivative preserve. *)
Definition calls_back_only (lib : o2scl) : Prop :=
  (forall (W : Type) (P : W -> Prop) (x0 : R)
          (f : R -> W -> outcome (Z * option R * W)) (w : W)
          (r : Z * R * W),
      (forall x w' r', P w' -> f x w' = Ok r' -> P (snd r')) ->
      P w -> msolve1 lib W x0 f w = Ok r -> P (snd r))
  /\ (forall (W : Type) (P : W -> Prop) (x0 : R)
             (f : R -> W -> outcome (R * W)) (w : W) (r : R * W),
        (forall x w' r', P w' -> f x w' = Ok r' -> P (snd r')) ->
        P w -> deriv lib W x0 f w = Ok r -> P (snd r)).

(** The object [s'] holds the model and the parameters of [s]: the two
    differ at most in the members that an evaluation assigns (the
    fermions, the photon, [th2], the members that [free_energy_density]
    writes, [verbose] and the virial solver). *)
Definition same_parameters (s s' : eos) : Prop :=
  i_ns s' = i_ns s /\ i_skyrme s' = i_skyrme s
  /\ qmc_alpha s' = qmc_alpha s /\ qmc_a s' = qmc_a s
  /\ eos_L s' = eos_L s /\ eos_S s' = eos_S s /\ phi s' = phi s
  /\ ns_fit_parms s' = ns_fit_parms s /\ ns_nb_max s' = ns_nb_max s
  /\ chi2_ns s' = chi2_ns s
  /\ eos_n0 s' = eos_n0 s /\ eos_EoA s' = eos_EoA s /\ eos_K s' = eos_K s
  /\ qmc_b s' = qmc_b s /\ qmc_beta s' = qmc_beta s
  /\ sk s' = sk s
  /\ model_selected s' = model_selected s
  /\ select_cs2_test s' = select_cs2_test s
  /\ test_ns_cs2 s' = test_ns_cs2 s /\ old_ns_fit s' = old_ns_fit s
  /\ ns_record s' = ns_record s /\ qmc_n0 s' = qmc_n0 s
  /\ sk_chiral s' = sk_chiral s /\ ecv s' = ecv s
  /\ a_virial s' = a_virial s /\ b_virial s' = b_virial s
  /\ nstar_tab s' = nstar_tab s /\ UNEDF_tab s' = UNEDF_tab s.

(** The object [s] holds the candidate that [select_internal] validates
    when it is called on [st] with the seven arguments and the fit of the
    row has left [fitted]: the arguments, the fit, the saturation
    properties of the Skyrme model [i_skyrme_loc], the coefficients
    [qmc_b] and [qmc_beta] derived from them, the Skyrme parameters of
    [alt_params_saturation], a selected model, and the members of [st]
    that [select_internal] does not assign. *)
Definition holds_candidate (lib : o2scl) (st fitted : eos)
    (i_ns_loc i_skyrme_loc : Z)
    (qmc_alpha_loc qmc_a_loc eos_L_loc eos_S_loc phi_loc : R) (s : eos)
    : Prop :=
  let hc := hc_mev_fm lib in
  let tab := table_units.get (UNEDF_tab st) in
  let rho0 := tab "rho0" i_skyrme_loc in
  let Crdr0 := tab "Crdr0" i_skyrme_loc in
  let EoA := tab "EoA" i_skyrme_loc in
  let Crdr1 := tab "Crdr1" i_skyrme_loc in
  let CrdJ0 := tab "CrdJ0" i_skyrme_loc in
  let K := tab "K" i_skyrme_loc in
  let Ms_inv := tab "Ms_inv" i_skyrme_loc in
  let CrdJ1 := tab "CrdJ1" i_skyrme_loc in
  let qmc_b_loc := eos_S_loc + EoA - qmc_a_loc in
  i_ns s = i_ns_loc /\ i_skyrme s = i_skyrme_loc
  /\ qmc_alpha s = qmc_alpha_loc /\ qmc_a s = qmc_a_loc
  /\ eos_L s = eos_L_loc /\ eos_S s = eos_S_loc /\ phi s = phi_loc
  /\ ns_fit_parms s = ns_fit_parms fitted /\ ns_nb_max s = ns_nb_max fitted
  /\ chi2_ns s = chi2_ns fitted
  /\ eos_n0 s = rho0 /\ eos_EoA s = EoA /\ eos_K s = K
  /\ qmc_b s = qmc_b_loc
  /\ qmc_beta s = (eos_L_loc / 3.0 - qmc_a_loc * qmc_alpha_loc) / qmc_b_loc
  /\ sk s
     = alt_params_saturation lib (sk st)
         [rho0; EoA / hc; K / hc; 1 / Ms_inv; eos_S_loc / hc; eos_L_loc / hc;
          1.0 / 1.249; Crdr0 / hc; Crdr1 / hc; CrdJ0 / hc; CrdJ1 / hc]
  /\ model_selected s = true
  /\ select_cs2_test s = select_cs2_test st
  /\ test_ns_cs2 s = test_ns_cs2 st /\ old_ns_fit s = old_ns_fit st
  /\ ns_record s = ns_record st /\ qmc_n0 s = qmc_n0 st
  /\ sk_chiral s = sk_chiral st /\ ecv s = ecv st
  /\ a_virial s = a_virial st /\ b_virial s = b_virial st
  /\ nstar_tab s = nstar_tab st /\ UNEDF_tab s = UNEDF_tab st.

(** ** What a replay of an evaluation asks of the library

    The Skyrme functional computes from the densities and the masses of the
    two fermions it is given and leaves the masses as they are. *)
Definition functional_of_densities
    (f : fermion.t -> fermion.t -> thermo.t ->
         fermion.t * fermion.t * thermo.t) : Prop :=
  (forall n p th n' p' th',
     fermion.n n = fermion.n n' -> fermion.m n = fermion.m n' ->
     fermion.n p = fermion.n p' -> fermion.m p = fermion.m p' ->
     f n p th = f n' p' th')
  /\ (forall n p th,
        fermion.m (fst (fst (f n p th))) = fermion.m n
        /\ fermion.m (snd (fst (f n p th))) = fermion.m p).

Definition skyrme_is_functional (lib : o2scl) : Prop :=
  (forall skm, functional_of_densities (calc_e lib skm))
  /\ (forall skm T, functional_of_densities
                      (fun n p th => calc_temp_e lib skm n p T th)).

(** The methods of the virial solver do not read the fields that
    [free_energy_density_virial] assigns only after calling them:
    [solve_fugacity] reads neither [mfn2_mu_p], [mfn2_mu_n] nor the
    temperature derivatives, [mfn21] and [mfn31] do not read the temperature
    derivatives. *)
Definition same_gas (a a' : virial_solver.t) : Prop :=
  virial_solver.nn a = virial_solver.nn a'
  /\ virial_solver.pn a = virial_solver.pn a'
  /\ virial_solver.T a = virial_solver.T a'
  /\ virial_solver.b_n a = virial_solver.b_n a'
  /\ virial_solver.b_pn a = virial_solver.b_pn a'
  /\ virial_solver.lambda a = virial_solver.lambda a'
  /\ virial_solver.zn a = virial_solver.zn a'
  /\ virial_solver.zp a = virial_solver.zp a'.

Definition solver_reads_assigned_fields (vs : virial_methods) : Prop :=
  (forall a a', same_gas a a' -> solve_fugacity vs a = solve_fugacity vs a')
  /\ (forall a a',
        same_gas a a' ->
        virial_solver.mfn2_mu_p a = virial_solver.mfn2_mu_p a' ->
        virial_solver.mfn2_mu_n a = virial_solver.mfn2_mu_n a' ->
        mfn21 vs a = mfn21 vs a' /\ mfn31 vs a = mfn31 vs a').

(** Two objects hold the same model: they agree on every member that an
    evaluation reads without having assigned it. *)
Definition same_model (st st1 : eos) : Prop :=
  model_selected st1 = model_selected st
  /\ test_ns_cs2 st1 = test_ns_cs2 st
  /\ ns_fit_parms st1 = ns_fit_parms st
  /\ old_ns_fit st1 = old_ns_fit st
  /\ ns_nb_max st1 = ns_nb_max st
  /\ sk st1 = sk st
  /\ sk_chiral st1 = sk_chiral st
  /\ ecv st1 = ecv st
  /\ a_virial st1 = a_virial st
  /\ b_virial st1 = b_virial st
  /\ qmc_alpha st1 = qmc_alpha st
  /\ qmc_beta st1 = qmc_beta st
  /\ qmc_a st1 = qmc_a st
  /\ qmc_b st1 = qmc_b st
  /\ qmc_n0 st1 = qmc_n0 st
  /\ phi st1 = phi st.

(** The members that [free_energy_density] assigns, copied from one object
    into another. *)
Definition copy_scratch (from to : eos) : eos :=
  set_dgvirialdT (dgvirialdT from)
    (set_f_deg (f_deg from)
       (set_th_chiral (th_chiral from)
          (set_p_chiral (p_chiral from)
             (set_n_chiral (n_chiral from)
                (set_g_virial (g_virial from)
                   (set_s_virial (s_virial from)
                      (set_f_virial (f_virial from)
                         (set_acl (acl from) to)))))))).

(** ** A sample environment

    A library whose functions return zero energies, entropies and chemical
    potentials and keep the densities and masses they are given, and an
    [eos] object around it.  The examples further down are evaluated on
    them. *)

Module Sample.

Definition zero_calc_e (skm : eos_had_skyrme.t) (n p : fermion.t)
    (th : thermo.t) : fermion.t * fermion.t * thermo.t :=
  (fermion.mk (fermion.n n) (fermion.m n) 0 (fermion.m n) 0 0 0,
   fermion.mk (fermion.n p) (fermion.m p) 0 (fermion.m p) 0 0 0,
   thermo.mk 0 0 0).

Definition zero_calc_temp_e (skm : eos_had_skyrme.t) (n p : fermion.t)
    (T : R) (th : thermo.t) : fermion.t * fermion.t * thermo.t :=
  zero_calc_e skm n p th.

Definition bare_eff_mass (skm : eos_had_skyrme.t) (n p : fermion.t)
    : fermion.t * fermion.t :=
  (fermion.set_ms (fermion.m n) n, fermion.set_ms (fermion.m p) p).

Definition zero_pair_density (f : fermion.t) (T : R) : fermion.t :=
  fermion.mk (fermion.n f) (fermion.m f) (fermion.mu f) (fermion.m f) 0 0 0.

Definition zero_skyrme : eos_had_skyrme.t :=
  eos_had_skyrme.mk 0 0 0 0 0 0 0 0 0.

(** The root solvers leave the initial guess and report success; the
    numerical derivative is the constant [slope]. *)
Definition lib_with (slope : R) : o2scl :=
  {| hc_mev_fm := 197.33;
     calc_e := zero_calc_e;
     calc_temp_e := zero_calc_temp_e;
     eff_mass := bare_eff_mass;
     alt_params_saturation := fun _ _ => zero_skyrme;
     pair_density := zero_pair_density;
     massless_calc := fun _ _ => boson.mk 0 0 0;
     msolve2 := fun x _ => x;
     msolve1 := fun W x _ w => Ok (0%Z, x, w);
     deriv := fun W _ _ w => Ok (slope, w);
     gsl_sf_hyperg_2F1 := fun _ _ _ _ => 1;
     fit := fun _ _ _ _ _ => ([0; 0; 0; 0; 0], 0) |}.

Definition lib : o2scl := lib_with 1000.

(** A library whose root solver evaluates the residual once, at the initial
    guess, and whose derivative is the central difference of two
    evaluations: both thread the object through the function they are
    given. *)
Definition lib_calling : o2scl :=
  {| hc_mev_fm := 197.33;
     calc_e := zero_calc_e;
     calc_temp_e := zero_calc_temp_e;
     eff_mass := bare_eff_mass;
     alt_params_saturation := fun _ _ => zero_skyrme;
     pair_density := zero_pair_density;
     massless_calc := fun _ _ => boson.mk 0 0 0;
     msolve2 := fun x _ => x;
     msolve1 := fun W x f w => r <- f x w ;; Ok (fst (fst r), x, snd r);
     deriv := fun W x f w =>
                a <- f (x + 0.001) w ;;
                b <- f (x - 0.001) (snd a) ;;
                Ok ((fst a - fst b) / 0.002, snd b);
     gsl_sf_hyperg_2F1 := fun _ _ _ _ => 1;
     fit := fun _ _ _ _ _ => ([0; 0; 0; 0; 0], 0) |}.

(** A solver that returns the chemical potential [c] for both species and
    zero derivatives. *)
Definition vs_with (c : R) : virial_methods :=
  {| solve_fugacity := fun _ => (c, c);
     mfn21 := fun _ => (0, 0);
     mfn31 := fun _ => (0, 0);
     mfn41 := fun _ => (0, 0) |}.

Definition vs : virial_methods := vs_with 0.

(** A nucleon of mass 4.76 fm^-1 and an electron of mass 0.0026 fm^-1. *)
Definition nucleon (dens : R) : fermion.t := fermion.mk dens 4.76 0 4.76 0 0 0.

Definition electron0 : fermion.t := fermion.mk 0 0.0026 0 0.0026 0 0 0.

(** Tables in which every entry is [x] (one line). *)
Definition flat_table (x : R) : table_units.t :=
  table_units.mk (fun _ _ => x) 1.

(** The Skyrme table: binding energy -28 MeV, every other entry one. *)
Definition skyrme_table : table_units.t :=
  table_units.mk (fun col _ => if String.eqb col "EoA" then -28 else 1) 1.

(** The object after construction, with the virial coefficients of the
    fit set to zero, the neutron star table flat at 3 and [a_vir],
    [b_vir] for the coefficients of the virial weight. *)
Definition st_with (a_vir b_vir : R) : eos :=
  {| model_selected := false;
     test_ns_cs2 := false;
     electron := electron0;
     photon := boson.mk 0 0 0;
     ns_fit_parms := [0; 0; 0; 0; 0];
     g_virial := 0;
     dgvirialdT := 0;
     select_cs2_test := true;
     f_deg := 0;
     f_virial := 0;
     s_virial := 0;
     old_ns_fit := true;
     ns_record := false;
     ns_nb_max := 3;
     neutron := nucleon 0;
     proton := nucleon 0;
     n_chiral := nucleon 0;
     p_chiral := nucleon 0;
     th2 := thermo.mk 0 0 0;
     th_chiral := thermo.mk 0 0 0;
     sk := zero_skyrme;
     sk_chiral := zero_skyrme;
     verbose := 0%Z;
     ecv := eos_crust_virial_v2.mk (repeat 0 10) (repeat 0 6);
     a_virial := a_vir;
     b_virial := b_vir;
     qmc_alpha := 0.48;
     qmc_beta := 3.45;
     qmc_a := 12.7;
     qmc_b := 2.12;
     qmc_n0 := 0.16;
     phi := 0.5;
     eos_S := 0;
     eos_L := 0;
     eos_EoA := 0;
     eos_K := 0;
     eos_n0 := 0;
     chi2_ns := 0;
     i_ns := (-1)%Z;
     i_skyrme := (-1)%Z;
     acl := virial_solver.mk 0 0 0 0 0 0 0 0 0 0 0 0 0;
     nstar_tab := flat_table 3;
     UNEDF_tab := skyrme_table |}.

Definition st : eos := st_with 3.0 0.0.

(** A dilute gas: 1e-9 fm^-3 of each nucleon at T = 0.05 fm^-1. *)
Definition dilute_n : fermion.t := nucleon 1.0e-9.
Definition dilute_p : fermion.t := nucleon 1.0e-9.
Definition dilute_T : R := 0.05.
Definition dilute_lambda : R := sqrt (4.0 * PI / (4.76 + 4.76) / 0.05).
Definition zero_thermo : thermo.t := thermo.mk 0 0 0.

(** The same object with a model selected. *)
Definition st_selected : eos := set_model_selected true st.

(** The object with a model selected and the virial modulation switched
    off ([a_virial = b_virial = 0]). *)
Definition st_unmodulated : eos := set_model_selected true (st_with 0 0).

(** What the objects of the sample hold once [select_internal] has been
    called with [qmc_alpha = 0], [qmc_a = -1], [L = 0] and [S = 28]: a
    selected model with [qmc_b = 1] and [qmc_beta = 0], the zero fit of the
    neutron star table, and the masses of the fermions. *)
Definition model (st : eos) : Prop :=
  model_selected st = true /\ test_ns_cs2 st = false
  /\ select_cs2_test st = true
  /\ ns_fit_parms st = [0; 0; 0; 0; 0] /\ ns_nb_max st = 3
  /\ ecv st = eos_crust_virial_v2.mk (repeat 0 10) (repeat 0 6)
  /\ a_virial st = 3.0 /\ b_virial st = 0.0
  /\ qmc_alpha st = 0 /\ qmc_beta st = 0 /\ qmc_a st = -1 /\ qmc_b st = 1
  /\ qmc_n0 st = 0.16
  /\ sk st = zero_skyrme
  /\ fermion.m (electron st) = 0.0026
  /\ fermion.m (neutron st) = 4.76 /\ fermion.m (proton st) = 4.76.

(** The same for the objects handed around by reference. *)
Definition world_ok (w : world) : Prop :=
  model (w_eos w) /\ fermion.m (w_n w) = 4.76 /\ fermion.m (w_p w) = 4.76.

(** Densities and temperatures that cover the grid of the sound speed
    test. *)
Definition in_range (nn pn T : R) : Prop :=
  0.05 <= nn /\ 0 <= pn /\ nn + pn < 2.5 /\ 0 < T < 0.06.

(** The sample library with a fitter that returns the parameters [parms]
    and a zero chi squared. *)
Definition lib_fit (parms : list R) : o2scl :=
  {| hc_mev_fm := 197.33;
     calc_e := zero_calc_e;
     calc_temp_e := zero_calc_temp_e;
     eff_mass := bare_eff_mass;
     alt_params_saturation := fun _ _ => zero_skyrme;
     pair_density := zero_pair_density;
     massless_calc := fun _ _ => boson.mk 0 0 0;
     msolve2 := fun x _ => x;
     msolve1 := fun W x _ w => Ok (0%Z, x, w);
     deriv := fun W _ _ w => Ok (1000, w);
     gsl_sf_hyperg_2F1 := fun _ _ _ _ => 1;
     fit := fun _ _ _ _ _ => (parms, 0) |}.

(** A fit whose chemical potential decreases with the density. *)
Definition soft_parms : list R := [0; -1; 0; 0; 0].

(** An electron-photon object with muons. *)
Definition lepton_gas : eos_sn_oo1.t :=
  eos_sn_oo1.mk (boson.mk 0 0 0) electron0
    (fermion.mk 0 0.535 0 0.535 0 0 0) true.

End Sample.

(** * Properties *)

(** Decimal literals are quotients of integers. *)
Ltac decimals := cbv [Q2R QArith_base.Qnum QArith_base.Qden] in *.

Lemma pow_pos_base (x y : R) : 0 < x -> pow x y = Rpower x y.
Proof.
  intros Hx. unfold pow. destruct (Rlt_dec 0 x) as [_ | Hn]; [reflexivity | contradiction].
Qed.

Lemma Rpower_pos (x y : R) : 0 < Rpower x y.
Proof. unfold Rpower. apply exp_pos. Qed.

Lemma Rpower_two_minus (x a : R) :
  0 < x -> Rpower x (2.0 - a) = x * x * / Rpower x a.
Proof.
  intros Hx.
  replace (2.0 - a) with (1 + (1 + - a)) by lra.
  rewrite !Rpower_plus, Rpower_1, Rpower_Ropp by assumption. ring.
Qed.

Lemma Rpower_one_minus (x a : R) :
  0 < x -> Rpower x (1.0 - a) = x * / Rpower x a.
Proof.
  intros Hx.
  replace (1.0 - a) with (1 + - a) by lra.
  rewrite Rpower_plus, Rpower_1, Rpower_Ropp by assumption. ring.
Qed.

Lemma Rpower_minus_minus_one (x a : R) :
  0 < x -> Rpower x (- a - 1.0) = / Rpower x a * / x.
Proof.
  intros Hx.
  replace (- a - 1.0) with (- a + - (1)) by lra.
  rewrite Rpower_plus, !Rpower_Ropp, Rpower_1 by assumption. ring.
Qed.

Section NeutronStarExtension.

Variable lib : o2scl.

(** C1.  At [nb = ns_nb_max] every branch of the causal continuation
    (increasing, decreasing and constant sound speed) returns the energy
    density and the chemical potential of the polynomial fit,
    [ed_fit(ns_nb_max)] and [mu_fit(ns_nb_max)], whatever pair [(a1,a2)] the
    root solver returned, as long as the cutoff density is positive and the
    denominators of the closed forms of the branch taken do not vanish. *)
Theorem new_ns_eos_continuity (st : eos) (n : fermion.t) (e0 d0 : R) :
  let nmax := ns_nb_max st in
  let cs_ns_last := cs2_fit lib st nmax in
  let big := msolve2 lib (1.0, 1.0)
               (solve_coeff_big nmax (phi st) cs_ns_last) in
  let small := msolve2 lib (2.5, 1.0)
                 (solve_coeff_small nmax (phi st) cs_ns_last) in
  0 < nmax ->
  (phi st > cs_ns_last ->
   fst big <> 2 /\ snd big + pow nmax (- fst big) <> 0) ->
  (phi st < cs_ns_last ->
   snd small <> 0 /\ snd small * pow nmax (fst small) + 1 <> 0) ->
  (phi st = cs_ns_last -> 1 + cs_ns_last <> 0) ->
  new_ns_eos lib st nmax n e0 d0 = (ed_fit lib st nmax, mu_fit lib st nmax).
Proof.
  intros nmax cs_ns_last big small Hpos Hbig Hsmall Hconst.
  unfold new_ns_eos. fold nmax. fold cs_ns_last.
  destruct (Rlt_dec nmax (nmax - 1.0e-6)) as [Habs | _]; [lra |].
  set (E := ed_fit lib st nmax). set (M := mu_fit lib st nmax).
  set (m := fermion.m n).
  destruct (Rgt_dec (phi st) cs_ns_last) as [Hgt | Hngt].
  - (* increasing sound speed *)
    fold big. destruct (Hbig Hgt) as [Ha1 Hden].
    set (a1 := fst big) in *. set (a2 := snd big) in *.
    rewrite !pow_pos_base in * by assumption.
    rewrite Rpower_two_minus, Rpower_one_minus by assumption.
    rewrite Rpower_Ropp in *.
    pose proof (Rpower_pos nmax a1) as Hq.
    set (q := Rpower nmax a1) in *.
    assert (Hq1 : 1 + a2 * q <> 0).
    { intro H0. apply Hden. field_simplify_eq; [lra | lra]. }
    decimals; f_equal; field; repeat split; lra.
  - destruct (Rlt_dec (phi st) cs_ns_last) as [Hlt | Hnlt].
    + (* decreasing sound speed *)
      fold small. destruct (Hsmall Hlt) as [Ha2 Hden].
      set (a1 := fst small) in *. set (a2 := snd small) in *.
      rewrite !pow_pos_base in * by assumption.
      rewrite Rpower_minus_minus_one by assumption.
      rewrite Rpower_Ropp.
      pose proof (Rpower_pos nmax a1) as Hq.
      set (q := Rpower nmax a1) in *.
      set (H := gsl_sf_hyperg_2F1 lib _ _ _ _).
      decimals; f_equal; field; repeat split; lra.
    + (* constant sound speed *)
      assert (Heq : phi st = cs_ns_last) by lra.
      destruct (Req_dec_T (phi st) cs_ns_last) as [_ | Hne]; [| contradiction].
      specialize (Hconst Heq).
      replace (nmax / nmax) with 1 by (field; lra).
      rewrite !pow_pos_base by lra.
      unfold Rpower. rewrite ln_1, !Rmult_0_r, exp_0.
      decimals; f_equal; field; repeat split; lra.
Qed.

End NeutronStarExtension.

Lemma Ok_inj {A : Type} (a b : A) : Ok a = Ok b -> a = b.
Proof. intros H. injection H as H. exact H. Qed.

Section Combiner.

Variable lib : o2scl.
Variable vs : virial_methods.

Lemma free_energy_density_ok (st : eos) (n p : fermion.t) (T : R)
    (th : thermo.t) (f : R) (w : world) :
  free_energy_density lib vs st n p T th = Ok (f, w) ->
  model_selected st = true /\
  (f, w) = free_energy_density_body lib vs st n p T th.
Proof.
  unfold free_energy_density.
  destruct (model_selected st); cbv [negb]; intros H; [| discriminate].
  apply Ok_inj in H. split; [reflexivity | symmetry; exact H].
Qed.

(** C2.  Without a selected model [free_energy_density] raises the error
    [exc_einval] ("No model selected in free_energy_density().") and
    returns nothing; with a selected model it returns normally, so the
    error branch is not taken. *)
Theorem free_energy_density_requires_model (st : eos) (n p : fermion.t)
    (T : R) (th : thermo.t) :
  if model_selected st
  then exists f w, free_energy_density lib vs st n p T th = Ok (f, w)
  else free_energy_density lib vs st n p T th
       = Raise exc_einval "No model selected in free_energy_density().".
Proof.
  unfold free_energy_density.
  destruct (model_selected st); cbv [negb].
  - destruct (free_energy_density_body lib vs st n p T th) as [f w].
    exists f, w. reflexivity.
  - reflexivity.
Qed.

(** C4.  The outputs of [free_energy_density] satisfy the Euler relation
    [th.pr = -f_total + n_n*mu_n + n_p*mu_p] and [th.ed = f_total + T*th.en],
    with [f_total] the value returned, [mu_n], [mu_p] the chemical
    potentials left in the neutron and the proton and [n_n], [n_p] the
    densities given. *)
Theorem free_energy_density_euler (st : eos) (n p : fermion.t) (T : R)
    (th : thermo.t) (f_total : R) (w : world) :
  free_energy_density lib vs st n p T th = Ok (f_total, w) ->
  thermo.pr (w_th w)
  = - f_total + fermion.n n * fermion.mu (w_n w)
    + fermion.n p * fermion.mu (w_p w)
  /\ thermo.ed (w_th w) = f_total + T * thermo.en (w_th w).
Proof.
  intros H. apply free_energy_density_ok in H as [_ H].
  assert (Hf : f_total = fst (free_energy_density_body lib vs st n p T th))
    by (rewrite <- H; reflexivity).
  assert (Hw : w = snd (free_energy_density_body lib vs st n p T th))
    by (rewrite <- H; reflexivity).
  rewrite Hw, Hf. split; reflexivity.
Qed.

(** C10.  On return from [free_energy_density] the densities [n.n] and
    [p.n] have the values they had at entry. *)
Theorem free_energy_density_restores_densities (st : eos) (n p : fermion.t)
    (T : R) (th : thermo.t) (f_total : R) (w : world) :
  free_energy_density lib vs st n p T th = Ok (f_total, w) ->
  fermion.n (w_n w) = fermion.n n /\ fermion.n (w_p w) = fermion.n p.
Proof.
  intros H. apply free_energy_density_ok in H as [_ H].
  assert (Hw : w = snd (free_energy_density_body lib vs st n p T th))
    by (rewrite <- H; reflexivity).
  rewrite Hw. split; reflexivity.
Qed.

End Combiner.

Lemma Rgtb_true (x y : R) : x > y -> Rgtb x y = true.
Proof. intros H. unfold Rgtb. destruct (Rgt_dec x y); [reflexivity | contradiction]. Qed.

Lemma Rgtb_false (x y : R) : x <= y -> Rgtb x y = false.
Proof. intros H. unfold Rgtb. destruct (Rgt_dec x y); [lra | reflexivity]. Qed.

Lemma Rltb_true (x y : R) : x < y -> Rltb x y = true.
Proof. intros H. unfold Rltb. destruct (Rlt_dec x y); [reflexivity | contradiction]. Qed.

Lemma Rltb_false (x y : R) : y <= x -> Rltb x y = false.
Proof. intros H. unfold Rltb. destruct (Rlt_dec x y); [lra | reflexivity]. Qed.

Lemma pow_3 (x : R) : 0 < x -> pow x 3.0 = x * x * x.
Proof.
  intros Hx. rewrite pow_pos_base by assumption.
  replace 3.0 with (1 + (1 + 1)) by lra.
  rewrite !Rpower_plus, Rpower_1 by assumption. ring.
Qed.

Section VirialGas.

Variable lib : o2scl.
Variable vs : virial_methods.

(** The condition under which [free_energy_density_virial] calls the
    solver. *)
Lemma virial_dilute_test (nn pn l3 : R) :
  nn * l3 <= 1.0e-5 -> pn * l3 <= 1.0e-5 ->
  Rgtb (nn * l3) 1.0e-5 || Rgtb (pn * l3) 1.0e-5 = false.
Proof. intros H1 H2. rewrite !Rgtb_false by assumption. reflexivity. Qed.

Lemma virial_dense_test (nn pn l3 : R) :
  nn * l3 > 1.0e-5 \/ pn * l3 > 1.0e-5 ->
  Rgtb (nn * l3) 1.0e-5 || Rgtb (pn * l3) 1.0e-5 = true.
Proof.
  intros [H | H].
  - rewrite (Rgtb_true _ _ H). reflexivity.
  - rewrite (Rgtb_true _ _ H). apply orb_true_r.
Qed.

(** C7.  With both [n_n*lambda^3] and [n_p*lambda^3] below [1e-5] (and
    positive densities, temperature and masses, where the logarithm is a
    real number) the fugacities are [z = n*lambda^3/2], the chemical
    potentials are [T*ln(z)] and the pressure is [2T/lambda^3*(z_n+z_p)];
    when one of the products exceeds [1e-5] the chemical potentials are
    those of the fugacity solver, called on [(n_n, n_p, T, b_n, b_pn,
    lambda)], and the pressure has the second virial terms. *)
Theorem free_energy_density_virial_branches (st : eos) (n p : fermion.t)
    (T : R) (th : thermo.t) :
  let lambda := sqrt (4.0 * PI / (fermion.m n + fermion.m p) / T) in
  let nn := fermion.n n in
  let pn := fermion.n p in
  let v := free_energy_density_virial lib vs st n p T th in
  let mu_n := fermion.mu (v_n v) in
  let mu_p := fermion.mu (v_p v) in
  let zn := exp (mu_n / T) in
  let zp := exp (mu_p / T) in
  let b_n := eos_crust_virial_v2.bn_f (ecv st) (T * hc_mev_fm lib) in
  let b_pn := eos_crust_virial_v2.bpn_f (ecv st) (T * hc_mev_fm lib) in
  (nn * pow lambda 3 < 1.0e-5 -> pn * pow lambda 3 < 1.0e-5 ->
   0 < nn -> 0 < pn -> 0 < T -> 0 < fermion.m n + fermion.m p ->
   zn = nn * pow lambda 3 / 2 /\ zp = pn * pow lambda 3 / 2 /\
   mu_n = T * ln zn /\ mu_p = T * ln zp /\
   thermo.pr (v_th v) = 2 * T / pow lambda 3 * (zn + zp))
  /\
  (nn * pow lambda 3 > 1.0e-5 \/ pn * pow lambda 3 > 1.0e-5 ->
   (exists a : virial_solver.t,
      virial_solver.nn a = nn /\ virial_solver.pn a = pn /\
      virial_solver.T a = T /\ virial_solver.b_n a = b_n /\
      virial_solver.b_pn a = b_pn /\ virial_solver.lambda a = lambda /\
      (mu_n, mu_p) = solve_fugacity vs a) /\
   thermo.pr (v_th v)
   = 2 * T / pow lambda 3
     * (zn + zp + (zn * zn + zp * zp) * b_n + 2 * zp * zn * b_pn)).
Proof.
  intros lambda nn pn v mu_n mu_p zn zp b_n b_pn.
  replace 3 with 3.0 by lra.
  split.
  - intros Hn Hp Hnn Hpn HT Hm.
    assert (Hd := virial_dilute_test nn pn (pow lambda 3.0)
                    (Rlt_le _ _ Hn) (Rlt_le _ _ Hp)).
    assert (Hl : 0 < lambda).
    { apply sqrt_lt_R0. decimals.
      apply Rdiv_lt_0_compat; [| assumption].
      apply Rdiv_lt_0_compat; [| assumption].
      pose proof PI_RGT_0. lra. }
    assert (Hl3 : 0 < pow lambda 3.0).
    { rewrite pow_3 by assumption.
      repeat apply Rmult_lt_0_compat; assumption. }
    assert (Emu_n : mu_n = log (nn * pow lambda 3.0 / 2.0) * T).
    { unfold mu_n, v, free_energy_density_virial. cbv zeta.
      fold nn pn lambda. rewrite Hd. reflexivity. }
    assert (Emu_p : mu_p = log (pn * pow lambda 3.0 / 2.0) * T).
    { unfold mu_p, v, free_energy_density_virial. cbv zeta.
      fold nn pn lambda. rewrite Hd. reflexivity. }
    assert (Ezn : zn = nn * pow lambda 3.0 / 2).
    { unfold zn. rewrite Emu_n. unfold log.
      replace (ln (nn * pow lambda 3.0 / 2.0) * T / T)
        with (ln (nn * pow lambda 3.0 / 2.0)) by (field; lra).
      rewrite exp_ln; [lra |]. apply Rdiv_lt_0_compat; [| lra].
      apply Rmult_lt_0_compat; assumption. }
    assert (Ezp : zp = pn * pow lambda 3.0 / 2).
    { unfold zp. rewrite Emu_p. unfold log.
      replace (ln (pn * pow lambda 3.0 / 2.0) * T / T)
        with (ln (pn * pow lambda 3.0 / 2.0)) by (field; lra).
      rewrite exp_ln; [lra |]. apply Rdiv_lt_0_compat; [| lra].
      apply Rmult_lt_0_compat; assumption. }
    repeat split.
    + exact Ezn.
    + exact Ezp.
    + rewrite Ezn, Emu_n. unfold log.
      replace (nn * pow lambda 3.0 / 2.0) with (nn * pow lambda 3.0 / 2) by lra.
      ring.
    + rewrite Ezp, Emu_p. unfold log.
      replace (pn * pow lambda 3.0 / 2.0) with (pn * pow lambda 3.0 / 2) by lra.
      ring.
    + unfold zn, zp, mu_n, mu_p, v, free_energy_density_virial. cbv zeta.
      fold nn pn lambda. rewrite Hd.
      cbn [v_th v_n v_p thermo.pr fermion.mu fermion.set_mu].
      replace 2.0 with 2 by lra. reflexivity.
  - intros Hdense.
    assert (Hd := virial_dense_test nn pn (pow lambda 3.0) Hdense).
    split.
    + eexists (virial_solver.mk nn pn T b_n b_pn lambda _ _ _ _ _ _ _).
      cbn [virial_solver.nn virial_solver.pn virial_solver.T
           virial_solver.b_n virial_solver.b_pn virial_solver.lambda].
      repeat split.
      unfold mu_n, mu_p, v, free_energy_density_virial. cbv zeta.
      fold nn pn lambda b_n b_pn. rewrite Hd.
      cbn [v_n v_p fermion.mu fermion.set_mu].
      symmetry. apply surjective_pairing.
    + unfold zn, zp, mu_n, mu_p, v, free_energy_density_virial. cbv zeta.
      fold nn pn lambda b_n b_pn. rewrite Hd.
      cbn [v_th v_n v_p thermo.pr fermion.mu fermion.set_mu].
      replace 2.0 with 2 by lra. reflexivity.
Qed.

End VirialGas.

Section VirialDerivatives.

Variable lib : o2scl.
Variable vs : virial_methods.

(** The derivative [dmu_n/dn_n] of the dilute branch. *)
Lemma virial_dilute_dmundnn (st : eos) (n p : fermion.t) (T : R)
    (th : thermo.t) :
  let lambda := sqrt (4.0 * PI / (fermion.m n + fermion.m p) / T) in
  let v := free_energy_density_virial lib vs st n p T th in
  fermion.n n * pow lambda 3 <= 1.0e-5 ->
  fermion.n p * pow lambda 3 <= 1.0e-5 ->
  v_dmundnn v = T * pow lambda 3 / 2 / exp (fermion.mu (v_n v) / T).
Proof.
  intros lambda v. replace 3 with 3.0 by lra. intros Hn Hp.
  assert (Hd := virial_dilute_test _ _ _ Hn Hp).
  unfold v, free_energy_density_virial. cbv zeta.
  fold lambda. rewrite Hd.
  cbn [v_dmundnn v_n fermion.mu fermion.set_mu].
  replace 2.0 with 2 by lra. reflexivity.
Qed.

(** C3 (as amended).  In the dilute limit (both [n_n*lambda^3] and
    [n_p*lambda^3] at most [1e-5]) the density derivatives of the chemical
    potentials are [dmu_n/dn_n = T*lambda^3/2/z_n] and
    [dmu_p/dn_p = T*lambda^3/2/z_p], and both cross derivatives are zero. *)
Theorem free_energy_density_virial_dilute_derivatives (st : eos)
    (n p : fermion.t) (T : R) (th : thermo.t) :
  let lambda := sqrt (4.0 * PI / (fermion.m n + fermion.m p) / T) in
  let v := free_energy_density_virial lib vs st n p T th in
  let zn := exp (fermion.mu (v_n v) / T) in
  let zp := exp (fermion.mu (v_p v) / T) in
  fermion.n n * pow lambda 3 <= 1.0e-5 ->
  fermion.n p * pow lambda 3 <= 1.0e-5 ->
  v_dmundnn v = T * pow lambda 3 / 2 / zn /\
  v_dmupdpn v = T * pow lambda 3 / 2 / zp /\
  v_dmupdnn v = 0 /\ v_dmundpn v = 0.
Proof.
  intros lambda v zn zp. replace 3 with 3.0 by lra. intros Hn Hp.
  assert (Hd := virial_dilute_test _ _ _ Hn Hp).
  unfold zn, zp, v, free_energy_density_virial. cbv zeta.
  fold lambda. rewrite Hd.
  cbn [v_dmundnn v_dmupdpn v_dmupdnn v_dmundpn v_n v_p fermion.mu
       fermion.set_mu].
  replace 2.0 with 2 by lra. repeat split; reflexivity.
Qed.

End VirialDerivatives.

(** ** Examples on the sample environment *)

Lemma dilute_lambda_bounds : 5 < Sample.dilute_lambda < 6.
Proof.
  unfold Sample.dilute_lambda.
  set (x := 4.0 * PI / (4.76 + 4.76) / 0.05).
  assert (Hx : 25 < x < 36).
  { unfold x. pose proof PI2_3_2. pose proof PI_4. decimals.
    split.
    - apply Rmult_lt_reg_r with (r := (476 * / 100 + 476 * / 100) * (5 * / 100)); [lra |].
      field_simplify; lra.
    - apply Rmult_lt_reg_r with (r := (476 * / 100 + 476 * / 100) * (5 * / 100)); [lra |].
      field_simplify; lra. }
  split.
  - replace 5 with (sqrt (5 * 5)) by (apply sqrt_square; lra).
    apply sqrt_lt_1; lra.
  - replace 6 with (sqrt (6 * 6)) by (apply sqrt_square; lra).
    apply sqrt_lt_1; lra.
Qed.

Lemma dilute_lambda_cube : 125 < pow Sample.dilute_lambda 3 < 216.
Proof.
  pose proof dilute_lambda_bounds as [H5 H6].
  replace 3 with 3.0 by lra. rewrite pow_3 by lra.
  split; nra.
Qed.

Lemma dilute_sample_is_dilute :
  fermion.n Sample.dilute_n * pow Sample.dilute_lambda 3 < 1.0e-5 /\
  fermion.n Sample.dilute_p * pow Sample.dilute_lambda 3 < 1.0e-5.
Proof.
  pose proof dilute_lambda_cube as [_ H].
  cbn [Sample.dilute_n Sample.dilute_p Sample.nucleon fermion.n].
  split; lra.
Qed.

(** C3, the claim as stated fails: on the dilute sample the derivative
    [dmu_n/dn_n] that the code returns is not [T/(2 z_n)]. *)
Lemma dilute_dmundnn_is_not_T_over_2zn :
  fermion.n Sample.dilute_n * pow Sample.dilute_lambda 3 <= 1.0e-5 /\
  fermion.n Sample.dilute_p * pow Sample.dilute_lambda 3 <= 1.0e-5 /\
  v_dmundnn
    (free_energy_density_virial Sample.lib Sample.vs Sample.st
       Sample.dilute_n Sample.dilute_p Sample.dilute_T Sample.zero_thermo)
  <> Sample.dilute_T
     / (2 * exp (fermion.mu
                   (v_n (free_energy_density_virial Sample.lib Sample.vs
                           Sample.st Sample.dilute_n Sample.dilute_p
                           Sample.dilute_T Sample.zero_thermo))
                 / Sample.dilute_T)).
Proof.
  pose proof dilute_sample_is_dilute as [Hn Hp].
  pose proof dilute_lambda_cube as [Hc _].
  split; [lra |]. split; [lra |].
  assert (E := virial_dilute_dmundnn Sample.lib Sample.vs Sample.st
                 Sample.dilute_n Sample.dilute_p Sample.dilute_T
                 Sample.zero_thermo (Rlt_le _ _ Hn) (Rlt_le _ _ Hp)).
  cbv zeta in E.
  { rewrite E. clear E.
    set (zn := exp _). assert (Hz : 0 < zn) by apply exp_pos.
    change (sqrt (4.0 * PI / (fermion.m Sample.dilute_n
                              + fermion.m Sample.dilute_p)
                  / Sample.dilute_T))
      with Sample.dilute_lambda.
    set (l3 := pow Sample.dilute_lambda 3) in *.
    unfold Sample.dilute_T. intros Heq.
    assert (H1 : 0.05 * l3 / 2 / zn * (2 * zn) = 0.05 / (2 * zn) * (2 * zn))
      by (rewrite Heq; reflexivity).
    decimals. field_simplify in H1; lra. }
Qed.

Lemma free_energy_density_virial_dilute_derivatives_witness :
  (fermion.n Sample.dilute_n * pow Sample.dilute_lambda 3 <= 1.0e-5 /\
   fermion.n Sample.dilute_p * pow Sample.dilute_lambda 3 <= 1.0e-5) /\
  v_dmupdnn
    (free_energy_density_virial Sample.lib Sample.vs Sample.st
       Sample.dilute_n Sample.dilute_p Sample.dilute_T Sample.zero_thermo)
  = 0.
Proof.
  pose proof dilute_sample_is_dilute as [Hn Hp].
  split; [split; lra |].
  apply (free_energy_density_virial_dilute_derivatives Sample.lib Sample.vs
           Sample.st Sample.dilute_n Sample.dilute_p Sample.dilute_T
           Sample.zero_thermo);
    apply Rlt_le; assumption.
Defined.

Lemma free_energy_density_virial_branches_witness :
  (fermion.n Sample.dilute_n * pow Sample.dilute_lambda 3 < 1.0e-5 /\
   fermion.n Sample.dilute_p * pow Sample.dilute_lambda 3 < 1.0e-5) /\
  thermo.pr
    (v_th (free_energy_density_virial Sample.lib Sample.vs Sample.st
             Sample.dilute_n Sample.dilute_p Sample.dilute_T
             Sample.zero_thermo))
  = 2 * Sample.dilute_T / pow Sample.dilute_lambda 3
    * (fermion.n Sample.dilute_n * pow Sample.dilute_lambda 3 / 2
       + fermion.n Sample.dilute_p * pow Sample.dilute_lambda 3 / 2).
Proof.
  pose proof dilute_sample_is_dilute as [Hn Hp].
  split; [split; assumption |].
  destruct (free_energy_density_virial_branches Sample.lib Sample.vs
              Sample.st Sample.dilute_n Sample.dilute_p Sample.dilute_T
              Sample.zero_thermo) as [Hdilute _].
  destruct Hdilute as (Ezn & Ezp & _ & _ & Epr).
  - exact Hn.
  - exact Hp.
  - cbn [Sample.dilute_n Sample.nucleon fermion.n]. lra.
  - cbn [Sample.dilute_p Sample.nucleon fermion.n]. lra.
  - unfold Sample.dilute_T. lra.
  - cbn [Sample.dilute_n Sample.dilute_p Sample.nucleon fermion.m]. lra.
  - rewrite Epr, Ezn, Ezp. reflexivity.
Defined.

Lemma sample_cs2_fit (lib : o2scl) (a b : R) (nb : R) :
  cs2_fit lib (Sample.st_with a b) nb = 0.
Proof.
  unfold cs2_fit, dmudn_fit, mu_fit.
  cbn [Sample.st_with ns_fit_parms old_ns_fit idx nth].
  unfold Rdiv. ring.
Qed.

Lemma sample_st_cs2_fit (lib : o2scl) (nb : R) : cs2_fit lib Sample.st nb = 0.
Proof. exact (sample_cs2_fit lib 3.0 0.0 nb). Qed.

Lemma new_ns_eos_continuity_witness :
  0 < ns_nb_max Sample.st /\
  new_ns_eos Sample.lib Sample.st (ns_nb_max Sample.st) (Sample.nucleon 0) 0 0
  = (ed_fit Sample.lib Sample.st (ns_nb_max Sample.st),
     mu_fit Sample.lib Sample.st (ns_nb_max Sample.st)).
Proof.
  assert (Hpos : 0 < ns_nb_max Sample.st) by (change (0 < 3); lra).
  assert (Hphi : phi Sample.st = 0.5) by reflexivity.
  split; [exact Hpos |].
  apply (new_ns_eos_continuity Sample.lib Sample.st (Sample.nucleon 0) 0 0).
  - exact Hpos.
  - intros _. cbn [Sample.lib Sample.lib_with msolve2 fst snd]. split; [lra |].
    rewrite pow_pos_base by exact Hpos.
    pose proof (Rpower_pos (ns_nb_max Sample.st) (Ropp 1.0)). lra.
  - rewrite sample_st_cs2_fit, Hphi. lra.
  - rewrite sample_st_cs2_fit, Hphi. lra.
Defined.

Lemma sample_selected : model_selected Sample.st_selected = true.
Proof. reflexivity. Qed.

Lemma sample_free_energy_density (n p : fermion.t) (T : R) (th : thermo.t) :
  free_energy_density Sample.lib Sample.vs Sample.st_selected n p T th
  = Ok (free_energy_density_body Sample.lib Sample.vs Sample.st_selected
          n p T th).
Proof. reflexivity. Qed.

Lemma free_energy_density_euler_witness :
  thermo.ed
    (w_th (snd (free_energy_density_body Sample.lib Sample.vs
                  Sample.st_selected (Sample.nucleon 0.15)
                  (Sample.nucleon 0.01) 0.05 Sample.zero_thermo)))
  = fst (free_energy_density_body Sample.lib Sample.vs Sample.st_selected
           (Sample.nucleon 0.15) (Sample.nucleon 0.01) 0.05
           Sample.zero_thermo)
    + 0.05
      * thermo.en
          (w_th (snd (free_energy_density_body Sample.lib Sample.vs
                        Sample.st_selected (Sample.nucleon 0.15)
                        (Sample.nucleon 0.01) 0.05 Sample.zero_thermo))).
Proof.
  apply (free_energy_density_euler Sample.lib Sample.vs Sample.st_selected
           (Sample.nucleon 0.15) (Sample.nucleon 0.01) 0.05
           Sample.zero_thermo).
  rewrite sample_free_energy_density. apply f_equal. apply surjective_pairing.
Defined.

Lemma free_energy_density_restores_densities_witness :
  fermion.n
    (w_n (snd (free_energy_density_body Sample.lib Sample.vs
                 Sample.st_selected (Sample.nucleon 0.15)
                 (Sample.nucleon 0.01) 0.05 Sample.zero_thermo)))
  = 0.15.
Proof.
  apply (free_energy_density_restores_densities Sample.lib Sample.vs
           Sample.st_selected (Sample.nucleon 0.15) (Sample.nucleon 0.01)
           0.05 Sample.zero_thermo
           (fst (free_energy_density_body Sample.lib Sample.vs
                   Sample.st_selected (Sample.nucleon 0.15)
                   (Sample.nucleon 0.01) 0.05 Sample.zero_thermo))).
  rewrite sample_free_energy_density. apply f_equal. apply surjective_pairing.
Defined.

(** ** The weight of the virial regime *)

Lemma weight_range (a b zn zp : R) :
  0 <= a -> 0 <= b -> 0 < zn -> 0 < zp ->
  0 < 1 / (a * zn * zn + a * zp * zp + b * zn * zp + 1) <= 1.
Proof.
  intros Ha Hb Hzn Hzp.
  assert (H1 : 0 <= a * zn * zn)
    by (rewrite Rmult_assoc; apply Rmult_le_pos; nra).
  assert (H2 : 0 <= a * zp * zp)
    by (rewrite Rmult_assoc; apply Rmult_le_pos; nra).
  assert (H3 : 0 <= b * zn * zp)
    by (rewrite Rmult_assoc; apply Rmult_le_pos; nra).
  assert (HD : 1 <= a * zn * zn + a * zp * zp + b * zn * zp + 1) by lra.
  set (D := a * zn * zn + a * zp * zp + b * zn * zp + 1) in *.
  assert (Hi : 0 < / D) by (apply Rinv_0_lt_compat; lra).
  assert (Hid : D * / D = 1) by (apply Rinv_r; lra).
  unfold Rdiv. rewrite Rmult_1_l. split; [exact Hi | nra].
Qed.

Lemma weight_dilute (a b eps : R) :
  0 <= a -> 0 <= b -> 0 < eps ->
  exists delta, 0 < delta /\
    forall zn zp, 0 < zn < delta -> 0 < zp < delta ->
      Rabs (1 / (a * zn * zn + a * zp * zp + b * zn * zp + 1) - 1) < eps.
Proof.
  intros Ha Hb Heps.
  pose (c := 2 * a + b + 1).
  assert (Hc : 0 < c) by (unfold c; lra).
  exists (Rmin 1 (eps / c)). split.
  - apply Rmin_glb_lt; [lra | apply Rdiv_lt_0_compat; lra].
  - intros zn zp [Hzn Hzn'] [Hzp Hzp'].
    assert (H1 : zn < 1) by (eapply Rlt_le_trans; [exact Hzn' | apply Rmin_l]).
    assert (H2 : zp < 1) by (eapply Rlt_le_trans; [exact Hzp' | apply Rmin_l]).
    assert (H3 : zn < eps / c) by (eapply Rlt_le_trans; [exact Hzn' | apply Rmin_r]).
    assert (H4 : zp < eps / c) by (eapply Rlt_le_trans; [exact Hzp' | apply Rmin_r]).
    assert (H5 : c * zn < eps).
    { apply Rmult_lt_compat_l with (r := c) in H3; [| lra].
      replace (c * (eps / c)) with eps in H3 by (field; lra). exact H3. }
    assert (H6 : c * zp < eps).
    { apply Rmult_lt_compat_l with (r := c) in H4; [| lra].
      replace (c * (eps / c)) with eps in H4 by (field; lra). exact H4. }
    destruct (weight_range a b zn zp Ha Hb Hzn Hzp) as [Hg0 Hg1].
    assert (P1 : 0 <= a * zn * zn)
      by (rewrite Rmult_assoc; apply Rmult_le_pos; nra).
    assert (P2 : 0 <= a * zp * zp)
      by (rewrite Rmult_assoc; apply Rmult_le_pos; nra).
    assert (P3 : 0 <= b * zn * zp)
      by (rewrite Rmult_assoc; apply Rmult_le_pos; nra).
    set (D := a * zn * zn + a * zp * zp + b * zn * zp + 1) in *.
    assert (HD : 1 <= D) by (unfold D; lra).
    assert (Hsmall : D - 1 < eps).
    { unfold D, c in *.
      assert (a * zn * zn <= a * zn).
      { rewrite Rmult_assoc. apply Rmult_le_compat_l; nra. }
      assert (a * zp * zp <= a * zp).
      { rewrite Rmult_assoc. apply Rmult_le_compat_l; nra. }
      assert (b * zn * zp <= b * zn).
      { rewrite Rmult_assoc. apply Rmult_le_compat_l; nra. }
      assert (b * zn * zp <= b * zp).
      { rewrite Rmult_assoc. apply Rmult_le_compat_l; nra. }
      lra. }
    rewrite Rabs_left1 by lra.
    assert (Hinv : 1 - 1 / D <= D - 1).
    { replace (1 - 1 / D) with ((D - 1) * (1 / D)) by (field; lra). nra. }
    lra.
Qed.

Lemma weight_dense (a b eps : R) :
  0 <= a -> 0 <= b -> 0 < a + b -> 0 < eps ->
  exists M, forall zn zp, M < zn -> M < zp ->
    1 / (a * zn * zn + a * zp * zp + b * zn * zp + 1) < eps.
Proof.
  intros Ha Hb Hab Heps.
  exists (Rmax 1 (1 / ((a + b) * eps))).
  intros zn zp Hzn Hzp.
  assert (H1 : 1 < zn) by (eapply Rle_lt_trans; [apply Rmax_l | exact Hzn]).
  assert (H2 : 1 < zp) by (eapply Rle_lt_trans; [apply Rmax_l | exact Hzp]).
  assert (H3 : 1 / ((a + b) * eps) < zn)
    by (eapply Rle_lt_trans; [apply Rmax_r | exact Hzn]).
  assert (Hp : 0 < (a + b) * eps) by (apply Rmult_lt_0_compat; lra).
  assert (H4 : 1 < (a + b) * eps * zn).
  { apply Rmult_lt_compat_l with (r := (a + b) * eps) in H3; [| lra].
    replace ((a + b) * eps * (1 / ((a + b) * eps))) with 1 in H3
      by (field; lra).
    exact H3. }
  set (D := a * zn * zn + a * zp * zp + b * zn * zp + 1).
  assert (HD : (a + b) * zn < D).
  { unfold D.
    assert (a * zn <= a * zn * zn).
    { rewrite Rmult_assoc. apply Rmult_le_compat_l; nra. }
    assert (0 <= a * zp * zp).
    { rewrite Rmult_assoc. apply Rmult_le_pos; nra. }
    assert (b * zn <= b * zn * zp).
    { rewrite Rmult_assoc. apply Rmult_le_compat_l; nra. }
    lra. }
  assert (HD0 : 0 < D) by nra.
  assert (Hi : 0 < / D) by (apply Rinv_0_lt_compat; lra).
  assert (Hid : D * / D = 1) by (apply Rinv_r; lra).
  unfold Rdiv. rewrite Rmult_1_l.
  apply Rmult_lt_reg_r with (r := D); [exact HD0 |].
  rewrite Rinv_l by lra. nra.
Qed.

Section VirialWeight.

Variable lib : o2scl.
Variable vs : virial_methods.

Lemma g_virial_formula (st : eos) (n p : fermion.t) (T : R) (th : thermo.t)
    (f : R) (w : world) :
  free_energy_density lib vs st n p T th = Ok (f, w) ->
  g_virial (w_eos w)
  = 1 / (a_virial st * fed_zn lib vs st n p T th * fed_zn lib vs st n p T th
         + a_virial st * fed_zp lib vs st n p T th * fed_zp lib vs st n p T th
         + b_virial st * fed_zn lib vs st n p T th * fed_zp lib vs st n p T th + 1).
Proof.
  intros H. apply free_energy_density_ok in H as [_ H].
  assert (Hw : w = snd (free_energy_density_body lib vs st n p T th))
    by (rewrite <- H; reflexivity).
  rewrite Hw.
  change (g_virial (w_eos (snd (free_energy_density_body lib vs st n p T th))))
    with (1.0 / (a_virial st * fed_zn lib vs st n p T th * fed_zn lib vs st n p T th
                 + a_virial st * fed_zp lib vs st n p T th * fed_zp lib vs st n p T th
                 + b_virial st * fed_zn lib vs st n p T th * fed_zp lib vs st n p T th
                 + 1.0)).
  replace 1.0 with 1 by lra. reflexivity.
Qed.

(** C8 (as amended).  The weight that [free_energy_density] leaves in
    [g_virial] is [1/(a*z_n^2 + a*z_p^2 + b*z_n*z_p + 1)] with
    [z = exp(mu_vir/T)], [a = a_virial], [b = b_virial].  For nonnegative
    [a], [b] it lies in (0,1] and tends to 1 as both fugacities tend to 0;
    when moreover [a] or [b] is positive it tends to 0 as both fugacities
    grow. *)
Theorem g_virial_weight :
  (forall st n p T th f w,
     free_energy_density lib vs st n p T th = Ok (f, w) ->
     g_virial (w_eos w)
     = 1 / (a_virial st * fed_zn lib vs st n p T th * fed_zn lib vs st n p T th
            + a_virial st * fed_zp lib vs st n p T th * fed_zp lib vs st n p T th
            + b_virial st * fed_zn lib vs st n p T th * fed_zp lib vs st n p T th + 1)
     /\ (0 <= a_virial st -> 0 <= b_virial st ->
         0 < g_virial (w_eos w) <= 1))
  /\ (forall a b eps, 0 <= a -> 0 <= b -> 0 < eps ->
      exists delta, 0 < delta /\
        forall st n p T th f w,
          a_virial st = a -> b_virial st = b ->
          free_energy_density lib vs st n p T th = Ok (f, w) ->
          fed_zn lib vs st n p T th < delta -> fed_zp lib vs st n p T th < delta ->
          Rabs (g_virial (w_eos w) - 1) < eps)
  /\ (forall a b eps, 0 <= a -> 0 <= b -> 0 < a + b -> 0 < eps ->
      exists M,
        forall st n p T th f w,
          a_virial st = a -> b_virial st = b ->
          free_energy_density lib vs st n p T th = Ok (f, w) ->
          M < fed_zn lib vs st n p T th -> M < fed_zp lib vs st n p T th ->
          g_virial (w_eos w) < eps).
Proof.
  split; [| split].
  - intros st n p T th f w H.
    rewrite (g_virial_formula st n p T th f w H).
    split; [reflexivity |].
    intros Ha Hb. apply weight_range; try assumption; apply exp_pos.
  - intros a b eps Ha Hb Heps.
    destruct (weight_dilute a b eps Ha Hb Heps) as (delta & Hdelta & Hlim).
    exists delta. split; [exact Hdelta |].
    intros st n p T th f w Ea Eb H Hzn Hzp.
    rewrite (g_virial_formula st n p T th f w H), Ea, Eb.
    apply Hlim; (split; [apply exp_pos | assumption]).
  - intros a b eps Ha Hb Hab Heps.
    destruct (weight_dense a b eps Ha Hb Hab Heps) as (M & Hlim).
    exists M.
    intros st n p T th f w Ea Eb H Hzn Hzp.
    rewrite (g_virial_formula st n p T th f w H), Ea, Eb.
    apply Hlim; assumption.
Qed.

End VirialWeight.

(** A gas that is not dilute: one neutron and one proton per fm^3 at
    T = 1 fm^-1. *)
Lemma sample_dense_lambda :
  1 < sqrt (4.0 * PI / (4.76 + 4.76) / 1).
Proof.
  replace 1 with (sqrt (1 * 1)) at 1 by (apply sqrt_square; lra).
  apply sqrt_lt_1; [lra | |].
  - pose proof PI_RGT_0. decimals.
    apply Rmult_le_pos; [| lra]. apply Rmult_le_pos; lra.
  - pose proof PI2_3_2. decimals.
    apply Rmult_lt_reg_r with (r := (476 * / 100 + 476 * / 100) * 1); [lra |].
    field_simplify; lra.
Qed.

Lemma sample_dense_fugacity (lib : o2scl) (c : R) (st : eos) (th : thermo.t) :
  fed_zn lib (Sample.vs_with c) st (Sample.nucleon 1) (Sample.nucleon 1) 1 th
  = exp c /\
  fed_zp lib (Sample.vs_with c) st (Sample.nucleon 1) (Sample.nucleon 1) 1 th
  = exp c.
Proof.
  pose proof sample_dense_lambda as Hl.
  assert (Hd : Rgtb (1 * pow (sqrt (4.0 * PI / (4.76 + 4.76) / 1)) 3.0) 1.0e-5
               || Rgtb (1 * pow (sqrt (4.0 * PI / (4.76 + 4.76) / 1)) 3.0)
                    1.0e-5 = true).
  { apply virial_dense_test. left.
    rewrite pow_3 by lra.
    set (l := sqrt _) in *. nra. }
  unfold fed_zn, fed_zp, free_energy_density_virial. cbv zeta.
  cbn [Sample.nucleon fermion.n fermion.m].
  rewrite Hd.
  cbn [v_n v_p fermion.mu fermion.set_mu Sample.vs_with solve_fugacity
       fst snd].
  replace (c / 1) with c by (field; lra). split; reflexivity.
Qed.

(** C8, the claim as stated fails: with [a_virial = b_virial = 0], which
    are nonnegative, the weight is one at all fugacities and does not tend
    to zero as they grow. *)
Lemma g_virial_does_not_vanish_without_modulation :
  ~ (forall a b eps : R, 0 <= a -> 0 <= b -> 0 < eps ->
       exists M : R,
         forall (lib : o2scl) (vs : virial_methods) (st : eos)
                (n p : fermion.t) (T : R) (th : thermo.t) (f : R) (w : world),
           a_virial st = a -> b_virial st = b ->
           free_energy_density lib vs st n p T th = Ok (f, w) ->
           M < fed_zn lib vs st n p T th -> M < fed_zp lib vs st n p T th ->
           g_virial (w_eos w) < eps).
Proof.
  intros H.
  destruct (H 0 0 (1 / 2)) as [M HM]; try lra.
  pose (c := Rabs M + 1).
  assert (Hc : M < exp c).
  { pose proof (Rabs_pos M). pose proof (Rle_abs M).
    pose proof (exp_ineq1 c). unfold c in *. lra. }
  pose (r := free_energy_density_body Sample.lib (Sample.vs_with c)
               Sample.st_unmodulated (Sample.nucleon 1) (Sample.nucleon 1)
               1 Sample.zero_thermo).
  assert (Hrun : free_energy_density Sample.lib (Sample.vs_with c)
                   Sample.st_unmodulated (Sample.nucleon 1)
                   (Sample.nucleon 1) 1 Sample.zero_thermo
                 = Ok (fst r, snd r)).
  { rewrite <- surjective_pairing. reflexivity. }
  destruct (sample_dense_fugacity Sample.lib c Sample.st_unmodulated
              Sample.zero_thermo) as [Ezn Ezp].
  assert (Hg := HM Sample.lib (Sample.vs_with c) Sample.st_unmodulated
                  (Sample.nucleon 1) (Sample.nucleon 1) 1 Sample.zero_thermo
                  (fst r) (snd r) eq_refl eq_refl Hrun).
  rewrite Ezn, Ezp in Hg. specialize (Hg Hc Hc).
  rewrite (g_virial_formula _ _ _ _ _ _ _ _ _ Hrun) in Hg.
  change (a_virial Sample.st_unmodulated) with 0 in Hg.
  change (b_virial Sample.st_unmodulated) with 0 in Hg.
  rewrite !Rmult_0_l, !Rplus_0_l in Hg.
  lra.
Qed.

Lemma g_virial_weight_witness :
  0 < g_virial
        (w_eos (snd (free_energy_density_body Sample.lib Sample.vs
                       Sample.st_selected (Sample.nucleon 1)
                       (Sample.nucleon 1) 1 Sample.zero_thermo)))
    <= 1.
Proof.
  destruct (g_virial_weight Sample.lib Sample.vs) as [Hrun _].
  destruct (Hrun Sample.st_selected (Sample.nucleon 1) (Sample.nucleon 1) 1
              Sample.zero_thermo
              (fst (free_energy_density_body Sample.lib Sample.vs
                      Sample.st_selected (Sample.nucleon 1)
                      (Sample.nucleon 1) 1 Sample.zero_thermo))
              (snd (free_energy_density_body Sample.lib Sample.vs
                      Sample.st_selected (Sample.nucleon 1)
                      (Sample.nucleon 1) 1 Sample.zero_thermo)))
    as [_ Hrange].
  - rewrite <- surjective_pairing. reflexivity.
  - apply Hrange.
    + change (0 <= 3.0). lra.
    + change (0 <= 0.0). lra.
Defined.

(** ** Loops: the fuel is enough *)

Lemma trips_enough (x bound step : R) :
  (bound - x) / step <= INR (trips x bound step).
Proof.
  unfold trips. set (r := (bound - x) / step).
  destruct (archimed r) as [Hup _].
  destruct (Z_lt_le_dec (up r) 0) as [Hneg | Hpos].
  - replace (Z.to_nat (up r)) with 0%nat by lia. simpl.
    apply IZR_lt in Hneg. lra.
  - rewrite INR_IZR_INZ, Z2Nat.id by lia. lra.
Qed.

Lemma trips_step (x bound step : R) (k : nat) :
  0 < step -> (bound - x) / step <= INR (S k) ->
  (bound - (x + step)) / step <= INR k.
Proof.
  intros Hs H. rewrite S_INR in H.
  replace ((bound - (x + step)) / step) with ((bound - x) / step - 1)
    by (field; lra).
  lra.
Qed.

Lemma trips_done (x bound step : R) :
  0 < step -> (bound - x) / step <= INR 0 -> ~ x < bound.
Proof.
  intros Hs H Hlt. simpl in H.
  assert (0 < (bound - x) / step) by (apply Rdiv_lt_0_compat; lra). lra.
Qed.

Lemma for_do_fuel_stable {S : Type} (bound step : R) (body : R -> S -> S) :
  0 < step ->
  forall (k : nat) (x : R) (s : S),
    (bound - x) / step <= INR k ->
    forall k' : nat, (k <= k')%nat ->
      for_do_fuel k' x bound step body s = for_do_fuel k x bound step body s.
Proof.
  intros Hs. induction k as [| k IH]; intros x s Hk k' Hle.
  - pose proof (trips_done x bound step Hs Hk) as Hn.
    destruct k' as [| k']; [reflexivity |]. simpl.
    destruct (Rlt_dec x bound); [contradiction | reflexivity].
  - destruct k' as [| k']; [lia |]. simpl.
    destruct (Rlt_dec x bound); [| reflexivity].
    apply IH; [apply trips_step; assumption | lia].
Qed.

Lemma for_do_unroll {S : Type} (x bound step : R) (body : R -> S -> S)
    (s : S) :
  0 < step ->
  for_do x bound step body s
  = if Rlt_dec x bound
    then for_do (x + step) bound step body (body x s)
    else (x, s).
Proof.
  intros Hs. unfold for_do.
  pose proof (trips_enough x bound step) as Hk.
  destruct (trips x bound step) as [| k] eqn:Ek.
  - pose proof (trips_done x bound step Hs Hk).
    destruct (Rlt_dec x bound); [contradiction | reflexivity].
  - simpl. destruct (Rlt_dec x bound); [| reflexivity].
    pose proof (trips_step x bound step k Hs Hk) as Hk'.
    pose proof (trips_enough (x + step) bound step) as Hk2.
    destruct (Nat.le_ge_cases k (trips (x + step) bound step)) as [Hle | Hge].
    + symmetry. apply for_do_fuel_stable; assumption.
    + apply for_do_fuel_stable; assumption.
Qed.

Lemma for_do_fuel_invariant {S : Type} (P : S -> Prop) (bound step : R)
    (body : R -> S -> S) :
  (forall x s, x < bound -> P s -> P (body x s)) ->
  forall (fuel : nat) (x : R) (s : S),
    P s -> P (snd (for_do_fuel fuel x bound step body s)).
Proof.
  intros Hbody. induction fuel as [| k IH]; intros x s Hs; simpl.
  - exact Hs.
  - destruct (Rlt_dec x bound); [| exact Hs].
    apply IH. apply Hbody; assumption.
Qed.

Lemma for_do_invariant {S : Type} (P : S -> Prop) (x bound step : R)
    (body : R -> S -> S) (s : S) :
  (forall x s, x < bound -> P s -> P (body x s)) ->
  P s -> P (snd (for_do x bound step body s)).
Proof.
  intros Hbody Hs. unfold for_do. apply for_do_fuel_invariant; assumption.
Qed.

Lemma for_fuel_stable {S B : Type} (bound step : R)
    (body : R -> S -> outcome (S + B)) :
  0 < step ->
  forall (k : nat) (x : R) (s : S),
    (bound - x) / step <= INR k ->
    forall k' : nat, (k <= k')%nat ->
      for_fuel k' x bound step body s = for_fuel k x bound step body s.
Proof.
  intros Hs. induction k as [| k IH]; intros x s Hk k' Hle.
  - pose proof (trips_done x bound step Hs Hk) as Hn.
    destruct k' as [| k']; [reflexivity |]. simpl.
    destruct (Rlt_dec x bound); [contradiction | reflexivity].
  - destruct k' as [| k']; [lia |]. simpl.
    destruct (Rlt_dec x bound); [| reflexivity].
    destruct (body x s) as [[s' | b] | |]; try reflexivity.
    apply IH; [apply trips_step; assumption | lia].
Qed.

Lemma for_loop_unroll {S B : Type} (x bound step : R)
    (body : R -> S -> outcome (S + B)) (s : S) :
  0 < step ->
  for_loop x bound step body s
  = if Rlt_dec x bound then
      match body x s with
      | Ok (inl s') => for_loop (x + step) bound step body s'
      | Ok (inr b) => Ok (inr b)
      | Raise e msg => Raise e msg
      | Exit c => Exit c
      end
    else Ok (inl s).
Proof.
  intros Hs. unfold for_loop.
  pose proof (trips_enough x bound step) as Hk.
  destruct (trips x bound step) as [| k] eqn:Ek.
  - pose proof (trips_done x bound step Hs Hk).
    destruct (Rlt_dec x bound); [contradiction | reflexivity].
  - simpl. destruct (Rlt_dec x bound); [| reflexivity].
    destruct (body x s) as [[s' | b] | |]; try reflexivity.
    pose proof (trips_step x bound step k Hs Hk) as Hk'.
    pose proof (trips_enough (x + step) bound step) as Hk2.
    destruct (Nat.le_ge_cases k (trips (x + step) bound step)) as [Hle | Hge].
    + symmetry. apply for_fuel_stable; assumption.
    + apply for_fuel_stable; assumption.
Qed.

(** An invariant of the state, and a property of the value with which the
    loop leaves the function. *)
Lemma for_fuel_invariant {S B : Type} (P : S -> Prop) (Q : B -> Prop)
    (x0 bound step : R) (body : R -> S -> outcome (S + B)) :
  0 <= step ->
  (forall x s, x0 <= x < bound -> P s ->
     match body x s with
     | Ok (inl s') => P s'
     | Ok (inr b) => Q b
     | _ => True
     end) ->
  forall (fuel : nat) (x : R) (s : S),
    x0 <= x -> P s ->
    match for_fuel fuel x bound step body s with
    | Ok (inl s') => P s'
    | Ok (inr b) => Q b
    | _ => True
    end.
Proof.
  intros Hstep Hbody. induction fuel as [| k IH]; intros x s Hx Hs; simpl.
  - exact Hs.
  - destruct (Rlt_dec x bound) as [Hlt | _]; [| exact Hs].
    specialize (Hbody x s (conj Hx Hlt) Hs).
    destruct (body x s) as [[s' | b] | |]; try exact I.
    + apply IH; [lra | exact Hbody].
    + exact Hbody.
Qed.

(** A body that always continues makes the loop complete. *)
Lemma for_fuel_completes {S B : Type} (P : S -> Prop)
    (x0 bound step : R) (body : R -> S -> outcome (S + B)) :
  0 <= step ->
  (forall x s, x0 <= x < bound -> P s ->
     exists s', body x s = Ok (inl s') /\ P s') ->
  forall (fuel : nat) (x : R) (s : S),
    x0 <= x -> P s ->
    exists s', for_fuel fuel x bound step body s = Ok (inl s') /\ P s'.
Proof.
  intros Hstep Hbody. induction fuel as [| k IH]; intros x s Hx Hs; simpl.
  - exists s. split; [reflexivity | exact Hs].
  - destruct (Rlt_dec x bound) as [Hlt | _].
    + destruct (Hbody x s (conj Hx Hlt) Hs) as (s' & Es & Hs').
      rewrite Es. apply IH; [lra | exact Hs'].
    + exists s. split; [reflexivity | exact Hs].
Qed.

(** What a loop appends to a log kept in its state. *)
Lemma for_fuel_log {S B X : Type} (plog : S -> list X) (g : R -> list X)
    (bound step : R) (body : R -> S -> outcome (S + B)) :
  (forall x s s', x < bound -> body x s = Ok (inl s') ->
     plog s' = plog s ++ g x) ->
  forall (fuel : nat) (x : R) (s s' : S),
    for_fuel fuel x bound step body s = Ok (inl s') ->
    plog s' = plog s ++ flat_map g (visited fuel x bound step).
Proof.
  intros Hbody. induction fuel as [| k IH]; intros x s s' H; simpl in *.
  - injection H as <-. rewrite app_nil_r. reflexivity.
  - destruct (Rlt_dec x bound) as [Hlt | _].
    + destruct (body x s) as [[s1 | b] | |] eqn:Eb; try discriminate.
      rewrite (IH _ _ _ H), (Hbody x s s1 Hlt Eb).
      simpl. rewrite app_assoc. reflexivity.
    + injection H as <-. rewrite app_nil_r. reflexivity.
Qed.

Lemma grid_points_shift (x step : R) (count : nat) :
  grid_points x step (S count) = x :: grid_points (x + step) step count.
Proof.
  unfold grid_points. cbn [seq map].
  f_equal; [simpl INR; lra |].
  rewrite <- seq_shift, map_map. apply map_ext.
  intros k. rewrite S_INR. ring.
Qed.

(** With enough fuel the loop visits the points [x + k*step] that are
    below the bound. *)
Lemma visited_grid_points (bound step : R) :
  forall (count fuel : nat) (x : R),
    (count <= fuel)%nat ->
    (forall k, (k < count)%nat -> x + INR k * step < bound) ->
    ~ x + INR count * step < bound ->
    visited fuel x bound step = grid_points x step count.
Proof.
  induction count as [| count IH]; intros fuel x Hfuel Hin Hout.
  - simpl in Hout. replace (x + 0 * step) with x in Hout by ring.
    destruct fuel as [| k]; [reflexivity |]. simpl.
    destruct (Rlt_dec x bound); [contradiction | reflexivity].
  - destruct fuel as [| k]; [lia |].
    rewrite grid_points_shift. simpl.
    assert (H0 : x < bound).
    { specialize (Hin 0%nat ltac:(lia)). simpl in Hin. lra. }
    destruct (Rlt_dec x bound) as [_ | Hn]; [| contradiction].
    f_equal. apply IH.
    + lia.
    + intros j Hj. specialize (Hin (S j) ltac:(lia)).
      rewrite S_INR in Hin. lra.
    + rewrite S_INR in Hout. lra.
Qed.

Lemma trips_at_least (x bound step : R) (count : nat) :
  0 < step ->
  (forall k, (k < count)%nat -> x + INR k * step < bound) ->
  (count <= trips x bound step)%nat.
Proof.
  intros Hs Hin.
  destruct count as [| c]; [lia |].
  specialize (Hin c ltac:(lia)).
  pose proof (trips_enough x bound step) as Hk.
  assert (Hc : INR c < (bound - x) / step).
  { apply Rmult_lt_reg_r with (r := step); [exact Hs |].
    replace ((bound - x) / step * step) with (bound - x) by (field; lra).
    lra. }
  assert (INR c < INR (trips x bound step)) by lra.
  apply INR_lt in H. lia.
Qed.

(** ** The model validator *)

Section Validator.

Variable lib : o2scl.
Variable vs : virial_methods.

(** [ns_fit] changes the row index, the fit parameters, chi squared and
    the cutoff density only. *)
Lemma ns_fit_frame (st st1 : eos) (row : Z) :
  ns_fit lib st row = Ok st1 ->
  eos_S st1 = eos_S st /\ eos_L st1 = eos_L st /\
  model_selected st1 = model_selected st /\
  select_cs2_test st1 = select_cs2_test st.
Proof.
  unfold ns_fit.
  destruct (size_t_of_int row >=? table_units.get_nlines (nstar_tab st))%Z; [discriminate |].
  cbv zeta.
  destruct (nstar_high_rows lib (set_i_ns row st) (i_ns (set_i_ns row st)) _ 100 0)
    as [| r rows]; [discriminate |].
  match goal with
  | |- context [Rgt_dec ?a ?b] => destruct (Rgt_dec a b)
  end;
  match goal with
  | |- context [if ns_record ?s then _ else _] =>
      destruct (ns_record s); [discriminate |]
  end;
  intros H; apply Ok_inj in H; subst st1; repeat split; reflexivity.
Qed.

(** [ns_fit] assigns the row index, the fit parameters, chi squared and the
    cutoff density, and nothing else. *)
Lemma ns_fit_assigns (st st1 : eos) (row : Z) :
  ns_fit lib st row = Ok st1 ->
  exists (parms : list R) (chi2 cutoff : R),
    st1 = set_ns_nb_max cutoff
            (set_chi2_ns chi2 (set_ns_fit_parms parms (set_i_ns row st))).
Proof.
  unfold ns_fit.
  destruct (size_t_of_int row >=? table_units.get_nlines (nstar_tab st))%Z; [discriminate |].
  cbv zeta.
  destruct (nstar_high_rows lib (set_i_ns row st) (i_ns (set_i_ns row st)) _ 100 0)
    as [| r rows]; [discriminate |].
  match goal with
  | |- context [Rgt_dec ?a ?b] => destruct (Rgt_dec a b)
  end;
  match goal with
  | |- context [if ns_record ?s then _ else _] =>
      destruct (ns_record s); [discriminate |]
  end;
  intros H; apply Ok_inj in H; subst st1;
  eexists; eexists; eexists; reflexivity.
Qed.

(** C5.  When the neutron star fit succeeds and its minimal sound speed is
    not negative, a pair (S, L) outside the corridor
    [9.17*S - 266 <= L <= 14.3*S - 379] makes [select_internal] return 2,
    and [model_selected] is false on return, whatever it was before. *)
Theorem select_internal_rejects_outside_corridor (st st1 : eos)
    (i_ns_loc i_skyrme_loc : Z)
    (qmc_alpha_loc qmc_a_loc eos_L_loc eos_S_loc phi_loc : R) :
  let st0 :=
    set_model_selected true
      (set_phi phi_loc
         (set_eos_S eos_S_loc
            (set_eos_L eos_L_loc
               (set_qmc_a qmc_a_loc
                  (set_qmc_alpha qmc_alpha_loc
                     (set_i_skyrme i_skyrme_loc (set_i_ns i_ns_loc st))))))) in
  ns_fit lib st0 (i_ns st0) = Ok st1 ->
  ~ fst (min_max_cs2 lib st1) < 0 ->
  ~ (9.17 * eos_S_loc - 266 <= eos_L_loc <= 14.3 * eos_S_loc - 379) ->
  exists st' : eos,
    select_internal lib vs st i_ns_loc i_skyrme_loc qmc_alpha_loc qmc_a_loc
      eos_L_loc eos_S_loc phi_loc = Ok (2%Z, st')
    /\ model_selected st' = false.
Proof.
  intros st0 Hfit Hmin Hout.
  destruct (ns_fit_frame _ _ _ Hfit) as (ES & EL & _ & _).
  change (eos_S st0) with eos_S_loc in ES.
  change (eos_L st0) with eos_L_loc in EL.
  exists (set_model_selected false st1). split; [| reflexivity].
  unfold select_internal. cbv zeta. fold st0. rewrite Hfit.
  cbn [bind].
  destruct (Rlt_dec (fst (min_max_cs2 lib st1)) 0.0) as [Hneg | _].
  { exfalso. apply Hmin. lra. }
  rewrite ES, EL.
  assert (Hc : Rgtb (9.17 * eos_S_loc - 266.0) eos_L_loc
               || Rltb (14.3 * eos_S_loc - 379.0) eos_L_loc = true).
  { unfold Rgtb, Rltb.
    destruct (Rgt_dec (9.17 * eos_S_loc - 266.0) eos_L_loc) as [| Hn1];
      [reflexivity |].
    destruct (Rlt_dec (14.3 * eos_S_loc - 379.0) eos_L_loc) as [| Hn2];
      [reflexivity |].
    exfalso. apply Hout. lra. }
  rewrite Hc. reflexivity.
Qed.

End Validator.

(** ** Replaying an evaluation *)

Lemma for_do_fuel_ext {S : Type} (bound step : R) (body body' : R -> S -> S) :
  (forall x s, body x s = body' x s) ->
  forall (fuel : nat) (x : R) (s : S),
    for_do_fuel fuel x bound step body s = for_do_fuel fuel x bound step body' s.
Proof.
  intros Hext. induction fuel as [| k IH]; intros x s; simpl.
  - reflexivity.
  - destruct (Rlt_dec x bound); [| reflexivity].
    rewrite Hext. apply IH.
Qed.

Section ModelReads.

Variable lib : o2scl.

Variables st st1 : eos.
Hypothesis Hsame : same_model st st1.

Lemma same_model_fit_fun (np : nat) (parms : list R) (nb : R) :
  fit_fun st1 np parms nb = fit_fun st np parms nb.
Proof.
  destruct Hsame as (_ & _ & _ & Hold & _).
  unfold fit_fun. rewrite Hold. reflexivity.
Qed.

Lemma same_model_ed_fit (nb : R) : ed_fit lib st1 nb = ed_fit lib st nb.
Proof.
  destruct Hsame as (_ & _ & Hparms & _).
  unfold ed_fit. rewrite same_model_fit_fun, Hparms. reflexivity.
Qed.

Lemma same_model_mu_fit (nb : R) : mu_fit lib st1 nb = mu_fit lib st nb.
Proof.
  destruct Hsame as (_ & _ & Hparms & Hold & _).
  unfold mu_fit. rewrite Hparms, Hold. reflexivity.
Qed.

Lemma same_model_cs2_fit (nb : R) : cs2_fit lib st1 nb = cs2_fit lib st nb.
Proof.
  destruct Hsame as (_ & _ & Hparms & Hold & _).
  unfold cs2_fit, dmudn_fit. rewrite same_model_mu_fit, Hparms, Hold.
  reflexivity.
Qed.

Lemma same_model_new_ns_eos (nb : R) (n : fermion.t) (e_ns densdnn : R) :
  new_ns_eos lib st1 nb n e_ns densdnn = new_ns_eos lib st nb n e_ns densdnn.
Proof.
  pose proof Hsame as (_ & _ & _ & _ & Hmax & _ & _ & _ & _ & _ & _ & _ & _
                       & _ & _ & Hphi).
  unfold new_ns_eos, energy_density_ns.
  rewrite Hmax, Hphi, !same_model_ed_fit, !same_model_mu_fit,
    !same_model_cs2_fit.
  reflexivity.
Qed.

Lemma same_model_energy_density_qmc (nn np : R) :
  energy_density_qmc lib st1 nn np = energy_density_qmc lib st nn np.
Proof.
  pose proof Hsame as (_ & _ & _ & _ & _ & _ & _ & _ & _ & _ & Hal & Hbe & Ha
                       & Hb & Hn0 & _).
  unfold energy_density_qmc. rewrite Hal, Hbe, Ha, Hb, Hn0. reflexivity.
Qed.

Lemma same_model_test_ns_cs2_loop (n : fermion.t) (ens : R * R) :
  test_ns_cs2_loop lib st1 n ens = test_ns_cs2_loop lib st n ens.
Proof.
  unfold test_ns_cs2_loop, for_do. apply for_do_fuel_ext.
  intros x s. apply same_model_new_ns_eos.
Qed.

End ModelReads.

Section Replay.

Variable lib : o2scl.
Variable vs : virial_methods.

Hypothesis Hvs : solver_reads_assigned_fields vs.
Hypothesis Hlib : skyrme_is_functional lib.

(** The virial gas on objects that agree with those of an earlier call in
    what it reads, the solver holding the fields the earlier call left. *)
Lemma virial_replay (st st1 : eos) (n n1 p p1 : fermion.t) (T : R)
    (th th1 : thermo.t) :
  ecv st1 = ecv st ->
  fermion.n n1 = fermion.n n -> fermion.m n1 = fermion.m n ->
  fermion.n p1 = fermion.n p -> fermion.m p1 = fermion.m p ->
  acl st1 = acl (v_eos (free_energy_density_virial lib vs st n p T th)) ->
  free_energy_density_virial lib vs st1 n1 p1 T th1
  = let v := free_energy_density_virial lib vs st n p T th in
    mk_virial_out (v_f_vir v) (set_acl (acl (v_eos v)) st1)
      (fermion.set_mu (fermion.mu (v_n v)) n1)
      (fermion.set_mu (fermion.mu (v_p v)) p1)
      (v_th v) (v_dmundnn v) (v_dmundpn v) (v_dmupdnn v) (v_dmupdpn v)
      (v_dmundT v) (v_dmupdT v).
Proof.
  intros Hecv Hnn Hnm Hpn Hpm Hacl.
  destruct Hvs as [Hsolve Hmfn].
  unfold free_energy_density_virial in *. cbv zeta in *.
  cbn [v_eos acl set_acl] in Hacl.
  rewrite Hecv, Hnn, Hnm, Hpn, Hpm, Hacl.
  cbn [virial_solver.zn virial_solver.zp virial_solver.mfn2_mu_p
       virial_solver.mfn2_mu_n virial_solver.dbndT virial_solver.dbpndT
       virial_solver.dlambdadT v_f_vir v_eos v_n v_p v_th v_dmundnn
       v_dmundpn v_dmupdnn v_dmupdpn v_dmundT v_dmupdT acl set_acl
       fermion.mu fermion.set_mu].
  set (lambda := sqrt (4.0 * PI / (fermion.m n + fermion.m p) / T)).
  destruct (Rgtb (fermion.n n * pow lambda 3.0) 1.0e-5
            || Rgtb (fermion.n p * pow lambda 3.0) 1.0e-5) eqn:Hd.
  - (* the solver is called on the same gas *)
    match goal with
    | |- context [solve_fugacity vs ?a] =>
        match goal with
        | |- context [solve_fugacity vs ?b] =>
            lazymatch a with
            | b => fail
            | _ => rewrite (Hsolve a b) by (repeat split; reflexivity)
            end
        end
    end.
    set (mus := solve_fugacity vs _).
    match goal with
    | |- context [mfn21 vs ?a] =>
        match goal with
        | |- context [mfn21 vs ?b] =>
            lazymatch a with
            | b => fail
            | _ =>
                destruct (Hmfn a b) as [E21 E31];
                [repeat split; reflexivity | reflexivity | reflexivity |];
                rewrite E21, E31
            end
        end
    end.
    reflexivity.
  - reflexivity.
Qed.

Lemma world_eta (w : world) :
  mk_world (w_eos w) (w_n w) (w_p w) (w_th w) = w.
Proof. destruct w. reflexivity. Qed.

Lemma copy_scratch_self (st : eos) : copy_scratch st st = st.
Proof. destruct st. reflexivity. Qed.

(** The body of [free_energy_density] on objects that agree with those of
    an earlier call in what it reads: the same value and the same fermions
    and thermodynamic quantities, and the same members assigned. *)
Lemma free_energy_density_body_replay (st st1 : eos) (n n1 p p1 : fermion.t)
    (T : R) (th th1 : thermo.t) :
  same_model st st1 ->
  fermion.n n1 = fermion.n n -> fermion.m n1 = fermion.m n ->
  fermion.n p1 = fermion.n p -> fermion.m p1 = fermion.m p ->
  fermion.m (n_chiral st1) = fermion.m (n_chiral st) ->
  fermion.m (p_chiral st1) = fermion.m (p_chiral st) ->
  acl st1 = acl (v_eos (free_energy_density_virial lib vs st n p T th)) ->
  free_energy_density_body lib vs st1 n1 p1 T th1
  = (fst (free_energy_density_body lib vs st n p T th),
     mk_world
       (copy_scratch (w_eos (snd (free_energy_density_body lib vs st n p T th)))
          st1)
       (w_n (snd (free_energy_density_body lib vs st n p T th)))
       (w_p (snd (free_energy_density_body lib vs st n p T th)))
       (w_th (snd (free_energy_density_body lib vs st n p T th)))).
Proof.
  intros Hsame Hnn Hnm Hpn Hpm Hncm Hpcm Hacl.
  pose proof Hsame as (_ & Htest & _ & _ & _ & Hsk & Hskc & Hecv & Ha & Hb
                       & Hal & Hbe & Hqa & Hqb & Hn0 & _).
  destruct Hlib as [Hcalc Hcalct].
  unfold free_energy_density_body at 1. cbv zeta.
  rewrite (virial_replay st st1 n n1 p p1 T th th1 Hecv Hnn Hnm Hpn Hpm Hacl).
  cbv zeta.
  cbn [v_f_vir v_eos v_n v_p v_th v_dmundnn v_dmundpn v_dmupdnn v_dmupdpn
       v_dmundT v_dmupdT].
  rewrite Hnn, Hpn, Htest, Hsk, Hskc, Ha, Hb, Hal, Hbe, Hqa, Hqb, Hn0.
  set (v := free_energy_density_virial lib vs st n p T th).
  set (half := (fermion.n n + fermion.n p) / 2.0).
  (* the Skyrme functional at equal densities *)
  rewrite (proj1 (Hcalc (sk st))
             (fermion.set_n half (fermion.set_mu (fermion.mu (v_n v)) n1))
             (fermion.set_n half (fermion.set_mu (fermion.mu (v_p v)) p1))
             (v_th v)
             (fermion.set_n half (v_n v)) (fermion.set_n half (v_p v))
             (v_th v))
    by (first [ reflexivity
              | cbn [fermion.m fermion.set_n fermion.set_mu];
                first [rewrite Hnm | rewrite Hpm]; reflexivity ]).
  (* the chiral functional *)
  rewrite (proj1 (Hcalct (sk_chiral st) T)
             (fermion.set_n half (n_chiral st1))
             (fermion.set_n half (p_chiral st1)) (th_chiral st1)
             (fermion.set_n half (n_chiral st))
             (fermion.set_n half (p_chiral st)) (th_chiral st))
    by (first [ reflexivity
              | cbn [fermion.m fermion.set_n]; assumption ]).
  rewrite !(same_model_energy_density_qmc lib st st1 Hsame).
  rewrite !(same_model_new_ns_eos lib st st1 Hsame).
  rewrite !(same_model_test_ns_cs2_loop lib st st1 Hsame).
  reflexivity.
Qed.

(** C9.  With a Skyrme functional that computes from densities and masses
    and a virial solver that reads the fields assigned before its calls, a
    second call of [free_energy_density] on the objects the first call left
    returns the same free energy and leaves the same objects (pressure,
    entropy, chemical potentials and all members): it replays the first. *)
Theorem free_energy_density_replay (st : eos) (n p : fermion.t) (T : R)
    (th : thermo.t) (f : R) (w : world) :
  free_energy_density lib vs st n p T th = Ok (f, w) ->
  free_energy_density lib vs (w_eos w) (w_n w) (w_p w) T (w_th w)
  = Ok (f, w).
Proof.
  intros H. apply free_energy_density_ok in H as [Hsel H].
  set (r := free_energy_density_body lib vs st n p T th) in *.
  assert (Hf : f = fst r) by (rewrite <- H; reflexivity).
  assert (Hw : w = snd r) by (rewrite <- H; reflexivity).
  destruct Hlib as [Hcalc Hcalct].
  assert (Hsel1 : model_selected (w_eos w) = true)
    by (rewrite Hw; exact Hsel).
  unfold free_energy_density. rewrite Hsel1. cbv [negb]. f_equal.
  rewrite (free_energy_density_body_replay st (w_eos w) n (w_n w) p (w_p w)
             T th (w_th w)).
  - fold r. rewrite <- Hw, copy_scratch_self, world_eta, Hf, Hw.
    symmetry. apply surjective_pairing.
  - rewrite Hw. repeat split; reflexivity.
  - rewrite Hw. reflexivity.
  - rewrite Hw.
    etransitivity;
      [exact (proj1 (proj2 (Hcalc _) _ _ _)) |].
    reflexivity.
  - rewrite Hw. reflexivity.
  - rewrite Hw.
    etransitivity;
      [exact (proj2 (proj2 (Hcalc _) _ _ _)) |].
    reflexivity.
  - rewrite Hw.
    etransitivity; [exact (proj1 (proj2 (Hcalc _) _ _ _)) |].
    etransitivity; [exact (proj1 (proj2 (Hcalct _ _) _ _ _)) |].
    etransitivity; [exact (proj1 (proj2 (Hcalc _) _ _ _)) |].
    etransitivity; [exact (proj1 (proj2 (Hcalct _ _) _ _ _)) |].
    reflexivity.
  - rewrite Hw.
    etransitivity; [exact (proj2 (proj2 (Hcalc _) _ _ _)) |].
    etransitivity; [exact (proj2 (proj2 (Hcalct _ _) _ _ _)) |].
    etransitivity; [exact (proj2 (proj2 (Hcalc _) _ _ _)) |].
    etransitivity; [exact (proj2 (proj2 (Hcalct _ _) _ _ _)) |].
    reflexivity.
  - rewrite Hw. reflexivity.
Qed.

End Replay.


(** ** The validator on the sample environment *)

Lemma zero_parms_cs2_fit (lib : o2scl) (st : eos) (nb : R) :
  ns_fit_parms st = [0; 0; 0; 0; 0] -> cs2_fit lib st nb = 0.
Proof.
  intros H. unfold cs2_fit, dmudn_fit, mu_fit. rewrite H.
  cbn [idx nth]. destruct (old_ns_fit st); unfold Rdiv; ring.
Qed.

Lemma zero_parms_min_max_cs2 (lib : o2scl) (st : eos) :
  ns_fit_parms st = [0; 0; 0; 0; 0] -> min_max_cs2 lib st = (0, 0).
Proof.
  intros H. unfold min_max_cs2. cbv zeta.
  rewrite zero_parms_cs2_fit by exact H.
  apply (for_do_invariant (fun mm : R * R => mm = (0, 0))); [| reflexivity].
  intros x s _ ->. rewrite zero_parms_cs2_fit by exact H.
  cbn [fst snd].
  destruct (Rlt_dec 0 0); destruct (Rgt_dec 0 0); reflexivity.
Qed.

Lemma nb_new_loop_step (a ca b cb : R) (rest : list (R * R)) (v : R) :
  nb_new_loop ((a, ca) :: (b, cb) :: rest) v
  = nb_new_loop ((b, cb) :: rest)
      (if Rltb ca 1.0 && Rgtb cb 1.0
       then a + (b - a) * (1.0 - ca) / (cb - ca)
       else v).
Proof. reflexivity. Qed.

Lemma nb_new_loop_flat (f : R -> R) (xs : list R) (v : R) :
  (forall nb, f nb = 0) ->
  nb_new_loop (map (fun nb => (nb, f nb)) xs) v = v.
Proof.
  intros Hf. revert v. induction xs as [| a xs IH]; intros v.
  - reflexivity.
  - destruct xs as [| b xs']; [reflexivity |].
    specialize (IH v).
    cbn [map] in *. rewrite nb_new_loop_step.
    rewrite (Rgtb_false (f b) 1.0) by (rewrite Hf; lra).
    rewrite andb_false_r. exact IH.
Qed.

Lemma nstar_high_rows_step (lib : o2scl) (st : eos) (row : Z) (nmax : R)
    (k i : nat) :
  nstar_high_rows lib st row nmax (S k) i
  = if Rlt_dec (0.04 + INR i * 0.012) (nmax + 0.000001) then
      if Rgt_dec
           (fabs (table_units.get (nstar_tab st)
                    (String.append "EoA_" (szttos i)) row)) 1.0e-2
      then (0.04 + INR i * 0.012,
            table_units.get (nstar_tab st) (String.append "EoA_" (szttos i))
              row * hc_mev_fm lib)
           :: nstar_high_rows lib st row nmax k (S i)
      else nstar_high_rows lib st row nmax k (S i)
    else [].
Proof. reflexivity. Qed.

(** On a flat neutron star table and with the sample fitter, [ns_fit]
    returns with zero fit parameters and the cutoff density of the table. *)
Lemma sample_ns_fit (slope : R) (st : eos) :
  nstar_tab st = Sample.flat_table 3 -> ns_record st = false ->
  ns_fit (Sample.lib_with slope) st 0
  = Ok (set_chi2_ns 0
          (set_ns_fit_parms [0; 0; 0; 0; 0]
             (set_ns_nb_max 3 (set_i_ns 0%Z st)))).
Proof.
  intros Htab Hrec. unfold ns_fit. rewrite Htab.
  cbn [Sample.flat_table table_units.get_nlines Z.geb Z.compare].
  cbv zeta.
  cbn [nstar_tab set_i_ns i_ns]. rewrite Htab.
  cbn [Sample.flat_table table_units.get Sample.lib_with fit fst snd].
  assert (Hrows : exists r rows,
            nstar_high_rows (Sample.lib_with slope) (set_i_ns 0%Z st) 0 3 100 0
            = r :: rows).
  { change 100%nat with (S 99). rewrite nstar_high_rows_step.
    destruct (Rlt_dec (0.04 + INR 0 * 0.012) (3 + 0.000001)) as [_ | Hn];
      [| exfalso; apply Hn; simpl INR; lra].
    cbn [nstar_tab set_i_ns]. rewrite Htab.
    cbn [Sample.flat_table table_units.get].
    destruct (Rgt_dec (fabs 3) 1.0e-2) as [_ | Hn];
      [| exfalso; apply Hn; unfold fabs; rewrite Rabs_right; lra].
    eexists; eexists; reflexivity. }
  destruct Hrows as (r & rows & Erows). rewrite Erows.
  rewrite nb_new_loop_flat
    by (intros nb; apply zero_parms_cs2_fit; reflexivity).
  destruct (Rgt_dec 0.0 0.01) as [Habs | _]; [lra |].
  cbn [ns_record set_chi2_ns set_ns_fit_parms set_ns_nb_max set_i_ns].
  rewrite Hrec. reflexivity.
Qed.

Lemma select_internal_rejects_outside_corridor_witness :
  ~ (9.17 * 30 - 266 <= 100 <= 14.3 * 30 - 379) /\
  exists st' : eos,
    select_internal Sample.lib Sample.vs Sample.st 0 0 0.48 12.7 100 30 0.5
    = Ok (2%Z, st')
    /\ model_selected st' = false.
Proof.
  assert (Hout : ~ (9.17 * 30 - 266 <= 100 <= 14.3 * 30 - 379)) by lra.
  split; [exact Hout |].
  eapply (select_internal_rejects_outside_corridor Sample.lib Sample.vs
            Sample.st).
  - apply (sample_ns_fit 1000); reflexivity.
  - rewrite zero_parms_min_max_cs2 by reflexivity. cbn [fst]. lra.
  - exact Hout.
Defined.

Lemma sample_solver_reads_assigned_fields (c : R) :
  solver_reads_assigned_fields (Sample.vs_with c).
Proof. split; intros; [| split]; reflexivity. Qed.

Lemma sample_skyrme_is_functional (slope : R) :
  skyrme_is_functional (Sample.lib_with slope).
Proof.
  assert (H : forall skm, functional_of_densities (Sample.zero_calc_e skm)).
  { intros skm. split.
    - intros n p th n' p' th' Hn Hm Hpn Hpm. unfold Sample.zero_calc_e.
      rewrite Hn, Hm, Hpn, Hpm. reflexivity.
    - intros n p th. split; reflexivity. }
  split.
  - exact H.
  - intros skm T. exact (H skm).
Qed.

Lemma free_energy_density_replay_witness :
  free_energy_density Sample.lib Sample.vs
    (w_eos (snd (free_energy_density_body Sample.lib Sample.vs
                   Sample.st_selected (Sample.nucleon 0.15)
                   (Sample.nucleon 0.01) 0.05 Sample.zero_thermo)))
    (w_n (snd (free_energy_density_body Sample.lib Sample.vs
                 Sample.st_selected (Sample.nucleon 0.15)
                 (Sample.nucleon 0.01) 0.05 Sample.zero_thermo)))
    (w_p (snd (free_energy_density_body Sample.lib Sample.vs
                 Sample.st_selected (Sample.nucleon 0.15)
                 (Sample.nucleon 0.01) 0.05 Sample.zero_thermo)))
    0.05
    (w_th (snd (free_energy_density_body Sample.lib Sample.vs
                  Sample.st_selected (Sample.nucleon 0.15)
                  (Sample.nucleon 0.01) 0.05 Sample.zero_thermo)))
  = free_energy_density Sample.lib Sample.vs Sample.st_selected
      (Sample.nucleon 0.15) (Sample.nucleon 0.01) 0.05 Sample.zero_thermo.
Proof.
  rewrite sample_free_energy_density.
  rewrite (surjective_pairing
             (free_energy_density_body Sample.lib Sample.vs
                Sample.st_selected (Sample.nucleon 0.15)
                (Sample.nucleon 0.01) 0.05 Sample.zero_thermo)) at 5.
  apply (free_energy_density_replay Sample.lib Sample.vs
           (sample_solver_reads_assigned_fields 0)
           (sample_skyrme_is_functional 1000)
           Sample.st_selected (Sample.nucleon 0.15) (Sample.nucleon 0.01)
           0.05 Sample.zero_thermo).
  rewrite sample_free_energy_density. apply f_equal. apply surjective_pairing.
Defined.

(** ** The sound speed test of the validator *)

Lemma flat_map_singleton {A B : Type} (f : A -> B) (l : list A) :
  flat_map (fun x => [f x]) l = map f l.
Proof. induction l as [| a l IH]; simpl; [reflexivity | rewrite IH; reflexivity]. Qed.

Lemma INR_below (k c : nat) : (k < c)%nat -> INR k <= INR c - 1.
Proof.
  intros H. assert (H1 : (S k <= c)%nat) by lia.
  apply le_INR in H1. rewrite S_INR in H1. lra.
Qed.

(** The points that the three loops of the sound speed test visit. *)
Lemma visited_nb :
  visited (trips 0.1 2.00001 0.05) 0.1 2.00001 0.05 = grid_points 0.1 0.05 39.
Proof.
  assert (Hin : forall k, (k < 39)%nat -> 0.1 + INR k * 0.05 < 2.00001).
  { intros k Hk. apply INR_below in Hk.
    rewrite (INR_IZR_INZ 39) in Hk. simpl Z.of_nat in Hk.
    pose proof (pos_INR k). lra. }
  apply visited_grid_points.
  - apply trips_at_least; [lra | exact Hin].
  - exact Hin.
  - rewrite (INR_IZR_INZ 39). simpl Z.of_nat. lra.
Qed.

Lemma visited_ye :
  visited (trips 0.05 0.4501 0.1) 0.05 0.4501 0.1 = grid_points 0.05 0.1 5.
Proof.
  assert (Hin : forall k, (k < 5)%nat -> 0.05 + INR k * 0.1 < 0.4501).
  { intros k Hk. apply INR_below in Hk.
    rewrite (INR_IZR_INZ 5) in Hk. simpl Z.of_nat in Hk.
    pose proof (pos_INR k). lra. }
  apply visited_grid_points.
  - apply trips_at_least; [lra | exact Hin].
  - exact Hin.
  - rewrite (INR_IZR_INZ 5). simpl Z.of_nat. lra.
Qed.

Lemma visited_T (hc : R) :
  0 < hc ->
  visited (trips (1.0 / hc) (10.01 / hc) (9.0 / hc))
    (1.0 / hc) (10.01 / hc) (9.0 / hc)
  = grid_points (1.0 / hc) (9.0 / hc) 2.
Proof.
  intros Hhc.
  assert (Hi : 0 < / hc) by (apply Rinv_0_lt_compat; exact Hhc).
  assert (Hin : forall k, (k < 2)%nat ->
                  1.0 / hc + INR k * (9.0 / hc) < 10.01 / hc).
  { intros k Hk. apply INR_below in Hk.
    rewrite (INR_IZR_INZ 2) in Hk. simpl Z.of_nat in Hk.
    pose proof (pos_INR k). unfold Rdiv. nra. }
  apply visited_grid_points.
  - apply trips_at_least; [unfold Rdiv; nra | exact Hin].
  - exact Hin.
  - rewrite (INR_IZR_INZ 2). simpl Z.of_nat. unfold Rdiv. nra.
Qed.

(** A property of the state that every continuing iteration keeps. *)
Lemma for_fuel_preserves {S B : Type} (P : S -> Prop) (bound step : R)
    (body : R -> S -> outcome (S + B)) :
  (forall x s s', x < bound -> P s -> body x s = Ok (inl s') -> P s') ->
  forall (fuel : nat) (x : R) (s s' : S),
    P s -> for_fuel fuel x bound step body s = Ok (inl s') -> P s'.
Proof.
  intros Hbody. induction fuel as [| k IH]; intros x s s' Hs H; simpl in H.
  - injection H as <-. exact Hs.
  - destruct (Rlt_dec x bound) as [Hlt | _].
    + destruct (body x s) as [[s1 | b] | |] eqn:Eb; try discriminate.
      apply (IH _ _ _ (Hbody x s s1 Hlt Hs Eb) H).
    + injection H as <-. exact Hs.
Qed.

(** Name the outermost [let] of an equation in the context. *)
Ltac name_let H :=
  lazymatch type of H with
  | (let x := ?a in @?b x) = ?r =>
      let y := fresh x in
      pose (y := a); change (b y = r) in H; cbv beta in H
  end.

Lemma bind_Ok_inv {A B : Type} (m : outcome A) (k : A -> outcome B) (r : B) :
  bind m k = Ok r -> exists a, m = Ok a /\ k a = Ok r.
Proof.
  destruct m as [a | |]; cbn [bind]; intros H; try discriminate.
  exists a. split; [reflexivity | exact H].
Qed.

(** A loop whose body neither raises nor exits does neither. *)
Lemma for_fuel_body_returns {S B : Type} (bound step : R)
    (body : R -> S -> outcome (S + B)) :
  (forall x s, exists r, body x s = Ok r) ->
  forall (fuel : nat) (x : R) (s : S),
    exists r, for_fuel fuel x bound step body s = Ok r.
Proof.
  intros Hbody. induction fuel as [| k IH]; intros x s; simpl.
  - eexists. reflexivity.
  - destruct (Rlt_dec x bound); [| eexists; reflexivity].
    destruct (Hbody x s) as [[s1 | b] E]; rewrite E.
    + apply IH.
    + eexists. reflexivity.
Qed.

(** *** The parameters of the candidate across the evaluations *)

Lemma same_parameters_refl (s : eos) : same_parameters s s.
Proof. unfold same_parameters. repeat split. Qed.

Lemma same_parameters_trans (s1 s2 s3 : eos) :
  same_parameters s1 s2 -> same_parameters s2 s3 -> same_parameters s1 s3.
Proof.
  unfold same_parameters. intros H1 H2.
  decompose [and] H1. decompose [and] H2. clear H1 H2.
  repeat split; congruence.
Qed.

Lemma holds_candidate_same (lib : o2scl) (st fitted : eos)
    (i_ns_loc i_skyrme_loc : Z)
    (qmc_alpha_loc qmc_a_loc eos_L_loc eos_S_loc phi_loc : R) (s s' : eos) :
  same_parameters s s' ->
  holds_candidate lib st fitted i_ns_loc i_skyrme_loc qmc_alpha_loc qmc_a_loc
    eos_L_loc eos_S_loc phi_loc s ->
  holds_candidate lib st fitted i_ns_loc i_skyrme_loc qmc_alpha_loc qmc_a_loc
    eos_L_loc eos_S_loc phi_loc s'.
Proof.
  unfold same_parameters, holds_candidate. cbv zeta. intros H1 H2.
  decompose [and] H1. decompose [and] H2. clear H1 H2.
  repeat split; congruence.
Qed.

(** The evaluations of the free energy and of its derivatives assign the
    fermions, the photon, [th2] and the members that [free_energy_density]
    writes: the parameters stay. *)
Section EvaluationsKeepParameters.

Variable lib : o2scl.
Variable vs : virial_methods.

Lemma free_energy_density_same (st : eos) (n p : fermion.t) (T : R)
    (th : thermo.t) (r : R * world) :
  free_energy_density lib vs st n p T th = Ok r ->
  same_parameters st (w_eos (snd r)).
Proof.
  destruct r as [f w]. intros H.
  apply free_energy_density_ok in H as [_ H].
  assert (Hw : w = snd (free_energy_density_body lib vs st n p T th))
    by (rewrite <- H; reflexivity).
  cbn [snd]. rewrite Hw. unfold same_parameters. repeat split.
Qed.

Lemma entropy_same (w : world) (nn pn T : R) (r : R * world) :
  entropy lib vs w nn pn T = Ok r ->
  same_parameters (w_eos w) (w_eos (snd r)).
Proof.
  unfold entropy. intros H.
  apply bind_Ok_inv in H as (r1 & E & H).
  apply free_energy_density_same in E.
  apply Ok_inj in H. subst r. cbn [snd w_eos].
  eapply same_parameters_trans; [exact E |].
  unfold same_parameters. repeat split.
Qed.

Lemma ed_same (w : world) (nn pn T : R) (r : R * world) :
  ed lib vs w nn pn T = Ok r ->
  same_parameters (w_eos w) (w_eos (snd r)).
Proof.
  unfold ed. intros H.
  apply bind_Ok_inv in H as (r1 & E & H).
  apply free_energy_density_same in E.
  apply Ok_inj in H. subst r. cbn [snd w_eos].
  eapply same_parameters_trans; [exact E |].
  unfold same_parameters. repeat split.
Qed.

Lemma dfdnn_total_same (w : world) (nn pn T : R) (r : R * world) :
  dfdnn_total lib vs w nn pn T = Ok r ->
  same_parameters (w_eos w) (w_eos (snd r)).
Proof.
  unfold dfdnn_total. intros H.
  apply bind_Ok_inv in H as (r1 & E & H).
  apply free_energy_density_same in E.
  apply Ok_inj in H. subst r. cbn [snd w_eos].
  eapply same_parameters_trans; [exact E |].
  unfold same_parameters. repeat split.
Qed.

Lemma dfdpn_total_same (w : world) (nn pn T : R) (r : R * world) :
  dfdpn_total lib vs w nn pn T = Ok r ->
  same_parameters (w_eos w) (w_eos (snd r)).
Proof.
  unfold dfdpn_total. intros H.
  apply bind_Ok_inv in H as (r1 & E & H).
  apply free_energy_density_same in E.
  apply Ok_inj in H. subst r. cbn [snd w_eos].
  eapply same_parameters_trans; [exact E |].
  unfold same_parameters. repeat split.
Qed.

Hypothesis Hlib : calls_back_only lib.

Lemma deriv_same (x0 : R) (f : R -> world -> outcome (R * world))
    (w : world) (r : R * world) :
  (forall x w' r', f x w' = Ok r' ->
     same_parameters (w_eos w') (w_eos (snd r'))) ->
  deriv lib world x0 f w = Ok r ->
  same_parameters (w_eos w) (w_eos (snd r)).
Proof.
  intros Hf H.
  apply (proj2 Hlib world (fun w' => same_parameters (w_eos w) (w_eos w'))
           x0 f w r); [| apply same_parameters_refl | exact H].
  intros x w' r' Hw' E.
  eapply same_parameters_trans; [exact Hw' | exact (Hf x w' r' E)].
Qed.

Lemma msolve1_same (x0 : R) (f : R -> eos -> outcome (Z * option R * eos))
    (s : eos) (r : Z * R * eos) :
  (forall x s' r', f x s' = Ok r' -> same_parameters s' (snd r')) ->
  msolve1 lib eos x0 f s = Ok r ->
  same_parameters s (snd r).
Proof.
  intros Hf H.
  apply (proj1 Hlib eos (fun s' => same_parameters s s') x0 f s r);
    [| apply same_parameters_refl | exact H].
  intros x s' r' Hs' E.
  eapply same_parameters_trans; [exact Hs' | exact (Hf x s' r' E)].
Qed.

Lemma cs2_fixYe_same (w : world) (T : R) (r : R * world) :
  cs2_fixYe lib vs w T = Ok r ->
  same_parameters (w_eos w) (w_eos (snd r)).
Proof.
  cbv delta [cs2_fixYe]. cbv beta. intros H.
  repeat first [ name_let H
               | apply bind_Ok_inv in H as (? & ? & H); cbv beta in H ].
  apply Ok_inj in H. subst r. cbn [snd w_eos].
  repeat match goal with
  | E : free_energy_density lib vs _ _ _ _ _ = Ok _ |- _ =>
      apply free_energy_density_same in E
  | E : deriv lib world _ _ _ = Ok _ |- _ =>
      apply deriv_same in E;
      [| intros ? ? ? Ef;
         first [ exact (dfdnn_total_same _ _ _ _ _ Ef)
               | exact (dfdpn_total_same _ _ _ _ _ Ef)
               | exact (entropy_same _ _ _ _ _ Ef) ] ]
  | E : dfdnn_total lib vs _ _ _ _ = Ok _ |- _ =>
      apply dfdnn_total_same in E
  | E : dfdpn_total lib vs _ _ _ _ = Ok _ |- _ =>
      apply dfdpn_total_same in E
  | E : entropy lib vs _ _ _ _ = Ok _ |- _ => apply entropy_same in E
  | E : ed lib vs _ _ _ _ = Ok _ |- _ => apply ed_same in E
  end.
  repeat (eapply same_parameters_trans; [eassumption |]).
  apply same_parameters_refl.
Qed.

End EvaluationsKeepParameters.

(** So do the tests of the validator. *)
Section ValidatorKeepsParameters.

Variable lib : o2scl.
Variable vs : virial_methods.
Hypothesis Hlib : calls_back_only lib.

Lemma solve_Ye_same (nb T muL Ye : R) (st : eos) (r : Z * option R * eos) :
  solve_Ye lib vs nb T muL Ye st = Ok r -> same_parameters st (snd r).
Proof.
  unfold solve_Ye. cbv zeta.
  match goal with
  | |- context [if _ then Ok (1%Z, None, ?s) else _] => set (s0 := s)
  end.
  match goal with
  | |- context [if ?c then Ok (1%Z, None, s0) else _] => destruct c
  end.
  - intros H. apply Ok_inj in H. subst r. cbn [snd].
    unfold s0, same_parameters. repeat split.
  - intros H. apply bind_Ok_inv in H as (r1 & E & H).
    apply free_energy_density_same in E.
    apply Ok_inj in H. subst r. cbn [snd].
    eapply same_parameters_trans; [| eapply same_parameters_trans;
                                      [exact E |]].
    + unfold s0, same_parameters. repeat split.
    + unfold same_parameters. repeat split.
Qed.

Lemma set_eff_masses_same (nn pn : R) (st : eos) :
  same_parameters st (set_eff_masses nn pn st).
Proof. unfold same_parameters. repeat split. Qed.

Lemma dineutron_loop_same (st st' : eos) :
  dineutron_loop lib st = Ok (inl st') -> same_parameters st st'.
Proof.
  unfold dineutron_loop, for_loop. intros H.
  apply (for_fuel_preserves (fun s => same_parameters st s)) in H;
    [exact H | | apply same_parameters_refl].
  intros x s s' _ Hs. cbv zeta.
  match goal with
  | |- context [Rlt_dec ?a ?b] => destruct (Rlt_dec a b)
  end; [discriminate |].
  intros E. apply Ok_inj in E. injection E as <-.
  eapply same_parameters_trans; [exact Hs |].
  unfold same_parameters. repeat split.
Qed.

(** The dineutron test neither raises nor exits. *)
Lemma dineutron_loop_returns (st : eos) :
  exists r, dineutron_loop lib st = Ok r.
Proof.
  unfold dineutron_loop, for_loop. apply for_fuel_body_returns.
  intros x s. cbv zeta.
  match goal with
  | |- context [Rlt_dec ?a ?b] => destruct (Rlt_dec a b)
  end; eexists; reflexivity.
Qed.

Lemma beta_eq_loop_same (st st' : eos) :
  beta_eq_loop lib vs st = Ok (inl st') -> same_parameters st st'.
Proof.
  unfold beta_eq_loop, for_loop. intros H.
  apply (for_fuel_preserves (fun s => same_parameters st s)) in H;
    [exact H | | apply same_parameters_refl].
  intros x s s' _ Hs. cbv zeta. intros E.
  apply bind_Ok_inv in E as (r & Em & E). cbv beta in E.
  apply msolve1_same in Em;
    [| exact Hlib | intros ? ? ? Ef; exact (solve_Ye_same _ _ _ _ _ _ Ef)].
  destruct (negb (fst (fst r) =? 0)%Z); [discriminate |].
  match type of E with
  | (if ?c then _ else _) = _ => destruct c; [discriminate |]
  end.
  apply Ok_inj in E. injection E as <-.
  eapply same_parameters_trans; [exact Hs |].
  eapply same_parameters_trans; [| eapply same_parameters_trans;
                                    [exact Em |]].
  - unfold same_parameters. repeat split.
  - unfold same_parameters. repeat split.
Qed.

Lemma cs2_at_same (p : R * R * R) (st : eos) (r : R * world) :
  cs2_at lib vs p st = Ok r -> same_parameters st (store (snd r)).
Proof.
  unfold cs2_at. cbv zeta. intros H.
  apply cs2_fixYe_same in H; [| exact Hlib].
  eapply same_parameters_trans; [| eapply same_parameters_trans;
                                    [exact H |]].
  - unfold same_parameters. repeat split.
  - unfold same_parameters. repeat split.
Qed.

End ValidatorKeepsParameters.

(** *** The loops of the sound speed test *)

(** A loop runs its body over the points it visits. *)
Lemma for_fuel_run_over {S B : Type} (bound step : R)
    (body : R -> S -> outcome (S + B)) (fuel : nat) (x : R) (s : S) :
  for_fuel fuel x bound step body s
  = run_over body (visited fuel x bound step) s.
Proof.
  revert x s. induction fuel as [| k IH]; intros x s; simpl.
  - reflexivity.
  - destruct (Rlt_dec x bound); [| reflexivity]. simpl.
    destruct (body x s) as [[s' | b] | |]; try reflexivity. apply IH.
Qed.

Lemma run_over_ext {S B X : Type} (f g : X -> S -> outcome (S + B))
    (l : list X) (s : S) :
  (forall x s, f x s = g x s) -> run_over f l s = run_over g l s.
Proof.
  intros E. revert s. induction l as [| a l IH]; intros s; simpl.
  - reflexivity.
  - rewrite E. destruct (g a s) as [[s' | b] | |]; try reflexivity. apply IH.
Qed.

Lemma run_over_map {S B X Y : Type} (h : X -> Y)
    (body : Y -> S -> outcome (S + B)) (l : list X) (s : S) :
  run_over body (map h l) s = run_over (fun x => body (h x)) l s.
Proof.
  revert s. induction l as [| a l IH]; intros s; simpl.
  - reflexivity.
  - destruct (body (h a) s) as [[s' | b] | |]; try reflexivity. apply IH.
Qed.

Lemma run_over_app {S B X : Type} (body : X -> S -> outcome (S + B))
    (l1 l2 : list X) (s : S) :
  run_over body (l1 ++ l2) s
  = match run_over body l1 s with
    | Ok (inl s') => run_over body l2 s'
    | o => o
    end.
Proof.
  revert s. induction l1 as [| a l IH]; intros s; simpl.
  - reflexivity.
  - destruct (body a s) as [[s' | b] | |]; try reflexivity. apply IH.
Qed.

(** A loop in a loop runs the inner body over the points of both. *)
Lemma run_over_flat_map {S B X Y : Type} (g : X -> list Y)
    (body : Y -> S -> outcome (S + B)) (l : list X) (s : S) :
  run_over (fun x s => run_over body (g x) s) l s
  = run_over body (flat_map g l) s.
Proof.
  revert s. induction l as [| a l IH]; intros s; simpl.
  - reflexivity.
  - rewrite run_over_app.
    destruct (run_over body (g a) s) as [[s' | b] | |]; try reflexivity.
    apply IH.
Qed.

Lemma bind_cases {A B : Type} (m : outcome A) (k : A -> outcome B)
    (o : outcome B) :
  bind m k = o ->
  (exists a, m = Ok a /\ k a = o)
  \/ (exists f, failure_of m = Some f /\ failure_of o = Some f).
Proof.
  destruct m as [a | e msg | c]; cbn [bind]; intros <-.
  - left. exists a. split; reflexivity.
  - right. eexists. split; reflexivity.
  - right. eexists. split; reflexivity.
Qed.

Section SoundSpeedTest.

Variable lib : o2scl.
Variable vs : virial_methods.

(** The three loops of the sound speed test run its body over the
    validation grid. *)
Lemma cs2_test_loop_unrolled (st : eos) :
  0 < hc_mev_fm lib ->
  cs2_test_loop lib vs st
  = run_over (cs2_test_at lib vs) (validation_grid (hc_mev_fm lib)) (st, []).
Proof.
  intros Hhc. unfold cs2_test_loop, for_loop, validation_grid.
  rewrite for_fuel_run_over, visited_nb, <- run_over_flat_map.
  apply run_over_ext. intros nbx s1.
  rewrite for_fuel_run_over, visited_ye, <- run_over_flat_map.
  apply run_over_ext. intros yex s2.
  rewrite for_fuel_run_over, visited_T by exact Hhc.
  rewrite run_over_map. apply run_over_ext. intros Tx s3. reflexivity.
Qed.

(** The codes with which the loops of the validator leave it. *)
Lemma dineutron_loop_break (st : eos) (ret : Z * eos) :
  dineutron_loop lib st = Ok (inr ret) -> fst ret = 4%Z.
Proof.
  unfold dineutron_loop, for_loop. intros H.
  pose proof (for_fuel_invariant (fun _ : eos => True)
                (fun b : Z * eos => fst b = 4%Z) 0.01 0.16 0.001) as Hinv.
  match type of H with
  | for_fuel ?fuel ?x _ _ ?b ?s = _ =>
      specialize (Hinv b ltac:(lra)); specialize (fun Hb => Hinv Hb fuel x s)
  end.
  rewrite H in Hinv. apply Hinv; [| lra | exact I].
  intros x s _ _. cbv zeta.
  match goal with
  | |- context [Rlt_dec ?a ?b] => destruct (Rlt_dec a b)
  end; [reflexivity | exact I].
Qed.

Lemma beta_eq_loop_break (st : eos) (ret : Z * eos) :
  beta_eq_loop lib vs st = Ok (inr ret) -> fst ret = 8%Z \/ fst ret = 9%Z.
Proof.
  unfold beta_eq_loop, for_loop. intros H.
  pose proof (for_fuel_invariant (fun _ : eos => True)
                (fun b : Z * eos => fst b = 8%Z \/ fst b = 9%Z)
                0.1 2.00001 0.05) as Hinv.
  match type of H with
  | for_fuel ?fuel ?x _ _ ?b ?s = _ =>
      specialize (Hinv b ltac:(lra)); specialize (fun Hb => Hinv Hb fuel x s)
  end.
  rewrite H in Hinv. apply Hinv; [| lra | exact I].
  intros x s _ _. cbv zeta.
  destruct (msolve1 lib eos 0.05 _ _) as [r | |]; cbn [bind]; try exact I.
  destruct (negb (fst (fst r) =? 0)%Z); [left; reflexivity |].
  match goal with
  | |- context [if ?c then _ else _] => destruct c
  end; [right; reflexivity | exact I].
Qed.

Hypothesis Hlib : calls_back_only lib.

(** The run of the sound speed test over a list of points, on an object
    with a property [C] that its parameters decide: it evaluates the
    points one after the other until the list is exhausted, the value is
    negative or the evaluation fails. *)
Lemma cs2_test_run (C : eos -> Prop) :
  (forall s s', same_parameters s s' -> C s -> C s') ->
  forall (grid : list (R * R * R)) (st : eos) (log0 : list cs2_sample),
    C st ->
    exists (log : list cs2_sample) (s : eos),
      cs2_evaluated lib vs st log s
      /\ Forall (fun e => ~ cs_cs2x e < 0) log
      /\ C s
      /\ ((map cs_point log = grid
           /\ run_over (cs2_test_at lib vs) grid (st, log0)
              = Ok (inl (s, log0 ++ log)))
          \/ exists (p : R * R * R) (rest : list (R * R * R)),
               map cs_point log ++ p :: rest = grid
               /\ ((exists (x : R) (w : world),
                      cs2_at lib vs p s = Ok (x, w) /\ x < 0
                      /\ run_over (cs2_test_at lib vs) grid (st, log0)
                         = Exit (-1))
                   \/ exists f : failure,
                        failure_of (cs2_at lib vs p s) = Some f
                        /\ failure_of
                             (run_over (cs2_test_at lib vs) grid (st, log0))
                           = Some f)).
Proof.
  intros HC. induction grid as [| p grid IH]; intros st log0 Hst.
  - exists [], st. cbn [cs2_evaluated map run_over].
    split; [reflexivity |]. split; [constructor |]. split; [exact Hst |].
    left. split; [reflexivity |]. rewrite app_nil_r. reflexivity.
  - cbn [run_over]. unfold cs2_test_at at 1 3 5. cbn [fst snd].
    destruct (cs2_at lib vs p st) as [[x w] | e msg | c] eqn:Ep;
      cbn [bind fst snd].
    + destruct (Rlt_dec x 0.0) as [Hneg | Hnn].
      * exists [], st. cbn [cs2_evaluated map app].
        split; [reflexivity |]. split; [constructor |]. split; [exact Hst |].
        right. exists p, grid. split; [reflexivity |].
        left. exists x, w. split; [exact Ep |]. split; [lra | reflexivity].
      * assert (Hw : C (store w)).
        { apply (HC st); [| exact Hst].
          exact (cs2_at_same lib vs Hlib p st (x, w) Ep). }
        destruct (IH (store w)
                    (log0 ++ [mk_cs2_sample (fst (fst p)) (snd (fst p))
                                (snd p) x]) Hw)
          as (log & s & Hev & Hnneg & Hs & Hend).
        exists (mk_cs2_sample (fst (fst p)) (snd (fst p)) (snd p) x :: log), s.
        assert (Epoint : cs_point (mk_cs2_sample (fst (fst p)) (snd (fst p))
                                     (snd p) x) = p).
        { destruct p as [[a b] c]. reflexivity. }
        split.
        { cbn [cs2_evaluated]. exists w. rewrite Epoint.
          split; [exact Ep | exact Hev]. }
        split.
        { constructor; [cbn [cs_cs2x]; lra | exact Hnneg]. }
        split; [exact Hs |].
        cbn [map app]. rewrite Epoint.
        destruct Hend as [[Eg Er] | (q & rest & Eg & Hq)].
        -- left. split; [rewrite Eg; reflexivity |].
           rewrite Er, <- app_assoc. reflexivity.
        -- right. exists q, rest. split; [rewrite Eg; reflexivity |].
           exact Hq.
    + exists [], st. cbn [cs2_evaluated map app].
      split; [reflexivity |]. split; [constructor |]. split; [exact Hst |].
      right. exists p, grid. split; [reflexivity |].
      right. rewrite Ep. eexists. split; reflexivity.
    + exists [], st. cbn [cs2_evaluated map app].
      split; [reflexivity |]. split; [constructor |]. split; [exact Hst |].
      right. exists p, grid. split; [reflexivity |].
      right. rewrite Ep. eexists. split; reflexivity.
Qed.

End SoundSpeedTest.

Lemma bind_failure {A B : Type} (m : outcome A) (k : A -> outcome B)
    (f : failure) :
  failure_of m = Some f -> failure_of (bind m k) = Some f.
Proof. destruct m; cbn [failure_of bind]; [discriminate | auto | auto]. Qed.

Lemma holds_candidate_selected (lib : o2scl) (st fitted : eos)
    (i_ns_loc i_skyrme_loc : Z)
    (qmc_alpha_loc qmc_a_loc eos_L_loc eos_S_loc phi_loc : R) (s : eos) :
  holds_candidate lib st fitted i_ns_loc i_skyrme_loc qmc_alpha_loc qmc_a_loc
    eos_L_loc eos_S_loc phi_loc s ->
  holds_candidate lib st fitted i_ns_loc i_skyrme_loc qmc_alpha_loc qmc_a_loc
    eos_L_loc eos_S_loc phi_loc (set_model_selected true s).
Proof.
  unfold holds_candidate. cbv zeta. intros H.
  decompose [and] H. clear H. repeat split; assumption.
Qed.

(** Leave through the first branch of a conditional that returns a nonzero
    code. *)
Ltac rejected H :=
  lazymatch type of H with
  | (if ?c then _ else _) = _ =>
      destruct c;
      [left; eexists; eexists; split; [| symmetry; exact H]; discriminate |]
  end.

Section SoundSpeedValidation.

Variable lib : o2scl.
Variable vs : virial_methods.

(** C6 (as amended).  Let [hc_mev_fm] be positive and let the solver and
    the derivative of the library change the objects they thread only
    through the function they call ([calls_back_only]).  A call of
    [select_internal] ends in one of these ways.  The fit of the row fails,
    and [select_internal] fails as the fit does.  Or the fit returns
    [fitted], and then: one of the checks 1 to 9 rejects the candidate, with
    a code that is not 0; or the solver of the beta equilibrium test fails on
    an object that holds the candidate, and [select_internal] fails as it
    does; or the checks pass and leave an object [st1] that holds the
    candidate ([holds_candidate]: the seven arguments, the fit, the
    coefficients and the Skyrme parameters computed from them,
    [model_selected] true, the other parameters of the caller's object).
    In this last case, if the caller's [select_cs2_test] is false,
    [select_internal] returns 0 and [st1] and evaluates no sound speed.  If
    it is true, [select_internal] evaluates [cs2_fixYe] at the points of the
    validation grid ([nb = 0.1, 0.15, ..., 2.0], [Ye = 0.05, ..., 0.45],
    [T = 1, 10] MeV) in order, the first time on [st1] and each next time on
    the object that the evaluation before has left; [log] holds the values
    up to the point where this stops, none of them negative, and [s] is the
    object then, which holds the candidate.  Either [log] covers the grid
    and [select_internal] returns 0 and [s]; or the value at the next point
    [p] is negative and the process exits with status -1; or the evaluation
    at [p] fails and [select_internal] fails as it does.  The values are
    tested for their sign only: there is no upper bound. *)
Theorem select_internal_cs2_not_negative (st : eos)
    (i_ns_loc i_skyrme_loc : Z)
    (qmc_alpha_loc qmc_a_loc eos_L_loc eos_S_loc phi_loc : R) :
  0 < hc_mev_fm lib ->
  calls_back_only lib ->
  let result :=
    select_internal lib vs st i_ns_loc i_skyrme_loc qmc_alpha_loc qmc_a_loc
      eos_L_loc eos_S_loc phi_loc in
  let fit :=
    ns_fit lib
      (set_model_selected true
         (set_phi phi_loc
            (set_eos_S eos_S_loc
               (set_eos_L eos_L_loc
                  (set_qmc_a qmc_a_loc
                     (set_qmc_alpha qmc_alpha_loc
                        (set_i_skyrme i_skyrme_loc
                           (set_i_ns i_ns_loc st))))))))
      i_ns_loc in
  let candidate fitted :=
    holds_candidate lib st fitted i_ns_loc i_skyrme_loc qmc_alpha_loc
      qmc_a_loc eos_L_loc eos_S_loc phi_loc in
  let grid := validation_grid (hc_mev_fm lib) in
  (exists f : failure, failure_of fit = Some f /\ failure_of result = Some f)
  \/ exists fitted : eos,
       fit = Ok fitted
       /\ ((exists (c : Z) (st' : eos), c <> 0%Z /\ result = Ok (c, st'))
           \/ (exists (s : eos) (f : failure),
                 candidate fitted s
                 /\ failure_of (beta_eq_loop lib vs s) = Some f
                 /\ failure_of result = Some f)
           \/ exists st1 : eos,
                candidate fitted st1
                /\ if select_cs2_test st then
                     exists (log : list cs2_sample) (s : eos),
                       cs2_evaluated lib vs st1 log s
                       /\ Forall (fun e => ~ cs_cs2x e < 0) log
                       /\ candidate fitted s
                       /\ ((map cs_point log = grid
                            /\ result = Ok (0%Z, s))
                           \/ exists (p : R * R * R)
                                     (rest : list (R * R * R)),
                                map cs_point log ++ p :: rest = grid
                                /\ ((exists (x : R) (w : world),
                                       cs2_at lib vs p s = Ok (x, w)
                                       /\ x < 0 /\ result = Exit (-1))
                                    \/ exists f : failure,
                                         failure_of (cs2_at lib vs p s)
                                         = Some f
                                         /\ failure_of result = Some f))
                   else result = Ok (0%Z, st1)).
Proof.
  intros Hhc Hlib. cbv zeta.
  set (candidate := holds_candidate lib st).
  remember (select_internal lib vs st i_ns_loc i_skyrme_loc qmc_alpha_loc
              qmc_a_loc eos_L_loc eos_S_loc phi_loc) as o eqn:H.
  symmetry in H. revert H.
  cbv delta [select_internal]. cbv beta. intros H.
  repeat name_let H.
  match type of H with
  | bind (ns_fit lib ?s ?r) _ = _ =>
      assert (Erow : r = i_ns_loc) by reflexivity
  end.
  apply bind_cases in H as [(fitted & Efit & H) | (f & Ef & Hf)].
  2:{ left. exists f. rewrite Erow in Ef. split; assumption. }
  rewrite Erow in Efit.
  right. exists fitted. split; [exact Efit |].
  destruct (ns_fit_assigns lib _ _ _ Efit) as (parms & chi2 & cutoff & Efitted).
  cbv beta in H. repeat name_let H. rejected H. rejected H.
  repeat name_let H. rejected H.
  repeat name_let H.
  match type of H with
  | bind (dineutron_loop lib ?s) _ = _ =>
      assert (Hc : candidate fitted i_ns_loc i_skyrme_loc qmc_alpha_loc
                     qmc_a_loc eos_L_loc eos_S_loc phi_loc s)
  end.
  { unfold candidate, holds_candidate. cbv zeta. subst fitted.
    repeat split; reflexivity. }
  match type of H with
  | bind (dineutron_loop lib ?s) _ = _ =>
      destruct (dineutron_loop_returns lib s) as [r2 Edi];
      rewrite Edi in H; cbn [bind] in H
  end.
  destruct r2 as [s2 | ret].
  2:{ left. exists (fst ret), (snd ret). split.
      - rewrite (dineutron_loop_break lib _ _ Edi). discriminate.
      - rewrite <- surjective_pairing. symmetry. exact H. }
  apply dineutron_loop_same in Edi.
  apply (holds_candidate_same _ _ _ _ _ _ _ _ _ _ _ _ Edi) in Hc.
  clear Edi.
  repeat name_let H.
  match type of H with
  | (if ms_negative ?s then _ else _) = _ =>
      assert (Hc1 : candidate fitted i_ns_loc i_skyrme_loc qmc_alpha_loc
                      qmc_a_loc eos_L_loc eos_S_loc phi_loc s)
        by exact (holds_candidate_same _ _ _ _ _ _ _ _ _ _ _ _
                    (set_eff_masses_same _ _ _) Hc)
  end.
  rejected H. repeat name_let H.
  match type of H with
  | (if ms_negative ?s then _ else _) = _ =>
      assert (Hc2 : candidate fitted i_ns_loc i_skyrme_loc qmc_alpha_loc
                      qmc_a_loc eos_L_loc eos_S_loc phi_loc s)
        by exact (holds_candidate_same _ _ _ _ _ _ _ _ _ _ _ _
                    (set_eff_masses_same _ _ _) Hc1)
  end.
  rejected H. repeat name_let H.
  match type of H with
  | (if ms_negative ?s then _ else _) = _ =>
      assert (Hc3 : candidate fitted i_ns_loc i_skyrme_loc qmc_alpha_loc
                      qmc_a_loc eos_L_loc eos_S_loc phi_loc s)
        by exact (holds_candidate_same _ _ _ _ _ _ _ _ _ _ _ _
                    (set_eff_masses_same _ _ _) Hc2)
  end.
  rejected H.
  apply bind_cases in H as [(r3 & Ebe & H) | (f & Ef & Hf)].
  2:{ right. left. eexists. exists f.
      split; [exact Hc3 |]. split; assumption. }
  cbv beta in H. destruct r3 as [s3 | ret].
  2:{ left. exists (fst ret), (snd ret). split.
      - destruct (beta_eq_loop_break lib vs _ _ Ebe) as [E | E];
          rewrite E; discriminate.
      - rewrite <- surjective_pairing. symmetry. exact H. }
  apply (beta_eq_loop_same lib vs Hlib) in Ebe.
  apply (holds_candidate_same _ _ _ _ _ _ _ _ _ _ _ _ Ebe) in Hc3.
  apply holds_candidate_selected in Hc3.
  clear Ebe Hc Hc1 Hc2.
  repeat name_let H.
  right. right.
  match type of H with
  | (if select_cs2_test ?s then _ else _) = _ => exists s
  end.
  split; [exact Hc3 |].
  match type of H with
  | (if select_cs2_test ?s then _ else _) = _ =>
      assert (Esel : select_cs2_test st = select_cs2_test s)
        by (symmetry; apply Hc3)
  end.
  rewrite Esel.
  match type of H with
  | (if ?c then _ else _) = _ => destruct c
  end.
  2:{ symmetry. exact H. }
  rewrite (cs2_test_loop_unrolled lib vs _ Hhc) in H.
  match type of H with
  | bind (run_over _ _ (?s, [])) _ = _ =>
      destruct (cs2_test_run lib vs Hlib
                  (candidate fitted i_ns_loc i_skyrme_loc qmc_alpha_loc
                     qmc_a_loc eos_L_loc eos_S_loc phi_loc)
                  (fun a b Hab => holds_candidate_same _ _ _ _ _ _ _ _ _ _
                                    a b Hab)
                  (validation_grid (hc_mev_fm lib)) s [] Hc3)
        as (log & s' & Hev & Hnn & Hs' & Hend)
  end.
  exists log, s'. split; [exact Hev |]. split; [exact Hnn |].
  split; [exact Hs' |].
  destruct Hend as [[Eg Er] | (p & rest & Eg & [(x & w & Ep & Hx & Er) |
                                                 (f & Ef & Er)])].
  - left. split; [exact Eg |]. rewrite Er in H. symmetry. exact H.
  - right. exists p, rest. split; [exact Eg |]. left. exists x, w.
    split; [exact Ep |]. split; [exact Hx |].
    rewrite Er in H. symmetry. exact H.
  - right. exists p, rest. split; [exact Eg |]. right. exists f.
    split; [exact Ef |]. rewrite <- H. apply bind_failure. exact Er.
Qed.

End SoundSpeedValidation.

(** With zero parameters the virial coefficients and their derivatives
    vanish. *)
Lemma zero_ecv (T : R) :
  let v := eos_crust_virial_v2.mk (repeat 0 10) (repeat 0 6) in
  eos_crust_virial_v2.bn_f v T = 0 /\ eos_crust_virial_v2.bpn_f v T = 0
  /\ eos_crust_virial_v2.dbndT_f v T = 0
  /\ eos_crust_virial_v2.dbpndT_f v T = 0.
Proof.
  cbv zeta.
  unfold eos_crust_virial_v2.bn_f, eos_crust_virial_v2.bpn_f,
    eos_crust_virial_v2.dbndT_f, eos_crust_virial_v2.dbpndT_f,
    eos_crust_virial_v2.bn_func, eos_crust_virial_v2.bpn_func.
  cbn [eos_crust_virial_v2.bn_params eos_crust_virial_v2.bpn_params repeat
       idx nth].
  repeat split; ring.
Qed.

(** The virial gas of the sample solver when the densities are large
    enough for the solver to be called: zero chemical potentials and
    derivatives, and an entropy that is not negative. *)
Lemma sample_model_virial (lib : o2scl) (st : eos) (n p : fermion.t)
    (T : R) (th : thermo.t) :
  ecv st = eos_crust_virial_v2.mk (repeat 0 10) (repeat 0 6) ->
  0 < T -> 0 < fermion.m n + fermion.m p ->
  Rgtb (fermion.n n
        * pow (sqrt (4.0 * PI / (fermion.m n + fermion.m p) / T)) 3.0) 1.0e-5
  || Rgtb (fermion.n p
           * pow (sqrt (4.0 * PI / (fermion.m n + fermion.m p) / T)) 3.0)
       1.0e-5
  = true ->
  exists (f : R) (a : virial_solver.t) (thv : thermo.t),
    free_energy_density_virial lib Sample.vs st n p T th
    = mk_virial_out f (set_acl a st) (fermion.set_mu 0 n) (fermion.set_mu 0 p)
        thv 0 0 0 0 0 0
    /\ 0 <= thermo.en thv.
Proof.
  intros Hecv HT Hm Hd.
  unfold free_energy_density_virial. cbv zeta. rewrite Hd, Hecv.
  cbn [Sample.vs Sample.vs_with solve_fugacity mfn21 mfn31 mfn41 fst snd].
  do 3 eexists. split; [reflexivity |].
  cbn [thermo.en].
  destruct (zero_ecv (T * hc_mev_fm lib)) as (-> & -> & -> & ->).
  replace (0 / T) with 0 by (unfold Rdiv; ring).
  unfold log. rewrite exp_0, ln_1.
  assert (Hl : 0 < sqrt (4.0 * PI / (fermion.m n + fermion.m p) / T)).
  { apply sqrt_lt_R0. pose proof PI_RGT_0.
    apply Rdiv_lt_0_compat; [| exact HT].
    apply Rdiv_lt_0_compat; [lra | exact Hm]. }
  rewrite pow_3 by exact Hl.
  set (l := sqrt _) in *.
  assert (H3 : 0 < / (l * l * l)).
  { apply Rinv_0_lt_compat. repeat apply Rmult_lt_0_compat; exact Hl. }
  match goal with
  | |- 0 <= ?e => replace e with (10 * / (l * l * l))
  end; [lra |].
  decimals. field. split; [lra | lra].
Qed.

(** With a zero fit the neutron star EOS vanishes below the cutoff. *)
Lemma zero_parms_ed_fit (lib : o2scl) (st : eos) (nb : R) :
  ns_fit_parms st = [0; 0; 0; 0; 0] -> ed_fit lib st nb = 0.
Proof.
  intros H. unfold ed_fit, fit_fun. rewrite H.
  cbn [idx nth]. destruct (old_ns_fit st); unfold Rdiv; ring.
Qed.

Lemma zero_parms_mu_fit (lib : o2scl) (st : eos) (nb : R) :
  ns_fit_parms st = [0; 0; 0; 0; 0] -> mu_fit lib st nb = 0.
Proof.
  intros H. unfold mu_fit. rewrite H.
  cbn [idx nth]. destruct (old_ns_fit st); unfold Rdiv; ring.
Qed.

Lemma zero_parms_new_ns_eos (lib : o2scl) (st : eos) (nb : R) (n : fermion.t)
    (e d : R) :
  ns_fit_parms st = [0; 0; 0; 0; 0] -> nb < ns_nb_max st - 1.0e-6 ->
  new_ns_eos lib st nb n e d = (0, 0).
Proof.
  intros H Hnb. unfold new_ns_eos. cbv zeta.
  destruct (Rlt_dec nb (ns_nb_max st - 1.0e-6)) as [_ | Hn]; [| contradiction].
  unfold energy_density_ns.
  rewrite zero_parms_ed_fit, zero_parms_mu_fit by exact H. reflexivity.
Qed.

(** With [qmc_a = -1], [qmc_b = 1] and zero exponents the QMC energy
    density vanishes. *)
Lemma sample_energy_density_qmc (lib : o2scl) (st : eos) (nn np : R) :
  qmc_alpha st = 0 -> qmc_beta st = 0 -> qmc_a st = -1 -> qmc_b st = 1 ->
  energy_density_qmc lib st nn np = 0.
Proof.
  intros Hal Hbe Ha Hb. unfold energy_density_qmc.
  rewrite Hal, Hbe, Ha, Hb. unfold Rdiv. ring.
Qed.

(** The combiner on the sample model: zero chemical potentials, so that
    the fermions it leaves are those of [Sample.nucleon], and an entropy
    that is not negative. *)
Lemma sample_model_body (st : eos) (n p : fermion.t) (T : R)
    (th : thermo.t) :
  Sample.model st -> fermion.m n = 4.76 -> fermion.m p = 4.76 ->
  0 < T -> 0 < fermion.n n + fermion.n p < 2.5 ->
  Rgtb (fermion.n n * pow (sqrt (4.0 * PI / (4.76 + 4.76) / T)) 3.0) 1.0e-5
  || Rgtb (fermion.n p * pow (sqrt (4.0 * PI / (4.76 + 4.76) / T)) 3.0) 1.0e-5
  = true ->
  exists (f : R) (st' : eos) (th' : thermo.t),
    free_energy_density_body Sample.lib Sample.vs st n p T th
    = (f, mk_world st' (Sample.nucleon (fermion.n n))
            (Sample.nucleon (fermion.n p)) th')
    /\ Sample.model st' /\ 0 <= thermo.en th'.
Proof.
  intros Hmodel Hn Hp HT Hnb Hd.
  pose proof Hmodel as
    (Hsel & Htest & Hcs & Hparms & Hmax & Hecv & Ha & Hb & Hal & Hbe
     & Hqa & Hqb & Hn0 & Hsk & Hem & Hnm & Hpm).
  destruct (sample_model_virial Sample.lib st n p T th Hecv HT)
    as (fv & a & thv & Ev & Hen).
  { rewrite Hn, Hp. lra. }
  { rewrite Hn, Hp. exact Hd. }
  unfold free_energy_density_body. cbv zeta.
  change (free_energy_density_virial Sample.lib Sample.vs st n p T th)
    with (free_energy_density_virial Sample.lib Sample.vs st n p T th) in Ev.
  rewrite Ev.
  rewrite Htest.
  rewrite !(sample_energy_density_qmc Sample.lib st) by assumption.
  rewrite !zero_parms_new_ns_eos by (first [exact Hparms | rewrite Hmax; lra]).
  cbn [snd fst w_n w_p w_th w_eos v_f_vir v_eos v_n v_p v_th v_dmundnn
       v_dmundpn v_dmupdnn v_dmupdpn v_dmundT v_dmupdT
       Sample.lib Sample.lib_with calc_e calc_temp_e Sample.zero_calc_e
       Sample.zero_calc_temp_e
       fermion.n fermion.m fermion.mu fermion.ms fermion.set_n fermion.set_mu
       thermo.ed thermo.pr thermo.en a_virial b_virial set_acl qmc_a qmc_b
       qmc_alpha qmc_beta qmc_n0].
  rewrite Ha, Hb, Hal, Hbe, Hqa, Hqb, Hn0, Hn, Hp.
  replace (0 / T) with 0 by (unfold Rdiv; ring).
  rewrite exp_0.
  match goal with
  | |- exists f st' th', (?F, mk_world ?ST ?N ?P ?TH) = _ /\ _ =>
      exists F, ST, TH
  end.
  split; [| split].
  - f_equal. f_equal.
    + unfold fermion.set_n, fermion.set_mu.
      cbn [fermion.n fermion.m fermion.mu fermion.ms fermion.ed fermion.pr
           fermion.en].
      unfold Sample.nucleon. f_equal. unfold Rdiv. ring.
    + unfold fermion.set_n, fermion.set_mu.
      cbn [fermion.n fermion.m fermion.mu fermion.ms fermion.ed fermion.pr
           fermion.en].
      unfold Sample.nucleon. f_equal. unfold Rdiv. ring.
  - repeat split; assumption.
  - cbn [thermo.en].
    replace 1.0 with 1 by lra. replace 3.0 with 3 by lra.
    replace 0.0 with 0 by lra.
    unfold Rdiv.
    set (g := / (3 * 1 * 1 + 3 * 1 * 1 + 0 * 1 * 1 + 1)).
    assert (0 < g) by (apply Rinv_0_lt_compat; lra).
    match goal with
    | |- 0 <= ?e => replace e with (thermo.en thv * g) by ring
    end.
    apply Rmult_le_pos; lra.
Qed.

(** In the range of the grid the solver is called. *)
Lemma in_range_dense (nn pn T : R) :
  Sample.in_range nn pn T ->
  Rgtb (nn * pow (sqrt (4.0 * PI / (4.76 + 4.76) / T)) 3.0) 1.0e-5
  || Rgtb (pn * pow (sqrt (4.0 * PI / (4.76 + 4.76) / T)) 3.0) 1.0e-5
  = true.
Proof.
  intros (Hnn & Hpn & Hnb & HT & HT2).
  apply virial_dense_test. left.
  assert (Hl : 1 <= sqrt (4.0 * PI / (4.76 + 4.76) / T)).
  { rewrite <- sqrt_1 at 1. apply sqrt_le_1; [lra | |].
    - pose proof PI_RGT_0. apply Rlt_le.
      apply Rdiv_lt_0_compat; [| exact HT].
      apply Rdiv_lt_0_compat; lra.
    - pose proof PI2_3_2 as Hpi.
      apply Rmult_le_reg_r with (r := T); [exact HT |].
      replace (4.0 * PI / (4.76 + 4.76) / T * T)
        with (4.0 * PI / (4.76 + 4.76)) by (field; lra).
      apply Rmult_le_reg_r with (r := 4.76 + 4.76); [lra |].
      replace (4.0 * PI / (4.76 + 4.76) * (4.76 + 4.76))
        with (4.0 * PI) by (field; lra).
      nra. }
  rewrite pow_3 by lra.
  set (l := sqrt _) in *.
  assert (1 <= l * l * l) by nra.
  nra.
Qed.

Lemma sample_model_free_energy_density (st : eos) (n p : fermion.t)
    (T : R) (th : thermo.t) :
  Sample.model st -> fermion.m n = 4.76 -> fermion.m p = 4.76 ->
  Sample.in_range (fermion.n n) (fermion.n p) T ->
  exists (f : R) (st' : eos) (th' : thermo.t),
    free_energy_density Sample.lib Sample.vs st n p T th
    = Ok (f, mk_world st' (Sample.nucleon (fermion.n n))
               (Sample.nucleon (fermion.n p)) th')
    /\ Sample.model st' /\ 0 <= thermo.en th'.
Proof.
  intros Hmodel Hn Hp Hr.
  pose proof (in_range_dense _ _ _ Hr) as Hd.
  destruct Hr as (Hnn & Hpn & Hnb & HT & HT2).
  destruct (sample_model_body st n p T th Hmodel Hn Hp HT ltac:(lra) Hd)
    as (f & st' & th' & E & Hm' & Hen).
  exists f, st', th'. split; [| split; assumption].
  unfold free_energy_density. rewrite (proj1 Hmodel). cbn [negb].
  rewrite E. reflexivity.
Qed.

(** Assignments that keep the sample model. *)
Lemma model_set_electron (e : fermion.t) (st : eos) :
  Sample.model st -> fermion.m e = 0.0026 -> Sample.model (set_electron e st).
Proof.
  intros H He. repeat split; first [exact He | apply H].
Qed.

Lemma model_set_photon (ph : boson.t) (st : eos) :
  Sample.model st -> Sample.model (set_photon ph st).
Proof. intros H. repeat split; apply H. Qed.

(** The electron of the sample library has its mass for chemical
    potential and no entropy. *)
Lemma sample_electron_at (st : eos) (pn T : R) :
  fermion.m (electron st) = 0.0026 ->
  electron_at Sample.lib st pn T = fermion.mk pn 0.0026 0.0026 0.0026 0 0 0.
Proof.
  intros H. unfold electron_at. cbv zeta.
  cbn [Sample.lib Sample.lib_with pair_density].
  unfold Sample.zero_pair_density, fermion.set_mu, fermion.set_n.
  cbn [fermion.n fermion.m fermion.mu]. rewrite H. reflexivity.
Qed.

(** The free energy at given densities, on a world that holds the sample
    model. *)
Lemma sample_model_free_energy_density_at (w : world) (nn pn T : R) :
  Sample.world_ok w -> Sample.in_range nn pn T ->
  exists (f : R) (st' : eos) (th' : thermo.t),
    free_energy_density Sample.lib Sample.vs (w_eos w)
      (fermion.set_n nn (w_n w)) (fermion.set_n pn (w_p w)) T (w_th w)
    = Ok (f, mk_world st' (Sample.nucleon nn) (Sample.nucleon pn) th')
    /\ Sample.model st' /\ 0 <= thermo.en th'.
Proof.
  intros (Hm & Hn & Hp) Hr.
  exact (sample_model_free_energy_density (w_eos w) (fermion.set_n nn (w_n w))
           (fermion.set_n pn (w_p w)) T (w_th w) Hm Hn Hp Hr).
Qed.

(** The thermodynamic functions on the sample model. *)
Lemma sample_entropy (w : world) (nn pn T : R) :
  Sample.world_ok w -> Sample.in_range nn pn T ->
  exists (s : R) (w' : world),
    entropy Sample.lib Sample.vs w nn pn T = Ok (s, w')
    /\ 0 <= s /\ Sample.world_ok w'
    /\ fermion.n (w_n w') = nn /\ fermion.n (w_p w') = pn.
Proof.
  intros Hw Hr.
  destruct (sample_model_free_energy_density_at w nn pn T Hw Hr)
    as (f & st' & th' & E & Hm & Hen).
  unfold entropy. rewrite E. cbn [bind snd w_eos w_n w_p w_th].
  rewrite sample_electron_at by apply Hm.
  cbn [Sample.lib Sample.lib_with massless_calc fermion.en boson.en].
  do 2 eexists. split; [reflexivity |].
  split; [lra |].
  split; [| split; reflexivity].
  split; [| split; reflexivity].
  cbn [w_eos]. apply model_set_photon. apply model_set_electron;
    [exact Hm | reflexivity].
Qed.

Lemma sample_ed (w : world) (nn pn T : R) :
  Sample.world_ok w -> Sample.in_range nn pn T ->
  exists (e : R) (w' : world),
    ed Sample.lib Sample.vs w nn pn T = Ok (e, w')
    /\ Sample.world_ok w'
    /\ fermion.n (w_n w') = nn /\ fermion.n (w_p w') = pn.
Proof.
  intros Hw Hr.
  destruct (sample_model_free_energy_density_at w nn pn T Hw Hr)
    as (f & st' & th' & E & Hm & Hen).
  unfold ed. rewrite E. cbn [bind snd w_eos w_n w_p w_th].
  rewrite sample_electron_at by apply Hm.
  do 2 eexists. split; [reflexivity |].
  split; [| split; reflexivity].
  split; [| split; reflexivity].
  cbn [w_eos]. apply model_set_photon. apply model_set_electron;
    [exact Hm | reflexivity].
Qed.

Lemma sample_dfdnn_total (w : world) (nn pn T : R) :
  Sample.world_ok w -> Sample.in_range nn pn T ->
  exists (mu : R) (w' : world),
    dfdnn_total Sample.lib Sample.vs w nn pn T = Ok (mu, w')
    /\ mu = 4.76 /\ Sample.world_ok w'
    /\ fermion.n (w_n w') = nn /\ fermion.n (w_p w') = pn.
Proof.
  intros Hw Hr.
  destruct (sample_model_free_energy_density_at w nn pn T Hw Hr)
    as (f & st' & th' & E & Hm & Hen).
  unfold dfdnn_total. rewrite E. cbn [bind snd w_eos w_n w_p w_th].
  rewrite sample_electron_at by apply Hm.
  do 2 eexists. split; [reflexivity |].
  split; [cbn [Sample.nucleon fermion.mu fermion.m]; lra |].
  split; [| split; reflexivity].
  split; [| split; reflexivity].
  cbn [w_eos]. apply model_set_electron; [exact Hm | reflexivity].
Qed.

Lemma sample_dfdpn_total (w : world) (nn pn T : R) :
  Sample.world_ok w -> Sample.in_range nn pn T ->
  exists (mu : R) (w' : world),
    dfdpn_total Sample.lib Sample.vs w nn pn T = Ok (mu, w')
    /\ mu = 4.76 + 0.0026 /\ Sample.world_ok w'
    /\ fermion.n (w_n w') = nn /\ fermion.n (w_p w') = pn.
Proof.
  intros Hw Hr.
  destruct (sample_model_free_energy_density_at w nn pn T Hw Hr)
    as (f & st' & th' & E & Hm & Hen).
  unfold dfdpn_total. rewrite E. cbn [bind snd w_eos w_n w_p w_th].
  rewrite sample_electron_at by apply Hm.
  do 2 eexists. split; [reflexivity |].
  split; [cbn [Sample.nucleon fermion.mu fermion.m]; lra |].
  split; [| split; reflexivity].
  split; [| split; reflexivity].
  cbn [w_eos]. apply model_set_electron; [exact Hm | reflexivity].
Qed.

(** With the derivative routine of the sample returning 1000 for every
    derivative, the squared sound speed that [cs2_fixYe] returns in the
    range of the grid is at least one. *)
Lemma sample_cs2_fixYe (w : world) (T : R) :
  Sample.world_ok w ->
  Sample.in_range (fermion.n (w_n w)) (fermion.n (w_p w)) T ->
  exists (c : R) (w' : world),
    cs2_fixYe Sample.lib Sample.vs w T = Ok (c, w')
    /\ 1 <= c /\ Sample.world_ok w'.
Proof.
  intros (Hm & Hn & Hp) Hr.
  destruct (sample_model_free_energy_density (w_eos w) (w_n w) (w_p w) T
              (w_th w) Hm Hn Hp Hr)
    as (f0 & st0 & th0 & E0 & Hm0 & Hen0).
  unfold cs2_fixYe. cbv zeta. rewrite E0.
  cbn [bind snd fst w_eos w_n w_p w_th Sample.lib Sample.lib_with deriv].
  set (nn := fermion.n (w_n w)) in *. set (pn := fermion.n (w_p w)) in *.
  set (w0 := mk_world st0 (Sample.nucleon nn) (Sample.nucleon pn) th0).
  assert (Hw0 : Sample.world_ok w0)
    by (split; [exact Hm0 | split; reflexivity]).
  destruct (sample_dfdpn_total w0 nn pn T Hw0 Hr)
    as (mup & w1 & E1 & Hmup & Hw1 & Hn1 & Hp1).
  rewrite E1. cbn [bind snd fst].
  destruct (sample_dfdnn_total w1 nn pn T Hw1 Hr)
    as (mun & w2 & E2 & Hmun & Hw2 & Hn2 & Hp2).
  rewrite E2. cbn [bind snd fst].
  change (fermion.n (Sample.nucleon nn)) with nn.
  change (fermion.n (Sample.nucleon pn)) with pn.
  set (w3 := mk_world (w_eos w2) (Sample.nucleon nn) (Sample.nucleon pn) th0).
  assert (Hw3 : Sample.world_ok w3)
    by (split; [apply Hw2 | split; reflexivity]).
  destruct (sample_entropy w3 nn pn T Hw3 Hr)
    as (s & w4 & E4 & Hs & Hw4 & Hn4 & Hp4).
  rewrite E4. cbn [bind snd fst]. rewrite Hn4, Hp4.
  destruct (sample_ed w4 nn pn T Hw4 Hr) as (e & w5 & E5 & Hw5 & Hn5 & Hp5).
  rewrite E5. cbn [bind snd fst]. rewrite Hp5.
  do 2 eexists. split; [reflexivity |].
  split.
  - subst mup mun. destruct Hr as (Hnn & Hpn & Hnb & HT & HT2).
    assert (Hden : 0 < ((4.76 + 0.0026 - 4.76) * pn + 4.76 * (nn + pn)
                        + T * s - e + e) * - - (1000)) by nra.
    apply Rmult_le_reg_r with (r := ((4.76 + 0.0026 - 4.76) * pn
                                      + 4.76 * (nn + pn) + T * s - e + e)
                                     * - - (1000)); [exact Hden |].
    unfold Rdiv. rewrite Rmult_assoc, Rinv_l by lra.
    nra.
  - split; [apply Hw5 | split; apply Hw2].
Qed.

Lemma model_set_neutron (f : fermion.t) (st : eos) :
  Sample.model st -> fermion.m f = 4.76 -> Sample.model (set_neutron f st).
Proof. intros H Hf. repeat split; first [exact Hf | apply H]. Qed.

Lemma model_set_proton (f : fermion.t) (st : eos) :
  Sample.model st -> fermion.m f = 4.76 -> Sample.model (set_proton f st).
Proof. intros H Hf. repeat split; first [exact Hf | apply H]. Qed.

Lemma model_store (w : world) : Sample.world_ok w -> Sample.model (store w).
Proof.
  intros (H & Hn & Hp). unfold store.
  repeat split; first [exact Hn | exact Hp | apply H].
Qed.

(** The sound speed test runs to its end on the sample model. *)
Lemma sample_cs2_test_loop (st : eos) :
  Sample.model st ->
  exists s : eos * list cs2_sample,
    cs2_test_loop Sample.lib Sample.vs st = Ok (inl s) /\ Sample.model (fst s).
Proof.
  intros Hst. unfold cs2_test_loop, for_loop.
  apply (for_fuel_completes
           (fun s : eos * list cs2_sample => Sample.model (fst s))
           0.1); [lra | | lra | exact Hst].
  intros nbx s1 Hnbx Hs1.
  apply (for_fuel_completes
           (fun s : eos * list cs2_sample => Sample.model (fst s))
           0.05); [lra | | lra | exact Hs1].
  intros yex s2 Hyex Hs2.
  change (hc_mev_fm Sample.lib) with 197.33.
  apply (for_fuel_completes
           (fun s : eos * list cs2_sample => Sample.model (fst s))
           (1.0 / 197.33)); [lra | | lra | exact Hs2].
  intros Tx s3 HTx Hs3. cbv zeta.
  match goal with
  | |- context [cs2_fixYe _ _ ?w Tx] =>
      destruct (sample_cs2_fixYe w Tx) as (c & w' & E & Hc & Hw')
  end.
  - unfold members. split; [| split].
    + cbn [w_eos]. apply model_set_proton; [| apply Hs3].
      apply model_set_neutron; [exact Hs3 | apply Hs3].
    + cbn [w_n]. apply Hs3.
    + cbn [w_p]. apply Hs3.
  - unfold members. cbn [w_n w_p neutron proton set_neutron set_proton].
    unfold fermion.set_n. cbn [fermion.n].
    repeat split; try nra; lra.
  - rewrite E. cbn [bind fst snd].
    destruct (Rlt_dec c 0.0) as [Hneg | _]; [lra |].
    eexists. split; [reflexivity |].
    cbn [fst]. apply model_store. exact Hw'.
Qed.

(** The other tests of the validator on the sample model. *)
Lemma sample_dineutron_loop (st : eos) :
  Sample.model st ->
  exists st' : eos,
    dineutron_loop Sample.lib st = Ok (inl st') /\ Sample.model st'.
Proof.
  intros Hst. unfold dineutron_loop, for_loop.
  apply (for_fuel_completes Sample.model 0.01); [lra | | lra | exact Hst].
  intros nb s Hnb Hs. cbv zeta.
  cbn [Sample.lib Sample.lib_with calc_e Sample.zero_calc_e fst snd th2
       set_th2 thermo.ed].
  destruct (Rlt_dec (0 / nb) 0.0) as [Hneg | _].
  { unfold Rdiv in Hneg. rewrite Rmult_0_l in Hneg. lra. }
  eexists. split; [reflexivity |].
  repeat split; first [apply Hs | reflexivity].
Qed.

Lemma sample_set_eff_masses (nn pn : R) (st : eos) :
  Sample.model st ->
  ms_negative (set_eff_masses nn pn st) = false
  /\ Sample.model (set_eff_masses nn pn st).
Proof.
  intros Hst.
  pose proof Hst as
    (Hsel & Htest & Hcs & Hparms & Hmax & Hecv & Ha & Hb & Hal & Hbe
     & Hqa & Hqb & Hn0 & Hsk & Hem & Hnm & Hpm).
  split.
  - unfold ms_negative, set_eff_masses. cbv zeta.
    cbn [neutron proton set_neutron set_proton].
    unfold fermion.set_ms, fermion.set_n.
    cbn [fermion.ms fermion.m fermion.n].
    rewrite Hsk, Hnm, Hpm.
    cbn [Sample.zero_skyrme eos_had_skyrme.t1 eos_had_skyrme.t2
         eos_had_skyrme.x1 eos_had_skyrme.x2].
    replace (0.25 * (0 * (1.0 + 0 / 2.0) + 0 * (1.0 + 0 / 2.0))) with 0
      by (unfold Rdiv; ring).
    replace (0.25 * (0 * (0.5 + 0) - 0 * (0.5 + 0))) with 0 by ring.
    replace (4.76 / (1.0 + 2.0 * ((nn + pn) * 0 + nn * 0) * 4.76)) with 4.76
      by (decimals; field; lra).
    replace (4.76 / (1.0 + 2.0 * ((nn + pn) * 0 + pn * 0) * 4.76)) with 4.76
      by (decimals; field; lra).
    rewrite Rltb_false by lra. reflexivity.
  - unfold set_eff_masses. cbv zeta.
    apply model_set_proton; [apply model_set_neutron |]; try assumption.
Qed.

Lemma sample_beta_eq_loop (st : eos) :
  Sample.model st ->
  exists st' : eos,
    beta_eq_loop Sample.lib Sample.vs st = Ok (inl st') /\ Sample.model st'.
Proof.
  intros Hst. unfold beta_eq_loop, for_loop.
  apply (for_fuel_completes Sample.model 0.1); [lra | | lra | exact Hst].
  intros nbx s Hnbx Hs. cbv zeta.
  cbn [Sample.lib Sample.lib_with msolve1 bind fst snd Z.eqb negb].
  rewrite Rltb_false, Rgtb_false by lra. cbn [orb].
  eexists. split; [reflexivity |].
  repeat split; apply Hs.
Qed.

(** A proof of a statement after unfolding is a proof of the statement;
    applying this keeps later conversions relative to the unfolded
    statement. *)
Lemma unfolded (P : Prop) : P -> P.
Proof. exact (fun H => H). Qed.

(** [select_internal] accepts the sample parameters: it returns 0 and
    leaves the sample model. *)
Lemma sample_select_internal :
  exists st' : eos,
    select_internal Sample.lib Sample.vs Sample.st 0 0 0 (-1) 0 28 0.5
    = Ok (0%Z, st')
    /\ Sample.model st'.
Proof.
  cbv delta [select_internal]. cbv beta. cbv zeta.
  apply unfolded.
  match goal with
  | |- context [ns_fit ?l ?s ?r] =>
      change (ns_fit l s r) with (ns_fit (Sample.lib_with 1000) s 0%Z)
  end.
  rewrite (sample_ns_fit 1000) by reflexivity.
  cbn [bind].
  rewrite zero_parms_min_max_cs2 by reflexivity. cbn [fst snd].
  destruct (Rlt_dec 0 0.0) as [Hneg | _]; [lra |].
  match goal with
  | |- context [Rgtb ?a ?b || Rltb ?c ?d] =>
      change (Rgtb a b || Rltb c d)
        with (Rgtb (9.17 * 28 - 266.0) 0 || Rltb (14.3 * 28 - 379.0) 0)
  end.
  rewrite Rgtb_false, Rltb_false by lra. cbn [orb].
  match goal with
  | |- context [Rltb ?a ?b || Rgtb ?c ?d] =>
      change (Rltb a b || Rgtb c d)
        with (Rltb (28 + -28 - -1) 0.0
              || Rgtb ((0 / 3.0 - -1 * 0) / (28 + -28 - -1)) 5.0)
  end.
  replace (28 + -28 - -1) with 1 by lra.
  rewrite Rgtb_false, Rltb_false by lra. cbn [orb].
  match goal with
  | |- context [dineutron_loop _ ?s] => set (std := s)
  end.
  assert (Hstd : Sample.model std).
  { do 9 (split; [reflexivity |]).
    split.
    { change (qmc_beta std) with ((0 / 3.0 - -1 * 0) / (28 + -28 - -1)).
      unfold Rdiv. ring. }
    split; [reflexivity |].
    split.
    { change (qmc_b std) with (28 + -28 - -1). lra. }
    repeat split; reflexivity. }
  destruct (sample_dineutron_loop std Hstd) as (s2 & E2 & Hs2).
  rewrite E2. cbn [bind].
  destruct (sample_set_eff_masses 1.0 1.0 s2 Hs2) as (N1 & Hs3).
  rewrite N1.
  destruct (sample_set_eff_masses 2.0 0.0 _ Hs3) as (N2 & Hs4).
  rewrite N2.
  destruct (sample_set_eff_masses 0.0 2.0 _ Hs4) as (N3 & Hs5).
  rewrite N3.
  destruct (sample_beta_eq_loop _ Hs5) as (s6 & E6 & Hs6).
  rewrite E6. cbn [bind].
  assert (Hs7 : Sample.model (set_model_selected true s6))
    by (repeat split; apply Hs6).
  replace (select_cs2_test (set_model_selected true s6)) with true
    by (symmetry; apply Hs7).
  destruct (sample_cs2_test_loop _ Hs7) as (s8 & E8 & Hs8).
  rewrite E8. cbn [bind].
  exists (fst s8). split; [reflexivity | exact Hs8].
Qed.

(** The sample library leaves the objects as they are, and a library that
    evaluates the function it is given passes the objects through it. *)
Lemma sample_calls_back_only (slope : R) :
  calls_back_only (Sample.lib_with slope).
Proof.
  split.
  - intros W P x0 f w r _ Hw H. cbn in H. apply Ok_inj in H. subst r.
    exact Hw.
  - intros W P x0 f w r _ Hw H. cbn in H. apply Ok_inj in H. subst r.
    exact Hw.
Qed.

Lemma calling_calls_back_only : calls_back_only Sample.lib_calling.
Proof.
  split.
  - intros W P x0 f w r Hf Hw H. cbn [msolve1 Sample.lib_calling] in H.
    apply bind_Ok_inv in H as (a & Ea & H). apply Ok_inj in H. subst r.
    exact (Hf _ _ _ Hw Ea).
  - intros W P x0 f w r Hf Hw H. cbn [deriv Sample.lib_calling] in H.
    apply bind_Ok_inv in H as (a & Ea & H).
    apply bind_Ok_inv in H as (b & Eb & H). apply Ok_inj in H. subst r.
    exact (Hf _ _ _ (Hf _ _ _ Hw Ea) Eb).
Qed.

(** C6 (as amended), on the sample: [select_internal] accepts the sample
    parameters, with [select_cs2_test] set, after a sound speed test that
    covered the grid on the objects that hold the candidate. *)
Lemma select_internal_cs2_not_negative_witness :
  0 < hc_mev_fm Sample.lib
  /\ calls_back_only Sample.lib
  /\ exists (st' fitted st1 : eos) (log : list cs2_sample),
       select_internal Sample.lib Sample.vs Sample.st 0 0 0 (-1) 0 28 0.5
       = Ok (0%Z, st')
       /\ holds_candidate Sample.lib Sample.st fitted 0 0 0 (-1) 0 28 0.5 st1
       /\ holds_candidate Sample.lib Sample.st fitted 0 0 0 (-1) 0 28 0.5 st'
       /\ cs2_evaluated Sample.lib Sample.vs st1 log st'
       /\ map cs_point log = validation_grid (hc_mev_fm Sample.lib)
       /\ Forall (fun e => ~ cs_cs2x e < 0) log.
Proof.
  assert (Hhc : 0 < hc_mev_fm Sample.lib) by (change (0 < 197.33); lra).
  pose proof (sample_calls_back_only 1000) as Hlib.
  split; [exact Hhc |]. split; [exact Hlib |].
  destruct sample_select_internal as (st' & E & _).
  exists st'.
  destruct (select_internal_cs2_not_negative Sample.lib Sample.vs Sample.st
              0 0 0 (-1) 0 28 0.5 Hhc Hlib)
    as [(f & _ & Hf) |
        (fitted & _ & [(c & s & Hc & Er) |
                        [(s & f & _ & _ & Hf) | (st1 & Hst1 & T)]])].
  - rewrite E in Hf. discriminate Hf.
  - rewrite E in Er. apply Ok_inj in Er. injection Er as <- _.
    exfalso. apply Hc. reflexivity.
  - rewrite E in Hf. discriminate Hf.
  - exists fitted, st1.
    assert (Esel : select_cs2_test Sample.st = true) by reflexivity.
    rewrite Esel in T.
    destruct T
      as (log & s & Hev & Hnn & Hs &
          [[Eg Er] | (p & rest & _ & [(x & w & _ & _ & Er) | (f & _ & Hf)])]).
    + rewrite E in Er. apply Ok_inj in Er. injection Er as <-.
      exists log. split; [exact E |]. split; [exact Hst1 |].
      split; [exact Hs |]. split; [exact Hev |].
      split; [exact Eg | exact Hnn].
    + rewrite E in Er. discriminate Er.
    + rewrite E in Hf. discriminate Hf.
Defined.

(** C6, the claim as stated fails: the sound speed test only looks for
    negative values.  On the sample, where the derivative routine returns
    1000 for every derivative, [select_internal] returns 0 with the model
    selected, and at the first point of the grid ([nb = 0.1], [Ye = 0.05],
    [T = 1] MeV) [cs2_fixYe] on the accepted object returns a value that
    is not below one. *)
Lemma select_internal_accepts_superluminal_sound_speed :
  exists (st' : eos) (c : R) (w : world),
    select_internal Sample.lib Sample.vs Sample.st 0 0 0 (-1) 0 28 0.5
    = Ok (0%Z, st')
    /\ model_selected st' = true
    /\ In (0.1, 0.05, 1.0 / hc_mev_fm Sample.lib)
         (validation_grid (hc_mev_fm Sample.lib))
    /\ cs2_fixYe Sample.lib Sample.vs
         (members
            (set_proton (fermion.set_n (0.1 * 0.05) (proton st'))
               (set_neutron
                  (fermion.set_n (0.1 * (1.0 - 0.05)) (neutron st')) st')))
         (1.0 / hc_mev_fm Sample.lib)
       = Ok (c, w)
    /\ ~ (0 <= c < 1).
Proof.
  destruct sample_select_internal as (st' & E & Hst').
  destruct (sample_cs2_fixYe
              (members
                 (set_proton (fermion.set_n (0.1 * 0.05) (proton st'))
                    (set_neutron
                       (fermion.set_n (0.1 * (1.0 - 0.05)) (neutron st'))
                       st')))
              (1.0 / hc_mev_fm Sample.lib)) as (c & w & Ec & Hc & _).
  - unfold members. split; [| split].
    + cbn [w_eos]. apply model_set_proton; [| apply Hst'].
      apply model_set_neutron; [exact Hst' | apply Hst'].
    + cbn [w_n]. apply Hst'.
    + cbn [w_p]. apply Hst'.
  - unfold members. cbn [w_n w_p neutron proton set_neutron set_proton].
    unfold fermion.set_n. cbn [fermion.n].
    change (hc_mev_fm Sample.lib) with 197.33.
    repeat split; lra.
  - exists st', c, w.
    split; [exact E |].
    split; [apply Hst' |].
    split; [| split; [exact Ec | lra]].
    unfold validation_grid. apply in_flat_map. exists 0.1. split.
    { change 39%nat with (S 38). rewrite grid_points_shift. left. reflexivity. }
    apply in_flat_map. exists 0.05. split.
    { change 5%nat with (S 4). rewrite grid_points_shift. left. reflexivity. }
    apply in_map_iff. exists (1.0 / hc_mev_fm Sample.lib). split.
    { reflexivity. }
    change 2%nat with (S 1). rewrite grid_points_shift. left. reflexivity.
Qed.

(** * Further properties

    Properties of the functions around those above: the virial
    coefficients and the fit of the neutron star table with their
    derivatives, the neutron star fit, the return codes of the validator,
    the member functions on top of [free_energy_density] and the
    electron-photon EOS. *)

(** ** Derivatives *)

Lemma Int_part_2 : Int_part 2.0 = 2%Z.
Proof.
  unfold Int_part.
  assert (H : 3%Z = up 2.0).
  { apply tech_up; [change (IZR 3) with 3; lra | change (IZR 3) with 3; lra]. }
  rewrite <- H. reflexivity.
Qed.

Lemma pow_2 (x : R) : pow x 2.0 = x * x.
Proof.
  unfold pow. destruct (Rlt_dec 0 x) as [Hx | Hx].
  - replace 2.0 with (1 + 1) by lra.
    rewrite Rpower_plus, Rpower_1 by exact Hx. reflexivity.
  - rewrite Int_part_2.
    destruct (Req_dec_T 2.0 (IZR 2)) as [_ | Hn]; [| exfalso; apply Hn; lra].
    simpl. ring.
Qed.

Lemma Rpower_one_base (y : R) : Rpower 1 y = 1.
Proof. unfold Rpower. rewrite ln_1, Rmult_0_r. apply exp_0. Qed.

(** The rules of differentiation, with the derivative of the result
    written from those of the parts. *)
Section Derivatives.

Variables (f g : R -> R) (x lf lg : R).

Lemma dlim_eq (l : R) :
  derivable_pt_lim f x lf -> lf = l -> derivable_pt_lim f x l.
Proof. intros H <-. exact H. Qed.

Lemma dlim_const (c : R) : derivable_pt_lim (fun _ => c) x 0.
Proof. exact (derivable_pt_lim_const c x). Qed.

Lemma dlim_id : derivable_pt_lim (fun t => t) x 1.
Proof. exact (derivable_pt_lim_id x). Qed.

Lemma dlim_plus :
  derivable_pt_lim f x lf -> derivable_pt_lim g x lg ->
  derivable_pt_lim (fun t => f t + g t) x (lf + lg).
Proof. exact (derivable_pt_lim_plus f g x lf lg). Qed.

Lemma dlim_minus :
  derivable_pt_lim f x lf -> derivable_pt_lim g x lg ->
  derivable_pt_lim (fun t => f t - g t) x (lf - lg).
Proof. exact (derivable_pt_lim_minus f g x lf lg). Qed.

Lemma dlim_mult :
  derivable_pt_lim f x lf -> derivable_pt_lim g x lg ->
  derivable_pt_lim (fun t => f t * g t) x (lf * g x + f x * lg).
Proof. exact (derivable_pt_lim_mult f g x lf lg). Qed.

Lemma dlim_opp :
  derivable_pt_lim f x lf -> derivable_pt_lim (fun t => - f t) x (- lf).
Proof. exact (derivable_pt_lim_opp f x lf). Qed.

Lemma dlim_div_const (c : R) :
  derivable_pt_lim f x lf -> derivable_pt_lim (fun t => f t / c) x (lf / c).
Proof.
  intros H. unfold Rdiv.
  pose proof (derivable_pt_lim_mult f (fun _ => / c) x lf 0 H
                (derivable_pt_lim_const (/ c) x)) as H1.
  replace (lf * / c) with (lf * / c + f x * 0) by ring. exact H1.
Qed.

Lemma dlim_exp :
  derivable_pt_lim f x lf ->
  derivable_pt_lim (fun t => exp (f t)) x (exp (f x) * lf).
Proof.
  intros H.
  exact (derivable_pt_lim_comp f exp x lf (exp (f x)) H
           (derivable_pt_lim_exp (f x))).
Qed.

Lemma dlim_sqrt :
  0 < f x -> derivable_pt_lim f x lf ->
  derivable_pt_lim (fun t => sqrt (f t)) x (lf / (2 * sqrt (f x))).
Proof.
  intros Hpos H.
  pose proof (derivable_pt_lim_comp f sqrt x lf (/ (2 * sqrt (f x))) H
                (derivable_pt_lim_sqrt (f x) Hpos)) as H1.
  replace (lf / (2 * sqrt (f x))) with (/ (2 * sqrt (f x)) * lf)
    by (unfold Rdiv; ring).
  exact H1.
Qed.

End Derivatives.

Ltac dlim_step :=
  lazymatch goal with
  | |- derivable_pt_lim (fun _ => ?c) _ _ => apply dlim_const
  | |- derivable_pt_lim (fun t => t) _ _ => apply dlim_id
  | |- derivable_pt_lim (fun t => @?f t + @?g t) ?x _ =>
      apply (dlim_plus f g x)
  | |- derivable_pt_lim (fun t => @?f t - @?g t) ?x _ =>
      apply (dlim_minus f g x)
  | |- derivable_pt_lim (fun t => @?f t * @?g t) ?x _ =>
      apply (dlim_mult f g x)
  | |- derivable_pt_lim (fun t => @?f t / ?c) ?x _ =>
      apply (dlim_div_const f x)
  | |- derivable_pt_lim (fun t => - @?f t) ?x _ =>
      apply (dlim_opp f x)
  | |- derivable_pt_lim (fun t => exp (@?f t)) ?x _ =>
      apply (dlim_exp f x)
  end.

(** Differentiate a polynomial in exponentials; what is left is the
    equality of the derivative found with the one stated. *)
Ltac dlim := eapply dlim_eq; [repeat dlim_step |].

(** The derivative of [f(c*t)]. *)
Lemma dlim_scaled (f : R -> R) (c x l : R) :
  derivable_pt_lim f (x * c) l ->
  derivable_pt_lim (fun t => f (t * c)) x (l * c).
Proof.
  intros H.
  assert (H1 : derivable_pt_lim (fun t => t * c) x c).
  { eapply dlim_eq.
    - apply (dlim_mult (fun t => t) (fun _ => c));
        [apply dlim_id | apply dlim_const].
    - cbv beta. ring. }
  exact (derivable_pt_lim_comp (fun t => t * c) f x c l H1 H).
Qed.

(** The derivative of [(x/c)^y] at [x = c]. *)
Lemma dlim_Rpower_scaled (c y : R) :
  0 < c -> derivable_pt_lim (fun x => Rpower (x / c) y) c (y / c).
Proof.
  intros Hc.
  assert (H1 : derivable_pt_lim (fun x => x / c) c (1 / c)).
  { apply (dlim_div_const (fun x => x) c 1 c). apply dlim_id. }
  assert (H2 : derivable_pt_lim (fun x => Rpower x y) (c / c)
                 (y * Rpower (c / c) (y - 1))).
  { apply derivable_pt_lim_power. unfold Rdiv. rewrite Rinv_r; lra. }
  pose proof (derivable_pt_lim_comp _ _ _ _ _ H1 H2) as H3.
  replace (y / c) with (y * Rpower (c / c) (y - 1) * (1 / c)).
  - exact H3.
  - unfold Rdiv at 1. rewrite Rinv_r by lra. rewrite Rpower_one_base.
    unfold Rdiv. ring.
Qed.

(** The thermal wavelength [sqrt(4 pi/M/T)] and its derivative. *)
Lemma dlim_thermal_wavelength (M T : R) :
  0 < M -> 0 < T ->
  derivable_pt_lim (fun t => sqrt (4.0 * PI / M / t)) T
    (- sqrt (PI / M) / pow (sqrt T) 3.0).
Proof.
  intros HM HT.
  pose proof PI_RGT_0 as Hpi.
  assert (Hs : 0 < sqrt T) by (apply sqrt_lt_R0; exact HT).
  assert (Hss : sqrt T * sqrt T = T) by (apply sqrt_sqrt; lra).
  assert (HpM : 0 < PI / M) by (apply Rdiv_lt_0_compat; assumption).
  assert (Hr : 0 < sqrt (PI / M)) by (apply sqrt_lt_R0; exact HpM).
  assert (Hrr : sqrt (PI / M) * sqrt (PI / M) = PI / M)
    by (apply sqrt_sqrt; lra).
  assert (Hl : sqrt (4.0 * PI / M / T) = 2 * sqrt (PI / M) / sqrt T).
  { replace (4.0 * PI / M / T) with (4 * (PI / M) / T)
      by (decimals; field; split; lra).
    rewrite sqrt_div_alt by exact HT.
    rewrite sqrt_mult by lra.
    replace 4 with (2 * 2) by lra. rewrite sqrt_square by lra. reflexivity. }
  rewrite pow_3 by exact Hs.
  assert (Hinv : derivable_pt_lim (fun t => 4.0 * PI / M / t) T
                   (- (4.0 * PI / M) / (T * T))).
  { pose proof (derivable_pt_lim_div (fun _ => 4.0 * PI / M) (fun t => t) T
                  0 1 (derivable_pt_lim_const _ T) (derivable_pt_lim_id T)
                  ltac:(lra)) as H1.
    eapply dlim_eq; [exact H1 |].
    unfold Rsqr. field. lra. }
  eapply dlim_eq.
  - apply (dlim_sqrt (fun t => 4.0 * PI / M / t)); [| exact Hinv].
    cbv beta. apply Rdiv_lt_0_compat; [| exact HT].
    apply Rdiv_lt_0_compat; [| exact HM]. lra.
  - cbv beta. rewrite Hl.
    set (s := sqrt T) in *. set (r := sqrt (PI / M)) in *.
    replace (4.0 * PI / M) with (4 * (r * r))
      by (rewrite Hrr; decimals; field; lra).
    rewrite <- Hss. field. split; lra.
Qed.

(** ** The virial coefficients *)

Lemma bn_f_derivative (v : eos_crust_virial_v2.t) (T : R) :
  derivable_pt_lim (eos_crust_virial_v2.bn_f v) T
    (eos_crust_virial_v2.dbndT_f v T).
Proof.
  unfold eos_crust_virial_v2.dbndT_f. cbv zeta.
  set (p := eos_crust_virial_v2.bn_params v).
  set (p0 := idx p 0). set (p1 := idx p 1). set (p2 := idx p 2).
  set (p3 := idx p 3). set (p4 := idx p 4). set (p5 := idx p 5).
  set (p6 := idx p 6). set (p7 := idx p 7). set (p8 := idx p 8).
  set (p9 := idx p 9).
  apply (derivable_pt_lim_ext
           (fun T => p0 + p1 * T + p2 * T * T + p3 * T * T * T
                     + p4 * exp (- p5 * ((T - p6) * (T - p6)))
                     + p7 * exp (- p8 * (T - p9)))).
  { intros t. unfold eos_crust_virial_v2.bn_f, eos_crust_virial_v2.bn_func.
    fold p. fold p0 p1 p2 p3 p4 p5 p6 p7 p8 p9. rewrite pow_2. reflexivity. }
  rewrite pow_2.
  dlim. replace 2.0 with 2 by lra. replace 3.0 with 3 by lra. ring.
Qed.

Lemma bpn_f_derivative (v : eos_crust_virial_v2.t) (T : R) :
  derivable_pt_lim (eos_crust_virial_v2.bpn_f v) T
    (eos_crust_virial_v2.dbpndT_f v T).
Proof.
  unfold eos_crust_virial_v2.dbpndT_f. cbv zeta.
  set (p := eos_crust_virial_v2.bpn_params v).
  set (p0 := idx p 0). set (p1 := idx p 1). set (p2 := idx p 2).
  set (p3 := idx p 3). set (p4 := idx p 4). set (p5 := idx p 5).
  apply (derivable_pt_lim_ext
           (fun T => p0 * exp (- p1 * (T + p2) * (T + p2))
                     + p3 * exp (- p4 * (T + p5)))).
  { intros t. reflexivity. }
  dlim. replace 2.0 with 2 by lra. ring.
Qed.

(** X1.  With ten parameters for [b_n] and six for [b_pn], as the
    constructor of [eos_crust_virial_v2] sets them, [dbndT_f] is the
    derivative of [bn_f] and [dbpndT_f] the derivative of [bpn_f] with
    respect to the temperature, at every temperature. *)
Theorem virial_coefficient_derivatives (v : eos_crust_virial_v2.t) (T : R) :
  List.length (eos_crust_virial_v2.bn_params v) = 10%nat ->
  List.length (eos_crust_virial_v2.bpn_params v) = 6%nat ->
  derivable_pt_lim (eos_crust_virial_v2.bn_f v) T
    (eos_crust_virial_v2.dbndT_f v T)
  /\ derivable_pt_lim (eos_crust_virial_v2.bpn_f v) T
       (eos_crust_virial_v2.dbpndT_f v T).
Proof.
  intros _ _. split.
  - apply bn_f_derivative.
  - apply bpn_f_derivative.
Qed.

Lemma virial_coefficient_derivatives_witness :
  derivable_pt_lim (eos_crust_virial_v2.bn_f eos_crust_virial_v2.init) 10
    (eos_crust_virial_v2.dbndT_f eos_crust_virial_v2.init 10)
  /\ derivable_pt_lim (eos_crust_virial_v2.bpn_f eos_crust_virial_v2.init) 10
       (eos_crust_virial_v2.dbpndT_f eos_crust_virial_v2.init 10).
Proof.
  apply (virial_coefficient_derivatives eos_crust_virial_v2.init 10);
    reflexivity.
Defined.

Section VirialTemperature.

Variable lib : o2scl.
Variable vs : virial_methods.

(** X2.  The temperature derivatives that [free_energy_density_virial]
    leaves in the solver object [acl] ([dbndT], [dbpndT], [dlambdadT]) are
    the derivatives, with respect to the temperature it is called with, of
    the [b_n], [b_pn] and [lambda] it leaves there (for a positive
    temperature and positive masses). *)
Theorem free_energy_density_virial_temperature_derivatives (st : eos)
    (n p : fermion.t) (T : R) (th : thermo.t) :
  0 < T -> 0 < fermion.m n + fermion.m p ->
  let a (t : R) :=
    acl (v_eos (free_energy_density_virial lib vs st n p t th)) in
  derivable_pt_lim (fun t => virial_solver.b_n (a t)) T
    (virial_solver.dbndT (a T))
  /\ derivable_pt_lim (fun t => virial_solver.b_pn (a t)) T
       (virial_solver.dbpndT (a T))
  /\ derivable_pt_lim (fun t => virial_solver.lambda (a t)) T
       (virial_solver.dlambdadT (a T)).
Proof.
  intros HT HM a.
  split; [| split].
  - change (derivable_pt_lim
              (fun t => eos_crust_virial_v2.bn_f (ecv st) (t * hc_mev_fm lib))
              T
              (eos_crust_virial_v2.dbndT_f (ecv st) (T * hc_mev_fm lib)
               * hc_mev_fm lib)).
    apply (dlim_scaled (eos_crust_virial_v2.bn_f (ecv st))).
    apply bn_f_derivative.
  - change (derivable_pt_lim
              (fun t => eos_crust_virial_v2.bpn_f (ecv st) (t * hc_mev_fm lib))
              T
              (eos_crust_virial_v2.dbpndT_f (ecv st) (T * hc_mev_fm lib)
               * hc_mev_fm lib)).
    apply (dlim_scaled (eos_crust_virial_v2.bpn_f (ecv st))).
    apply bpn_f_derivative.
  - change (derivable_pt_lim
              (fun t => sqrt (4.0 * PI / (fermion.m n + fermion.m p) / t)) T
              (- sqrt (PI / (fermion.m n + fermion.m p)) / pow (sqrt T) 3.0)).
    apply dlim_thermal_wavelength; assumption.
Qed.

(** X3.  In the dilute branch (both [n*lambda^3] at most [1e-5], positive
    densities, temperature and masses) the virial gas is an ideal gas:
    the pressure is [(n_n+n_p)*T], the energy density [3/2*(n_n+n_p)*T],
    the entropy density that of Sackur and Tetrode, and the value returned
    is the free energy [ed - T*en]. *)
Theorem free_energy_density_virial_ideal_gas (st : eos) (n p : fermion.t)
    (T : R) (th : thermo.t) :
  let lambda := sqrt (4.0 * PI / (fermion.m n + fermion.m p) / T) in
  let nn := fermion.n n in
  let pn := fermion.n p in
  let v := free_energy_density_virial lib vs st n p T th in
  nn * pow lambda 3 <= 1.0e-5 -> pn * pow lambda 3 <= 1.0e-5 ->
  0 < nn -> 0 < pn -> 0 < T -> 0 < fermion.m n + fermion.m p ->
  thermo.pr (v_th v) = (nn + pn) * T
  /\ thermo.ed (v_th v) = (nn + pn) * T + (nn + pn) * T / 2
  /\ thermo.en (v_th v)
     = nn * (5 / 2 - ln (nn * pow lambda 3 / 2))
       + pn * (5 / 2 - ln (pn * pow lambda 3 / 2))
  /\ v_f_vir v = thermo.ed (v_th v) - T * thermo.en (v_th v).
Proof.
  intros lambda nn pn v.
  assert (E3 : pow lambda 3 = pow lambda 3.0) by (f_equal; lra).
  rewrite E3. clear E3.
  intros Hn Hp Hnn Hpn HT Hm.
  assert (Hd := virial_dilute_test nn pn (pow lambda 3.0) Hn Hp).
  assert (Hl : 0 < lambda).
  { apply sqrt_lt_R0. decimals.
    apply Rdiv_lt_0_compat; [| assumption].
    apply Rdiv_lt_0_compat; [| assumption].
    pose proof PI_RGT_0. lra. }
  assert (Hl3 : 0 < pow lambda 3.0).
  { rewrite pow_3 by assumption.
    repeat apply Rmult_lt_0_compat; assumption. }
  set (l3 := pow lambda 3.0) in *.
  assert (Hzn : exp (log (nn * l3 / 2.0) * T / T) = nn * l3 / 2).
  { unfold log.
    replace (ln (nn * l3 / 2.0) * T / T) with (ln (nn * l3 / 2.0))
      by (field; lra).
    rewrite exp_ln; [lra |]. apply Rdiv_lt_0_compat; [| lra].
    apply Rmult_lt_0_compat; assumption. }
  assert (Hzp : exp (log (pn * l3 / 2.0) * T / T) = pn * l3 / 2).
  { unfold log.
    replace (ln (pn * l3 / 2.0) * T / T) with (ln (pn * l3 / 2.0))
      by (field; lra).
    rewrite exp_ln; [lra |]. apply Rdiv_lt_0_compat; [| lra].
    apply Rmult_lt_0_compat; assumption. }
  assert (Hpr : thermo.pr (v_th v) = (nn + pn) * T).
  { unfold v, free_energy_density_virial. cbv zeta.
    fold nn pn lambda. fold l3. rewrite Hd. cbn [v_th thermo.pr].
    rewrite Hzn, Hzp. replace 2.0 with 2 by lra. field. lra. }
  assert (Hen : thermo.en (v_th v)
                = 5 * thermo.pr (v_th v) / 2 / T
                  - nn * ln (nn * l3 / 2) - pn * ln (pn * l3 / 2)).
  { unfold v, free_energy_density_virial. cbv zeta.
    fold nn pn lambda. fold l3. rewrite Hd. cbn [v_th thermo.pr thermo.en].
    rewrite Hzn, Hzp. unfold log.
    replace 2.0 with 2 by lra. replace 5.0 with 5 by lra. reflexivity. }
  assert (Hed : thermo.ed (v_th v) = v_f_vir v + T * thermo.en (v_th v)).
  { unfold v, free_energy_density_virial. cbv zeta. reflexivity. }
  assert (Hf : v_f_vir v
               = ln (nn * l3 / 2) * T * nn + ln (pn * l3 / 2) * T * pn
                 - thermo.pr (v_th v)).
  { unfold v, free_energy_density_virial. cbv zeta.
    fold nn pn lambda. fold l3. rewrite Hd. cbn [v_th v_f_vir thermo.pr].
    unfold log. replace 2.0 with 2 by lra. reflexivity. }
  split; [exact Hpr |].
  split.
  { rewrite Hed, Hf, Hen, Hpr. field. lra. }
  split.
  { rewrite Hen, Hpr. field. lra. }
  rewrite Hed. ring.
Qed.

End VirialTemperature.

Lemma free_energy_density_virial_temperature_derivatives_witness :
  derivable_pt_lim
    (fun t =>
       virial_solver.lambda
         (acl (v_eos (free_energy_density_virial Sample.lib Sample.vs
                        Sample.st Sample.dilute_n Sample.dilute_p t
                        Sample.zero_thermo))))
    Sample.dilute_T
    (virial_solver.dlambdadT
       (acl (v_eos (free_energy_density_virial Sample.lib Sample.vs
                      Sample.st Sample.dilute_n Sample.dilute_p
                      Sample.dilute_T Sample.zero_thermo)))).
Proof.
  assert (HT : 0 < Sample.dilute_T) by (unfold Sample.dilute_T; lra).
  assert (HM : 0 < fermion.m Sample.dilute_n + fermion.m Sample.dilute_p)
    by (cbn [Sample.dilute_n Sample.dilute_p Sample.nucleon fermion.m]; lra).
  exact (proj2 (proj2
           (free_energy_density_virial_temperature_derivatives Sample.lib
              Sample.vs Sample.st Sample.dilute_n Sample.dilute_p
              Sample.dilute_T Sample.zero_thermo HT HM))).
Defined.

Lemma free_energy_density_virial_ideal_gas_witness :
  (fermion.n Sample.dilute_n * pow Sample.dilute_lambda 3 <= 1.0e-5 /\
   fermion.n Sample.dilute_p * pow Sample.dilute_lambda 3 <= 1.0e-5) /\
  thermo.pr
    (v_th (free_energy_density_virial Sample.lib Sample.vs Sample.st
             Sample.dilute_n Sample.dilute_p Sample.dilute_T
             Sample.zero_thermo))
  = (fermion.n Sample.dilute_n + fermion.n Sample.dilute_p) * Sample.dilute_T.
Proof.
  pose proof dilute_sample_is_dilute as [Hn Hp].
  split; [split; lra |].
  apply (free_energy_density_virial_ideal_gas Sample.lib Sample.vs
           Sample.st Sample.dilute_n Sample.dilute_p Sample.dilute_T
           Sample.zero_thermo).
  - apply Rlt_le. exact Hn.
  - apply Rlt_le. exact Hp.
  - cbn [Sample.dilute_n Sample.nucleon fermion.n]. lra.
  - cbn [Sample.dilute_p Sample.nucleon fermion.n]. lra.
  - unfold Sample.dilute_T. lra.
  - cbn [Sample.dilute_n Sample.dilute_p Sample.nucleon fermion.m]. lra.
Defined.

(** ** The fit of the neutron star table *)

Section FitDerivatives.

Variable lib : o2scl.

(** X4.  The chemical potential [mu_fit] is the derivative of the energy
    density [ed_fit] with respect to the baryon density, and [dmudn_fit]
    is the derivative of [mu_fit]: for the fit in powers of [sqrt(nb)]
    ([old_ns_fit]) at every positive density, for the polynomial fit at
    every density. *)
Theorem fit_derivatives (st : eos) (nb : R) :
  (old_ns_fit st = true -> 0 < nb) ->
  derivable_pt_lim (ed_fit lib st) nb (mu_fit lib st nb)
  /\ derivable_pt_lim (mu_fit lib st) nb (dmudn_fit lib st nb).
Proof.
  intros Hnb. unfold dmudn_fit. unfold mu_fit at 1. cbv zeta.
  set (p := ns_fit_parms st).
  set (p0 := idx p 0). set (p1 := idx p 1). set (p2 := idx p 2).
  set (p3 := idx p 3). set (p4 := idx p 4). set (hc := hc_mev_fm lib).
  destruct (old_ns_fit st) eqn:Eold.
  - specialize (Hnb eq_refl).
    assert (Hs : sqrt nb * sqrt nb = nb) by (apply sqrt_sqrt; lra).
    assert (Hs0 : 0 < sqrt nb) by (apply sqrt_lt_R0; exact Hnb).
    split.
    + apply (derivable_pt_lim_ext
               (fun nb => (sqrt nb * p0 + nb * p1 + nb * sqrt nb * p2
                           + nb * nb * p3 + nb * nb * nb * p4) * nb / hc)).
      { intros t. unfold ed_fit, fit_fun. rewrite Eold. reflexivity. }
      eapply dlim_eq.
      { repeat first [ dlim_step
                     | apply (dlim_sqrt (fun t => t)); [exact Hnb |] ]. }
      replace 1.5 with (3 / 2) by lra. replace 2.0 with 2 by lra.
      replace 2.5 with (5 / 2) by lra. replace 3.0 with 3 by lra.
      replace 4.0 with 4 by lra.
      unfold Rdiv. set (ihc := / hc).
      set (s := sqrt nb) in *.
      rewrite <- Hs. field. lra.
    + apply (derivable_pt_lim_ext
               (fun nb => (1.5 * sqrt nb * p0 + 2.0 * nb * p1
                           + 2.5 * nb * sqrt nb * p2 + 3.0 * nb * nb * p3
                           + 4.0 * nb * nb * nb * p4) / hc)).
      { intros t. unfold mu_fit. rewrite Eold. reflexivity. }
      eapply dlim_eq.
      { repeat first [ dlim_step
                     | apply (dlim_sqrt (fun t => t)); [exact Hnb |] ]. }
      replace 1.5 with (3 / 2) by lra. replace 2.0 with 2 by lra.
      replace 2.5 with (5 / 2) by lra. replace 3.0 with 3 by lra.
      replace 4.0 with 4 by lra. replace 0.75 with (3 / 4) by lra.
      replace 3.75 with (15 / 4) by lra. replace 6.0 with 6 by lra.
      replace 12.0 with 12 by lra.
      unfold Rdiv. set (ihc := / hc).
      set (s := sqrt nb) in *.
      rewrite <- Hs. field. lra.
  - split.
    + apply (derivable_pt_lim_ext
               (fun nb => (nb * p0 + nb * nb * p1 + nb * nb * nb * p2
                           + nb * nb * nb * nb * p3
                           + nb * nb * nb * nb * nb * p4) * nb / hc)).
      { intros t. unfold ed_fit, fit_fun. rewrite Eold. reflexivity. }
      dlim.
      replace 2.0 with 2 by lra. replace 3.0 with 3 by lra.
      replace 4.0 with 4 by lra. replace 5.0 with 5 by lra.
      replace 6.0 with 6 by lra. unfold Rdiv. ring.
    + apply (derivable_pt_lim_ext
               (fun nb => (2.0 * nb * p0 + 3.0 * nb * nb * p1
                           + 4.0 * nb * nb * nb * p2
                           + 5.0 * nb * nb * nb * nb * p3
                           + 6.0 * nb * nb * nb * nb * nb * p4) / hc)).
      { intros t. unfold mu_fit. rewrite Eold. reflexivity. }
      dlim.
      replace 2.0 with 2 by lra. replace 3.0 with 3 by lra.
      replace 4.0 with 4 by lra. replace 5.0 with 5 by lra.
      replace 6.0 with 6 by lra. replace 12.0 with 12 by lra.
      replace 20.0 with 20 by lra. replace 30.0 with 30 by lra.
      unfold Rdiv. ring.
Qed.

End FitDerivatives.

Lemma fit_derivatives_witness :
  derivable_pt_lim (ed_fit Sample.lib Sample.st) 1
    (mu_fit Sample.lib Sample.st 1)
  /\ derivable_pt_lim (mu_fit Sample.lib Sample.st) 1
       (dmudn_fit Sample.lib Sample.st 1).
Proof.
  apply (fit_derivatives Sample.lib Sample.st 1).
  intros _. lra.
Defined.

(** The loop of [min_max_cs2] on a function [f]: the pair it returns
    encloses the pair it starts from and the values of [f] at the densities
    of the loop, and each of its components is one of them. *)
Lemma minmax_fuel (f : R -> R) (bound step : R) :
  0 < step ->
  forall (fuel : nat) (x : R) (mm : R * R),
    let r :=
      snd (for_do_fuel fuel x bound step
             (fun nb (mm : R * R) =>
                (if Rlt_dec (f nb) (fst mm) then f nb else fst mm,
                 if Rgt_dec (f nb) (snd mm) then f nb else snd mm)) mm) in
    fst r <= fst mm /\ snd mm <= snd r
    /\ (forall k : nat, (k < fuel)%nat -> x + INR k * step < bound ->
          fst r <= f (x + INR k * step) <= snd r)
    /\ (fst r = fst mm
        \/ exists k : nat, x + INR k * step < bound
                           /\ fst r = f (x + INR k * step))
    /\ (snd r = snd mm
        \/ exists k : nat, x + INR k * step < bound
                           /\ snd r = f (x + INR k * step)).
Proof.
  intros Hstep. induction fuel as [| n IH]; intros x mm; cbn [for_do_fuel].
  - cbn [snd]. split; [lra |]. split; [lra |]. split; [| split].
    + intros j Hj. lia.
    + left. reflexivity.
    + left. reflexivity.
  - destruct (Rlt_dec x bound) as [Hx | Hx].
    + set (mm1 := (if Rlt_dec (f x) (fst mm) then f x else fst mm,
                   if Rgt_dec (f x) (snd mm) then f x else snd mm)).
      specialize (IH (x + step) mm1). cbv zeta in IH.
      destruct IH as (H1 & H2 & H3 & H4 & H5).
      set (r := snd (for_do_fuel n (x + step) bound step _ mm1)) in *.
      assert (Hm1 : fst mm1 <= fst mm /\ fst mm1 <= f x).
      { unfold mm1. cbn [fst]. destruct (Rlt_dec (f x) (fst mm)); lra. }
      assert (Hm2 : snd mm <= snd mm1 /\ f x <= snd mm1).
      { unfold mm1. cbn [snd]. destruct (Rgt_dec (f x) (snd mm)); lra. }
      assert (Hshift : forall j : nat,
                x + INR (S j) * step = x + step + INR j * step).
      { intros j. rewrite S_INR. ring. }
      split; [lra |]. split; [lra |]. split; [| split].
      * intros k Hk Hlt. destruct k as [| j].
        -- simpl INR. replace (x + 0 * step) with x by ring. lra.
        -- rewrite Hshift in *. apply H3; [lia | exact Hlt].
      * destruct H4 as [H4 | (j & Hj & H4)].
        -- unfold mm1 in H4. cbn [fst] in H4.
           destruct (Rlt_dec (f x) (fst mm)).
           ++ right. exists 0%nat. simpl INR.
              replace (x + 0 * step) with x by ring. split; assumption.
           ++ left. exact H4.
        -- right. exists (S j). rewrite Hshift. split; assumption.
      * destruct H5 as [H5 | (j & Hj & H5)].
        -- unfold mm1 in H5. cbn [snd] in H5.
           destruct (Rgt_dec (f x) (snd mm)).
           ++ right. exists 0%nat. simpl INR.
              replace (x + 0 * step) with x by ring. split; assumption.
           ++ left. exact H5.
        -- right. exists (S j). rewrite Hshift. split; assumption.
    + cbn [snd]. split; [lra |]. split; [lra |]. split; [| split].
      * intros k _ Hlt. exfalso. pose proof (pos_INR k). nra.
      * left. reflexivity.
      * left. reflexivity.
Qed.

(** The number of trips of the loop of [min_max_cs2] covers every density
    of the loop below the cutoff. *)
Lemma min_max_cs2_trips (nmax : R) (k : nat) :
  0.04 + INR k * 0.02 < nmax -> (k < trips 0.04 nmax 0.02)%nat.
Proof.
  intros Hk.
  assert (Hc : (S k <= trips 0.04 nmax 0.02)%nat).
  { apply trips_at_least; [lra |]. intros j Hj.
    assert (INR j <= INR k) by (apply le_INR; lia). nra. }
  lia.
Qed.

Section NeutronStarFit.

Variable lib : o2scl.

(** X5.  The pair that [min_max_cs2] returns bounds the sound speed of the
    fit at [nb = 0.08] and at every density [0.04 + 0.02 k] below
    [ns_nb_max], and both bounds are attained at one of these densities. *)
Theorem min_max_cs2_bounds (st : eos) :
  let mm := min_max_cs2 lib st in
  let scanned (nb : R) :=
    nb = 0.08
    \/ exists k : nat, nb = 0.04 + INR k * 0.02 /\ nb < ns_nb_max st in
  (forall nb, scanned nb -> fst mm <= cs2_fit lib st nb <= snd mm)
  /\ (exists nb, scanned nb /\ fst mm = cs2_fit lib st nb)
  /\ (exists nb, scanned nb /\ snd mm = cs2_fit lib st nb).
Proof.
  intros mm scanned.
  pose proof (minmax_fuel (cs2_fit lib st) (ns_nb_max st) 0.02 ltac:(lra)
                (trips 0.04 (ns_nb_max st) 0.02) 0.04
                (cs2_fit lib st 0.08, cs2_fit lib st 0.08)) as H.
  cbv zeta in H. cbn [fst snd] in H.
  change (snd (for_do_fuel _ _ _ _ _ _)) with mm in H.
  destruct H as (H1 & H2 & H3 & H4 & H5).
  split; [| split].
  - intros nb [-> | (k & -> & Hk)]; [lra |].
    apply H3; [| exact Hk]. apply min_max_cs2_trips. exact Hk.
  - destruct H4 as [H4 | (k & Hk & H4)].
    + exists 0.08. split; [left; reflexivity | exact H4].
    + exists (0.04 + INR k * 0.02). split; [| exact H4].
      right. exists k. split; [reflexivity | exact Hk].
  - destruct H5 as [H5 | (k & Hk & H5)].
    + exists 0.08. split; [left; reflexivity | exact H5].
    + exists (0.04 + INR k * 0.02). split; [| exact H5].
      right. exists k. split; [reflexivity | exact Hk].
Qed.

(** The minimum that [min_max_cs2] returns is a lower bound of the sound
    speed of the fit at 0.08 and at the densities of its loop. *)
Lemma min_max_cs2_lower (st : eos) (nb : R) :
  nb = 0.08
  \/ (exists k : nat, nb = 0.04 + INR k * 0.02 /\ nb < ns_nb_max st) ->
  fst (min_max_cs2 lib st) <= cs2_fit lib st nb.
Proof.
  pose proof (minmax_fuel (cs2_fit lib st) (ns_nb_max st) 0.02 ltac:(lra)
                (trips 0.04 (ns_nb_max st) 0.02) 0.04
                (cs2_fit lib st 0.08, cs2_fit lib st 0.08)) as H.
  cbv zeta in H. cbn [fst snd] in H.
  change (snd (for_do_fuel _ _ _ _ _ _)) with (min_max_cs2 lib st) in H.
  destruct H as (H1 & _ & H3 & _).
  intros [-> | (k & -> & Hk)]; [exact H1 |].
  apply H3; [| exact Hk]. apply min_max_cs2_trips. exact Hk.
Qed.

(** The rows of [nstar_high]: densities from [0.04 + 0.012 i] on, below
    [nmax + 0.000001], in increasing order. *)
Lemma nstar_high_rows_range (st : eos) (row : Z) (nmax : R) :
  forall (left i : nat),
    Forall (fun r => 0.04 + INR i * 0.012 <= fst r < nmax + 0.000001)
      (nstar_high_rows lib st row nmax left i)
    /\ StronglySorted (fun r r' : R * R => fst r <= fst r')
         (nstar_high_rows lib st row nmax left i).
Proof.
  induction left as [| k IH]; intros i.
  - split; constructor.
  - rewrite nstar_high_rows_step.
    destruct (Rlt_dec (0.04 + INR i * 0.012) (nmax + 0.000001)) as [Hi | _];
      [| split; constructor].
    destruct (IH (S i)) as [HF HS].
    assert (Hle : 0.04 + INR i * 0.012 <= 0.04 + INR (S i) * 0.012)
      by (rewrite S_INR; lra).
    assert (HF' : Forall
                    (fun r => 0.04 + INR i * 0.012 <= fst r < nmax + 0.000001)
                    (nstar_high_rows lib st row nmax k (S i))).
    { eapply Forall_impl; [| exact HF]. cbv beta. intros r Hr. lra. }
    destruct (Rgt_dec _ 1.0e-2) as [_ | _]; [| split; assumption].
    split.
    + constructor; [cbn [fst]; lra | exact HF'].
    + constructor; [exact HS |].
      eapply Forall_impl; [| exact HF']. cbv beta. cbn [fst]. intros r Hr. lra.
Qed.

(** The crossing density of [ns_fit] lies between the densities of the
    rows, if the loop assigns it at all. *)
Lemma nb_new_loop_range (lo hi : R) :
  forall (rows : list (R * R)) (v : R),
    Forall (fun r => lo <= fst r <= hi) rows ->
    StronglySorted (fun r r' : R * R => fst r <= fst r') rows ->
    nb_new_loop rows v = v \/ lo <= nb_new_loop rows v <= hi.
Proof.
  induction rows as [| [a ca] rows IH]; intros v HF HS.
  - left. reflexivity.
  - destruct rows as [| [b cb] rest]; [left; reflexivity |].
    rewrite nb_new_loop_step.
    inversion HF as [| ? ? Ha HF']; subst.
    inversion HS as [| ? ? HS' Hab]; subst.
    inversion Hab as [| ? ? Hab1 _]; subst.
    inversion HF' as [| ? ? Hb _]; subst.
    cbn [fst] in *.
    destruct (IH (if Rltb ca 1.0 && Rgtb cb 1.0
                  then a + (b - a) * (1.0 - ca) / (cb - ca) else v)
                HF' HS') as [E | E]; [| right; exact E].
    rewrite E.
    destruct (Rltb ca 1.0 && Rgtb cb 1.0) eqn:Ec; [| left; reflexivity].
    right. apply andb_prop in Ec as [E1 E2].
    unfold Rltb in E1. unfold Rgtb in E2.
    destruct (Rlt_dec ca 1.0) as [Hca |]; [| discriminate].
    destruct (Rgt_dec cb 1.0) as [Hcb |]; [| discriminate].
    assert (Ht : 0 <= (1.0 - ca) / (cb - ca) <= 1).
    { split.
      - apply Rmult_le_pos; [lra |].
        apply Rlt_le, Rinv_0_lt_compat. lra.
      - apply Rmult_le_reg_r with (r := cb - ca); [lra |].
        unfold Rdiv. rewrite Rmult_assoc, Rinv_l by lra. lra. }
    set (t := (1.0 - ca) / (cb - ca)) in *.
    replace (a + (b - a) * (1.0 - ca) / (cb - ca)) with (a + (b - a) * t)
      by (unfold t, Rdiv; ring).
    nra.
Qed.

(** The crossing loop keeps its initial value when the sound speed stays
    at or below one on every row. *)
Lemma nb_new_loop_below (rows : list (R * R)) (v : R) :
  Forall (fun r => snd r <= 1) rows -> nb_new_loop rows v = v.
Proof.
  revert v. induction rows as [| [a ca] rows IH]; intros v HF.
  - reflexivity.
  - destruct rows as [| [b cb] rest]; [reflexivity |].
    rewrite nb_new_loop_step.
    inversion HF as [| ? ? _ HF']; subst.
    inversion HF' as [| ? ? Hb _]; subst. cbn [snd] in Hb.
    rewrite (Rgtb_false cb 1.0) by lra.
    rewrite andb_false_r. apply IH. exact HF'.
Qed.

Lemma evaluated_rows_range (f : R -> R) (lo hi : R) :
  forall rows : list (R * R),
    Forall (fun r => lo <= fst r < hi) rows ->
    StronglySorted (fun r r' : R * R => fst r <= fst r') rows ->
    Forall (fun r => lo <= fst r <= hi)
      (map (fun nb => (nb, f nb)) (map fst rows))
    /\ StronglySorted (fun r r' : R * R => fst r <= fst r')
         (map (fun nb => (nb, f nb)) (map fst rows)).
Proof.
  induction rows as [| r rows IH]; intros HF HS.
  - split; constructor.
  - inversion HF as [| ? ? Hr HF']; subst.
    inversion HS as [| ? ? HS' Hrr]; subst.
    destruct (IH HF' HS') as [IF IS].
    cbn [map]. split.
    + constructor; [cbn [fst]; lra | exact IF].
    + constructor; [exact IS |].
      clear - Hrr. induction rows as [| r' rows IH]; [constructor |].
      inversion Hrr; subst. cbn [map]. constructor; [assumption | auto].
Qed.

(** The conversion to [size_t] of an [int] that is below a line count of
    at most [2^63]: the [int] is not negative, and unchanged. *)
Lemma size_t_of_int_below (i n : Z) :
  (- 2 ^ 31 <= i < 2 ^ 31)%Z -> (n <= 2 ^ 63)%Z ->
  (size_t_of_int i < n)%Z -> (0 <= i < n)%Z.
Proof.
  unfold size_t_of_int.
  change (2 ^ 31)%Z with 2147483648%Z.
  change (2 ^ 63)%Z with 9223372036854775808%Z.
  change (2 ^ 64)%Z with 18446744073709551616%Z.
  intros Hi Hn Hlt.
  destruct (Z.lt_ge_cases i 0) as [Hneg | Hpos].
  - assert (E : (i mod 18446744073709551616
                 = i + 18446744073709551616)%Z).
    { symmetry. apply Z.mod_unique with (q := (-1)%Z); lia. }
    rewrite E in Hlt. lia.
  - rewrite Z.mod_small in Hlt by lia. lia.
Qed.

(** X6.  When [ns_fit(row)] returns, the row converted to [size_t] is below
    the number of lines of the neutron star table, so that an [int] row is
    a line of a table of at most [2^63] lines, [0 <= row < get_nlines()];
    [ns_record] is false; it has assigned the members [i_ns],
    [ns_fit_parms], [chi2_ns] and [ns_nb_max] and no other; and the cutoff
    [ns_nb_max] it leaves is the [nb_max] of the row or a density between
    0.04 and [nb_max + 1e-6] (the interpolated density at which the fitted
    sound speed crosses one). *)
Theorem ns_fit_result (st st' : eos) (row : Z) :
  ns_fit lib st row = Ok st' ->
  let nlines := table_units.get_nlines (nstar_tab st) in
  let nmax := table_units.get (nstar_tab st) "nb_max" row in
  (size_t_of_int row < nlines)%Z
  /\ ((- 2 ^ 31 <= row < 2 ^ 31)%Z -> (nlines <= 2 ^ 63)%Z ->
      (0 <= row < nlines)%Z)
  /\ ns_record st = false
  /\ (exists (parms : list R) (chi2 cutoff : R),
        st' = set_ns_nb_max cutoff
                (set_chi2_ns chi2 (set_ns_fit_parms parms (set_i_ns row st))))
  /\ (ns_nb_max st' = nmax \/ 0.04 <= ns_nb_max st' <= nmax + 0.000001).
Proof.
  intros H0. pose proof (ns_fit_assigns lib st st' row H0) as Hassigns.
  revert H0. unfold ns_fit.
  destruct (size_t_of_int row >=? table_units.get_nlines (nstar_tab st))%Z
    eqn:Erow; [discriminate |].
  cbv zeta.
  change (i_ns (set_i_ns row st)) with row.
  change (nstar_tab (set_i_ns row st)) with (nstar_tab st).
  set (nmax := table_units.get (nstar_tab st) "nb_max" row).
  destruct (nstar_high_rows_range (set_i_ns row st) row nmax 100 0)
    as [HF HS].
  set (rows := nstar_high_rows lib (set_i_ns row st) row nmax 100 0) in *.
  destruct rows as [| r0 rows'] eqn:Erows; [discriminate |].
  rewrite <- Erows in *. clear Erows.
  set (s1 := set_chi2_ns _ _).
  set (xs := map (fun nb => (nb, cs2_fit lib s1 nb)) (map fst rows)).
  assert (Hxs := evaluated_rows_range (cs2_fit lib s1) (0.04 + INR 0 * 0.012)
                   (nmax + 0.000001) rows HF HS).
  fold xs in Hxs.
  destruct Hxs as [HxF HxS].
  pose proof (nb_new_loop_range _ (nmax + 0.000001) xs 0.0 HxF HxS) as Hnb.
  set (nb_new := nb_new_loop xs 0.0) in *.
  intros H.
  assert (Hrow : (size_t_of_int row
                  < table_units.get_nlines (nstar_tab st))%Z)
    by (rewrite Z.geb_leb in Erow; apply Z.leb_gt in Erow; exact Erow).
  assert (Hint : (- 2 ^ 31 <= row < 2 ^ 31)%Z ->
                 (table_units.get_nlines (nstar_tab st) <= 2 ^ 63)%Z ->
                 (0 <= row < table_units.get_nlines (nstar_tab st))%Z).
  { intros Hi Hn. exact (size_t_of_int_below _ _ Hi Hn Hrow). }
  destruct (Rgt_dec nb_new 0.01) as [Hgt | Hngt].
  - destruct (ns_record (set_ns_nb_max nb_new s1)) eqn:Erec; [discriminate |].
    apply Ok_inj in H. subst st'.
    split; [exact Hrow |]. split; [exact Hint |].
    split; [exact Erec |]. split; [exact Hassigns |].
    right. change (ns_nb_max (set_ns_nb_max nb_new s1)) with nb_new.
    destruct Hnb as [E | E]; [rewrite E in Hgt; lra |].
    simpl INR in E. lra.
  - destruct (ns_record s1) eqn:Erec; [discriminate |].
    apply Ok_inj in H. subst st'.
    split; [exact Hrow |]. split; [exact Hint |].
    split; [exact Erec |]. split; [exact Hassigns |].
    left. reflexivity.
Qed.

(** [ns_fit] does not return for a negative [int] row: on a table of at
    most [2^63] lines it raises the error of its guard. *)
Lemma ns_fit_negative_row (st : eos) (row : Z) :
  (- 2 ^ 31 <= row < 0)%Z ->
  (table_units.get_nlines (nstar_tab st) <= 2 ^ 63)%Z ->
  ns_fit lib st row = Raise exc_efailed "Row not allowed in ns_fit().".
Proof.
  intros Hrow Hn. unfold ns_fit.
  destruct (size_t_of_int row >=? table_units.get_nlines (nstar_tab st))%Z
    eqn:Erow; [reflexivity |].
  exfalso.
  rewrite Z.geb_leb in Erow. apply Z.leb_gt in Erow.
  assert (Hi : (- 2 ^ 31 <= row < 2 ^ 31)%Z).
  { change (2 ^ 31)%Z with 2147483648%Z in *. lia. }
  pose proof (size_t_of_int_below _ _ Hi Hn Erow). lia.
Qed.

End NeutronStarFit.

Lemma ns_fit_result_witness :
  exists st' : eos,
    ns_fit Sample.lib Sample.st 0 = Ok st'
    /\ (0 <= 0 < table_units.get_nlines (nstar_tab Sample.st))%Z
    /\ (ns_nb_max st' = 3 \/ 0.04 <= ns_nb_max st' <= 3 + 0.000001).
Proof.
  pose proof (sample_ns_fit 1000 Sample.st eq_refl eq_refl) as E.
  pose proof (ns_fit_result Sample.lib Sample.st _ 0 E) as (_ & Hrow & _ & _ & Hcut).
  eexists. split; [exact E |]. split; [| exact Hcut].
  apply Hrow.
  - change (2 ^ 31)%Z with 2147483648%Z. lia.
  - change (table_units.get_nlines (nstar_tab Sample.st)) with 1%Z.
    change (2 ^ 63)%Z with 9223372036854775808%Z. lia.
Defined.

(** ** The neutron matter parameterization *)

Section Qmc.

Variable lib : o2scl.

(** X7.  With [qmc_b = S + EoA - qmc_a] and
    [qmc_beta = (L/3 - qmc_a*qmc_alpha)/qmc_b], as [select_internal] assigns
    them, the energy per baryon of neutron matter that [energy_density_qmc]
    gives at the density [qmc_n0] is [S + EoA], and its derivative with
    respect to the density there is [L/(3*qmc_n0)]. *)
Theorem energy_density_qmc_saturation (st : eos)
    (eos_S_loc EoA eos_L_loc : R) :
  0 < qmc_n0 st -> hc_mev_fm lib <> 0 ->
  qmc_b st = eos_S_loc + EoA - qmc_a st -> qmc_b st <> 0 ->
  qmc_beta st = (eos_L_loc / 3.0 - qmc_a st * qmc_alpha st) / qmc_b st ->
  let e_per_baryon (nb : R) :=
    energy_density_qmc lib st nb 0 * hc_mev_fm lib / nb in
  e_per_baryon (qmc_n0 st) = eos_S_loc + EoA
  /\ derivable_pt_lim e_per_baryon (qmc_n0 st)
       (eos_L_loc / (3 * qmc_n0 st)).
Proof.
  intros Hn0 Hhc Hb Hbz Hbeta e_per_baryon.
  set (n0 := qmc_n0 st) in *. set (hc := hc_mev_fm lib) in *.
  assert (Hloc : forall z, n0 / 2 < z < 2 * n0 ->
            qmc_a st * Rpower (z / n0) (qmc_alpha st)
            + qmc_b st * Rpower (z / n0) (qmc_beta st)
            = e_per_baryon z).
  { intros z Hz. unfold e_per_baryon, energy_density_qmc. fold n0 hc.
    replace (z + 0) with z by ring.
    assert (Hpos : 0 < z / n0) by (apply Rdiv_lt_0_compat; lra).
    rewrite !pow_pos_base by exact Hpos.
    field. split; lra. }
  split.
  - rewrite <- Hloc by lra.
    unfold Rdiv. rewrite Rinv_r by lra. rewrite !Rpower_one_base. lra.
  - apply (derivable_pt_lim_locally_ext
             (fun z => qmc_a st * Rpower (z / n0) (qmc_alpha st)
                       + qmc_b st * Rpower (z / n0) (qmc_beta st))
             e_per_baryon n0 (n0 / 2) (2 * n0));
      [lra | exact Hloc |].
    eapply dlim_eq.
    { apply (dlim_plus (fun z => qmc_a st * Rpower (z / n0) (qmc_alpha st))
               (fun z => qmc_b st * Rpower (z / n0) (qmc_beta st))).
      - apply (dlim_mult (fun _ => qmc_a st)
                 (fun z => Rpower (z / n0) (qmc_alpha st))).
        + apply dlim_const.
        + apply dlim_Rpower_scaled. exact Hn0.
      - apply (dlim_mult (fun _ => qmc_b st)
                 (fun z => Rpower (z / n0) (qmc_beta st))).
        + apply dlim_const.
        + apply dlim_Rpower_scaled. exact Hn0. }
    cbv beta. rewrite Hbeta. replace 3.0 with 3 by lra. field. split; lra.
Qed.

End Qmc.

Lemma energy_density_qmc_saturation_witness :
  energy_density_qmc Sample.lib Sample.st (qmc_n0 Sample.st) 0
  * hc_mev_fm Sample.lib / qmc_n0 Sample.st
  = 14.82 + 0.
Proof.
  apply (energy_density_qmc_saturation Sample.lib Sample.st 14.82 0 40.23).
  - change (0 < 0.16). lra.
  - change (197.33 <> 0). lra.
  - change (2.12 = 14.82 + 0 - 12.7). lra.
  - change (2.12 <> 0). lra.
  - change (3.45 = (40.23 / 3.0 - 12.7 * 0.48) / 2.12). lra.
Defined.

(** ** The combined free energy *)

Section Mixture.

Variable lib : o2scl.
Variable vs : virial_methods.

(** X8.  The free energy that [free_energy_density] returns is the mixture
    [f_virial*g_virial + f_deg*(1 - g_virial)] of the members it leaves in
    the object; with nonnegative [a_virial] and [b_virial] it lies between
    the virial and the degenerate free energy. *)
Theorem free_energy_density_interpolates (st : eos) (n p : fermion.t)
    (T : R) (th : thermo.t) (f : R) (w : world) :
  free_energy_density lib vs st n p T th = Ok (f, w) ->
  let g := g_virial (w_eos w) in
  let fv := f_virial (w_eos w) in
  let fd := f_deg (w_eos w) in
  f = fv * g + fd * (1 - g)
  /\ (0 <= a_virial st -> 0 <= b_virial st ->
      Rmin fv fd <= f <= Rmax fv fd).
Proof.
  intros H g fv fd.
  assert (Hg := g_virial_formula lib vs st n p T th f w H). fold g in Hg.
  apply free_energy_density_ok in H as [_ H].
  assert (Hw : w = snd (free_energy_density_body lib vs st n p T th))
    by (rewrite <- H; reflexivity).
  assert (Hf : f = fst (free_energy_density_body lib vs st n p T th))
    by (rewrite <- H; reflexivity).
  assert (E : f = fv * g + fd * (1.0 - g)).
  { unfold fv, g, fd. rewrite Hw, Hf. reflexivity. }
  replace 1.0 with 1 in E by lra.
  split; [exact E |].
  intros Ha Hb.
  assert (Hr : 0 < g <= 1).
  { rewrite Hg. apply weight_range; try assumption; apply exp_pos. }
  rewrite E. clear - Hr.
  unfold Rmin, Rmax. destruct (Rle_dec fv fd) as [Hle | Hgt]; nra.
Qed.

(** X9.  For symmetric matter ([n_n = n_p], not zero) the free energy, the
    chemical potentials and the thermodynamic quantities that
    [free_energy_density] returns do not depend on the neutron matter
    parameterization ([qmc_a], [qmc_alpha], [qmc_b], [qmc_beta]), on [phi],
    nor on the fit of the neutron star table ([ns_fit_parms],
    [ns_nb_max]). *)
Theorem free_energy_density_symmetric_matter (st : eos) (n p : fermion.t)
    (T : R) (th : thermo.t) (f : R) (w : world)
    (a alpha b beta phi_ nmax : R) (parms : list R) :
  let st' :=
    set_ns_nb_max nmax
      (set_ns_fit_parms parms
         (set_phi phi_
            (set_qmc_beta beta
               (set_qmc_b b (set_qmc_alpha alpha (set_qmc_a a st)))))) in
  fermion.n n = fermion.n p -> fermion.n n <> 0 ->
  free_energy_density lib vs st n p T th = Ok (f, w) ->
  exists w' : world,
    free_energy_density lib vs st' n p T th = Ok (f, w')
    /\ w_n w' = w_n w /\ w_p w' = w_p w /\ w_th w' = w_th w.
Proof.
  intros st' Heq Hnz H.
  apply free_energy_density_ok in H as [Hsel H].
  assert (Hw : w = snd (free_energy_density_body lib vs st n p T th))
    by (rewrite <- H; reflexivity).
  assert (Hf : f = fst (free_energy_density_body lib vs st n p T th))
    by (rewrite <- H; reflexivity).
  assert (Hye : 1.0 - 2.0 * (fermion.n p / (fermion.n n + fermion.n p)) = 0).
  { rewrite <- Heq. decimals. field. lra. }
  assert (E : free_energy_density_body lib vs st' n p T th
              = (f, mk_world
                      (w_eos (snd (free_energy_density_body lib vs st' n p
                                     T th)))
                      (w_n w) (w_p w) (w_th w))).
  { rewrite Hw, Hf.
    unfold free_energy_density_body. cbv zeta.
    cbn [fst snd w_eos w_n w_p w_th].
    rewrite !Hye.
    repeat rewrite ?Rmult_0_l, ?Rmult_0_r.
    reflexivity. }
  exists (mk_world
            (w_eos (snd (free_energy_density_body lib vs st' n p T th)))
            (w_n w) (w_p w) (w_th w)).
  split; [| split; [| split]; reflexivity].
  unfold free_energy_density.
  change (model_selected st') with (model_selected st). rewrite Hsel.
  cbn [negb]. f_equal. exact E.
Qed.

(** [free_energy_density_ep] returns when a model is selected. *)
Lemma free_energy_density_ep_returns (st : eos) (nn np T : R) :
  model_selected st = true ->
  exists (F : R) (st' : eos),
    free_energy_density_ep lib vs st nn np T = Ok (F, st').
Proof.
  intros Hsel. unfold free_energy_density_ep. cbv zeta.
  unfold free_energy_density.
  cbn [model_selected set_photon set_electron set_proton set_neutron].
  rewrite Hsel. cbn [negb bind]. eexists. eexists. reflexivity.
Qed.

(** X10.  The value that [free_energy_density_ep] returns is the free
    energy density [ed - T*en] of the totals (nucleons, electrons and
    photons) that it leaves in [th2]; the neutron and the proton hold the
    densities given, and a model is selected. *)
Theorem free_energy_density_ep_free_energy (st st' : eos) (nn np T F : R) :
  free_energy_density_ep lib vs st nn np T = Ok (F, st') ->
  F = thermo.ed (th2 st') - T * thermo.en (th2 st')
  /\ fermion.n (neutron st') = nn /\ fermion.n (proton st') = np
  /\ model_selected st' = true.
Proof.
  unfold free_energy_density_ep. cbv zeta.
  match goal with
  | |- context [free_energy_density lib vs ?s _ _ T _] => set (s0 := s)
  end.
  set (n0 := neutron s0). set (p0 := proton s0). set (th0 := th2 s0).
  destruct (free_energy_density lib vs s0 n0 p0 T th0)
    as [[f w] | e msg | c] eqn:E;
    cbn [bind]; [| discriminate | discriminate].
  intros H. apply Ok_inj in H. injection H as HF Hst.
  destruct (free_energy_density_ok lib vs _ _ _ _ _ _ _ E) as [Hsel Hbody].
  assert (Hw : w = snd (free_energy_density_body lib vs s0 n0 p0 T th0))
    by (rewrite <- Hbody; reflexivity).
  assert (Hf : f = fst (free_energy_density_body lib vs s0 n0 p0 T th0))
    by (rewrite <- Hbody; reflexivity).
  assert (Hed : thermo.ed (w_th w) = f + T * thermo.en (w_th w))
    by (rewrite Hw, Hf; reflexivity).
  assert (Hn : fermion.n (w_n w) = nn) by (rewrite Hw; reflexivity).
  assert (Hp : fermion.n (w_p w) = np) by (rewrite Hw; reflexivity).
  assert (Hm : model_selected (w_eos w) = true) by (rewrite Hw; exact Hsel).
  rewrite <- Hst, <- HF. cbn [fst snd].
  unfold store.
  cbn [th2 set_th2 thermo.ed thermo.en neutron proton set_proton set_neutron
       electron photon model_selected].
  rewrite Hed. split; [ring |]. split; [exact Hn |]. split; [exact Hp |].
  exact Hm.
Qed.

End Mixture.

Lemma free_energy_density_interpolates_witness :
  let r :=
    free_energy_density_body Sample.lib Sample.vs Sample.st_selected
      (Sample.nucleon 0.15) (Sample.nucleon 0.01) 0.05 Sample.zero_thermo in
  fst r
  = f_virial (w_eos (snd r)) * g_virial (w_eos (snd r))
    + f_deg (w_eos (snd r)) * (1 - g_virial (w_eos (snd r))).
Proof.
  intros r.
  assert (E : free_energy_density Sample.lib Sample.vs Sample.st_selected
                (Sample.nucleon 0.15) (Sample.nucleon 0.01) 0.05
                Sample.zero_thermo = Ok (fst r, snd r)).
  { rewrite sample_free_energy_density. apply f_equal.
    apply surjective_pairing. }
  exact (proj1 (free_energy_density_interpolates Sample.lib Sample.vs
                  Sample.st_selected (Sample.nucleon 0.15)
                  (Sample.nucleon 0.01) 0.05 Sample.zero_thermo
                  (fst r) (snd r) E)).
Defined.

Lemma free_energy_density_symmetric_matter_witness :
  let r :=
    free_energy_density_body Sample.lib Sample.vs Sample.st_selected
      (Sample.nucleon 0.1) (Sample.nucleon 0.1) 0.05 Sample.zero_thermo in
  exists w' : world,
    free_energy_density Sample.lib Sample.vs
      (set_ns_nb_max 2
         (set_ns_fit_parms [1; 2; 3; 4; 5]
            (set_phi 0.3
               (set_qmc_beta 2
                  (set_qmc_b 5 (set_qmc_alpha 0.5
                     (set_qmc_a 13 Sample.st_selected)))))))
      (Sample.nucleon 0.1) (Sample.nucleon 0.1) 0.05 Sample.zero_thermo
    = Ok (fst r, w')
    /\ w_n w' = w_n (snd r) /\ w_p w' = w_p (snd r)
    /\ w_th w' = w_th (snd r).
Proof.
  intros r.
  assert (E : free_energy_density Sample.lib Sample.vs Sample.st_selected
                (Sample.nucleon 0.1) (Sample.nucleon 0.1) 0.05
                Sample.zero_thermo = Ok (fst r, snd r)).
  { rewrite sample_free_energy_density. apply f_equal.
    apply surjective_pairing. }
  assert (Hnz : fermion.n (Sample.nucleon 0.1) <> 0)
    by (cbn [Sample.nucleon fermion.n]; lra).
  exact (free_energy_density_symmetric_matter Sample.lib Sample.vs
           Sample.st_selected (Sample.nucleon 0.1) (Sample.nucleon 0.1) 0.05
           Sample.zero_thermo (fst r) (snd r) 13 0.5 5 2 0.3 2 [1; 2; 3; 4; 5]
           eq_refl Hnz E).
Defined.

Lemma free_energy_density_ep_free_energy_witness :
  exists (F : R) (st' : eos),
    free_energy_density_ep Sample.lib Sample.vs Sample.st_selected 0.1 0.1
      0.05 = Ok (F, st')
    /\ F = thermo.ed (th2 st') - 0.05 * thermo.en (th2 st').
Proof.
  destruct (free_energy_density_ep_returns Sample.lib Sample.vs
              Sample.st_selected 0.1 0.1 0.05 eq_refl) as (F & st' & E).
  exists F, st'. split; [exact E |].
  exact (proj1 (free_energy_density_ep_free_energy Sample.lib Sample.vs
                  Sample.st_selected st' 0.1 0.1 0.05 F E)).
Defined.

(** ** The return codes of the validator *)

Section ReturnCodes.

Variable lib : o2scl.
Variable vs : virial_methods.

Lemma free_energy_density_keeps_model (st : eos) (n p : fermion.t) (T : R)
    (th : thermo.t) (f : R) (w : world) :
  free_energy_density lib vs st n p T th = Ok (f, w) ->
  model_selected (w_eos w) = true.
Proof.
  intros H. apply free_energy_density_ok in H as [Hsel H].
  assert (Hw : w = snd (free_energy_density_body lib vs st n p T th))
    by (rewrite <- H; reflexivity).
  rewrite Hw, <- Hsel. reflexivity.
Qed.

Lemma ed_keeps_model (w : world) (nn pn T : R) (e : R) (w' : world) :
  ed lib vs w nn pn T = Ok (e, w') -> model_selected (w_eos w') = true.
Proof.
  unfold ed. intros H.
  apply bind_Ok_inv in H as ([f w1] & E & H).
  apply free_energy_density_keeps_model in E.
  apply Ok_inj in H. injection H as _ <-. exact E.
Qed.

Lemma cs2_fixYe_keeps_model (w : world) (T : R) (c : R) (w' : world) :
  cs2_fixYe lib vs w T = Ok (c, w') -> model_selected (w_eos w') = true.
Proof.
  cbv delta [cs2_fixYe]. cbv beta. intros H.
  repeat first [ name_let H
               | apply bind_Ok_inv in H as (? & ? & H); cbv beta in H ].
  match goal with
  | E : ed lib vs _ _ _ _ = Ok ?r |- _ =>
      destruct r as [e1 w1]; apply ed_keeps_model in E;
      apply Ok_inj in H; injection H as _ <-; exact E
  end.
Qed.

Lemma cs2_test_loop_keeps_model (st : eos) (s : eos * list cs2_sample) :
  model_selected st = true ->
  cs2_test_loop lib vs st = Ok (inl s) -> model_selected (fst s) = true.
Proof.
  intros Hst H. unfold cs2_test_loop, for_loop in H.
  pose (P := fun s : eos * list cs2_sample => model_selected (fst s) = true).
  apply (for_fuel_preserves P) in H; [exact H | | exact Hst].
  intros nbx s1 s1' _ Hs1 H1.
  apply (for_fuel_preserves P) in H1; [exact H1 | | exact Hs1].
  intros yex s2 s2' _ Hs2 H2.
  apply (for_fuel_preserves P) in H2; [exact H2 | | exact Hs2].
  intros Tx s3 s3' _ Hs3 H3.
  destruct (cs2_fixYe lib vs _ Tx) as [[c w'] | |] eqn:E; try discriminate.
  cbn [bind] in H3. apply cs2_fixYe_keeps_model in E.
  destruct (Rlt_dec (fst (c, w')) 0.0); [discriminate |].
  apply Ok_inj in H3. injection H3 as <-.
  unfold P. cbn [fst snd]. exact E.
Qed.

Lemma dineutron_loop_rejects (st : eos) (ret : Z * eos) :
  dineutron_loop lib st = Ok (inr ret) ->
  fst ret = 4%Z /\ model_selected (snd ret) = false.
Proof.
  unfold dineutron_loop, for_loop. intros H.
  pose proof (for_fuel_invariant (fun _ : eos => True)
                (fun b : Z * eos =>
                   fst b = 4%Z /\ model_selected (snd b) = false)
                0.01 0.16 0.001) as Hinv.
  match type of H with
  | for_fuel ?fuel ?x _ _ ?b ?s = _ =>
      specialize (Hinv b ltac:(lra)); specialize (fun Hb => Hinv Hb fuel x s)
  end.
  rewrite H in Hinv. apply Hinv; [| lra | exact I].
  intros x s _ _. cbv zeta.
  match goal with
  | |- context [Rlt_dec ?a ?b] => destruct (Rlt_dec a b)
  end; [split; reflexivity | exact I].
Qed.

Lemma beta_eq_loop_rejects (st : eos) (ret : Z * eos) :
  beta_eq_loop lib vs st = Ok (inr ret) ->
  (fst ret = 8%Z \/ fst ret = 9%Z) /\ model_selected (snd ret) = false.
Proof.
  unfold beta_eq_loop, for_loop. intros H.
  pose proof (for_fuel_invariant (fun _ : eos => True)
                (fun b : Z * eos =>
                   (fst b = 8%Z \/ fst b = 9%Z)
                   /\ model_selected (snd b) = false)
                0.1 2.00001 0.05) as Hinv.
  match type of H with
  | for_fuel ?fuel ?x _ _ ?b ?s = _ =>
      specialize (Hinv b ltac:(lra)); specialize (fun Hb => Hinv Hb fuel x s)
  end.
  rewrite H in Hinv. apply Hinv; [| lra | exact I].
  intros x s _ _. cbv zeta.
  destruct (msolve1 lib eos 0.05 _ _) as [r | |]; cbn [bind]; try exact I.
  destruct (negb (fst (fst r) =? 0)%Z);
    [split; [left |]; reflexivity |].
  match goal with
  | |- context [if ?c then _ else _] => destruct c
  end; [split; [right |]; reflexivity | exact I].
Qed.

(** A conditional of an equation in the context that returns a code with
    the model deselected. *)
Ltac take_return H :=
  lazymatch type of H with
  | (if ?c then _ else _) = _ =>
      destruct c;
      [apply Ok_inj in H; injection H as <- <-; right;
       split; [lia | reflexivity] |]
  end.

(** [select_internal] returns 0 with the model selected or one of the
    codes 1 to 9 with the model deselected. *)
Lemma select_internal_codes (st st' : eos) (c : Z)
    (i_ns_loc i_skyrme_loc : Z)
    (qmc_alpha_loc qmc_a_loc eos_L_loc eos_S_loc phi_loc : R) :
  select_internal lib vs st i_ns_loc i_skyrme_loc qmc_alpha_loc qmc_a_loc
    eos_L_loc eos_S_loc phi_loc = Ok (c, st') ->
  (c = 0%Z /\ model_selected st' = true)
  \/ ((1 <= c <= 9)%Z /\ model_selected st' = false).
Proof.
  cbv delta [select_internal]. cbv beta. intros H.
  repeat name_let H.
  apply bind_Ok_inv in H as (s1 & Efit & H). cbv beta in H.
  repeat name_let H. take_return H. take_return H.
  repeat name_let H. take_return H.
  repeat name_let H.
  apply bind_Ok_inv in H as (r2 & Edi & H). cbv beta in H.
  destruct r2 as [s2 | ret].
  2:{ apply dineutron_loop_rejects in Edi as [Hc Hm].
      apply Ok_inj in H. subst ret. cbn [fst snd] in *. right.
      split; [lia | exact Hm]. }
  repeat name_let H. take_return H.
  repeat name_let H. take_return H.
  repeat name_let H. take_return H.
  apply bind_Ok_inv in H as (r3 & Ebe & H). cbv beta in H.
  destruct r3 as [s3 | ret].
  2:{ apply beta_eq_loop_rejects in Ebe as [Hc Hm].
      apply Ok_inj in H. subst ret. cbn [fst snd] in *. right.
      split; [lia | exact Hm]. }
  repeat name_let H.
  left.
  match type of H with
  | (if ?c then _ else _) = _ => destruct c
  end.
  - apply bind_Ok_inv in H as (r4 & Ecs & H). cbv beta in H.
    destruct r4 as [s4 | e]; [| destruct e].
    apply Ok_inj in H. injection H as <- <-.
    split; [reflexivity |].
    eapply cs2_test_loop_keeps_model; [| exact Ecs]. reflexivity.
  - apply Ok_inj in H. injection H as <- <-. split; reflexivity.
Qed.

(** X11.  When [select_internal] returns, the code is between 0 and 9 and
    [model_selected] is true exactly when the code is 0, whatever the
    members held before the call. *)
Theorem select_internal_return_code (st st' : eos) (c : Z)
    (i_ns_loc i_skyrme_loc : Z)
    (qmc_alpha_loc qmc_a_loc eos_L_loc eos_S_loc phi_loc : R) :
  select_internal lib vs st i_ns_loc i_skyrme_loc qmc_alpha_loc qmc_a_loc
    eos_L_loc eos_S_loc phi_loc = Ok (c, st') ->
  (0 <= c <= 9)%Z /\ model_selected st' = (c =? 0)%Z.
Proof.
  intros H.
  destruct (select_internal_codes _ _ _ _ _ _ _ _ _ _ H)
    as [[-> Hm] | [Hc Hm]].
  - split; [lia | exact Hm].
  - split; [lia |]. rewrite Hm. symmetry. apply Z.eqb_neq. lia.
Qed.

(** X12.  When the neutron star fit succeeds and the sound speed of the fit
    is negative at [nb = 0.08] or at one of the densities [0.04 + 0.02 k]
    below the cutoff, [select_internal] returns 1 and leaves the object of
    the fit with the model deselected. *)
Theorem select_internal_rejects_negative_fit (st st1 : eos)
    (i_ns_loc i_skyrme_loc : Z)
    (qmc_alpha_loc qmc_a_loc eos_L_loc eos_S_loc phi_loc nb : R) :
  let st0 :=
    set_model_selected true
      (set_phi phi_loc
         (set_eos_S eos_S_loc
            (set_eos_L eos_L_loc
               (set_qmc_a qmc_a_loc
                  (set_qmc_alpha qmc_alpha_loc
                     (set_i_skyrme i_skyrme_loc (set_i_ns i_ns_loc st))))))) in
  ns_fit lib st0 i_ns_loc = Ok st1 ->
  nb = 0.08
  \/ (exists k : nat, nb = 0.04 + INR k * 0.02 /\ nb < ns_nb_max st1) ->
  cs2_fit lib st1 nb < 0 ->
  select_internal lib vs st i_ns_loc i_skyrme_loc qmc_alpha_loc qmc_a_loc
    eos_L_loc eos_S_loc phi_loc = Ok (1%Z, set_model_selected false st1).
Proof.
  intros st0 Hfit Hnb Hneg.
  pose proof (min_max_cs2_lower lib st1 nb Hnb) as Hmin.
  unfold select_internal. cbv zeta. fold st0.
  change (i_ns st0) with i_ns_loc. rewrite Hfit.
  cbn [bind].
  destruct (Rlt_dec (fst (min_max_cs2 lib st1)) 0.0) as [_ | Hn];
    [reflexivity | exfalso; apply Hn; lra].
Qed.

(** X13.  When the neutron star fit succeeds, its minimal sound speed is
    not negative and (S, L) lies in the corridor, a negative
    [qmc_b = S + EoA - qmc_a] or a [qmc_beta = (L/3 - qmc_a*qmc_alpha)/qmc_b]
    above 5 makes [select_internal] return 3, with the model deselected and
    these two values in [qmc_b] and [qmc_beta]. *)
Theorem select_internal_rejects_qmc_parameters (st st1 : eos)
    (i_ns_loc i_skyrme_loc : Z)
    (qmc_alpha_loc qmc_a_loc eos_L_loc eos_S_loc phi_loc : R) :
  let st0 :=
    set_model_selected true
      (set_phi phi_loc
         (set_eos_S eos_S_loc
            (set_eos_L eos_L_loc
               (set_qmc_a qmc_a_loc
                  (set_qmc_alpha qmc_alpha_loc
                     (set_i_skyrme i_skyrme_loc (set_i_ns i_ns_loc st))))))) in
  let qmc_b_loc :=
    eos_S_loc + table_units.get (UNEDF_tab st) "EoA" i_skyrme_loc
    - qmc_a_loc in
  let qmc_beta_loc :=
    (eos_L_loc / 3.0 - qmc_a_loc * qmc_alpha_loc) / qmc_b_loc in
  ns_fit lib st0 i_ns_loc = Ok st1 ->
  ~ fst (min_max_cs2 lib st1) < 0 ->
  9.17 * eos_S_loc - 266 <= eos_L_loc <= 14.3 * eos_S_loc - 379 ->
  qmc_b_loc < 0 \/ qmc_beta_loc > 5 ->
  exists st' : eos,
    select_internal lib vs st i_ns_loc i_skyrme_loc qmc_alpha_loc qmc_a_loc
      eos_L_loc eos_S_loc phi_loc = Ok (3%Z, st')
    /\ model_selected st' = false
    /\ qmc_b st' = qmc_b_loc /\ qmc_beta st' = qmc_beta_loc.
Proof.
  intros st0 qmc_b_loc qmc_beta_loc Hfit Hmin Hin Hq.
  destruct (ns_fit_assigns lib _ _ _ Hfit) as (parms & chi2 & cutoff & Est1).
  unfold select_internal. cbv zeta. fold st0.
  change (i_ns st0) with i_ns_loc. rewrite Hfit.
  cbn [bind].
  destruct (Rlt_dec (fst (min_max_cs2 lib st1)) 0.0) as [Hneg | _].
  { exfalso. apply Hmin. lra. }
  rewrite Est1. clear Est1 Hfit Hmin.
  cbn [eos_S eos_L qmc_a qmc_alpha UNEDF_tab i_skyrme
       set_ns_nb_max set_chi2_ns set_ns_fit_parms set_i_ns].
  change (eos_S st0) with eos_S_loc. change (eos_L st0) with eos_L_loc.
  rewrite Rgtb_false, Rltb_false by lra. cbn [orb].
  cbn [qmc_b qmc_beta qmc_a qmc_alpha eos_S eos_L UNEDF_tab i_skyrme
       set_qmc_b set_qmc_beta set_eos_K set_eos_EoA set_eos_n0
       set_ns_nb_max set_chi2_ns set_ns_fit_parms set_i_ns].
  change (eos_S st0) with eos_S_loc. change (eos_L st0) with eos_L_loc.
  change (qmc_a st0) with qmc_a_loc.
  change (qmc_alpha st0) with qmc_alpha_loc.
  change (UNEDF_tab st0) with (UNEDF_tab st).
  change (i_skyrme st0) with i_skyrme_loc.
  fold qmc_b_loc. fold qmc_beta_loc.
  assert (Hc : Rltb qmc_b_loc 0.0 || Rgtb qmc_beta_loc 5.0 = true).
  { destruct Hq as [Hb | Hbeta].
    - rewrite Rltb_true by lra. reflexivity.
    - rewrite (Rgtb_true qmc_beta_loc 5.0) by lra. apply orb_true_r. }
  rewrite Hc.
  eexists. split; [reflexivity |]. repeat split.
Qed.

(** [select_internal] assigns the members that hold its arguments before
    it reads them. *)
Lemma select_internal_overwrites (st : eos) (a1 a2 b1 b2 : Z)
    (a3 a4 a5 a6 a7 b3 b4 b5 b6 b7 : R) :
  select_internal lib vs
    (set_phi b7 (set_eos_S b6 (set_eos_L b5 (set_qmc_a b4
       (set_qmc_alpha b3 (set_i_skyrme b2 (set_i_ns b1 st)))))))
    a1 a2 a3 a4 a5 a6 a7
  = select_internal lib vs st a1 a2 a3 a4 a5 a6 a7.
Proof.
  assert (E : set_model_selected true
                (set_phi a7 (set_eos_S a6 (set_eos_L a5 (set_qmc_a a4
                   (set_qmc_alpha a3 (set_i_skyrme a2 (set_i_ns a1
                      (set_phi b7 (set_eos_S b6 (set_eos_L b5 (set_qmc_a b4
                         (set_qmc_alpha b3 (set_i_skyrme b2
                            (set_i_ns b1 st))))))))))))))
              = set_model_selected true
                  (set_phi a7 (set_eos_S a6 (set_eos_L a5 (set_qmc_a a4
                     (set_qmc_alpha a3 (set_i_skyrme a2
                        (set_i_ns a1 st)))))))) by reflexivity.
  cbv delta [select_internal]. cbv beta. cbv zeta.
  rewrite E. reflexivity.
Qed.

(** [select_model] is [select_internal] on its arguments, with every
    nonzero code turned into 1. *)
Lemma select_model_calls_select_internal (st : eos) (sv1 sv2 : Z)
    (sv3 sv4 sv5 sv6 sv7 : R) :
  select_model lib vs st sv1 sv2 sv3 sv4 sv5 sv6 sv7
  = (r <- select_internal lib vs st sv1 sv2 sv3 sv4 sv5 sv6 sv7 ;;
     if negb (fst r =? 0)%Z then Ok (1%Z, snd r) else Ok (0%Z, snd r)).
Proof.
  unfold select_model. cbv zeta.
  match goal with
  | |- context [select_internal lib vs ?s ?a1 ?a2 ?a3 ?a4 ?a5 ?a6 ?a7] =>
      change (select_internal lib vs s a1 a2 a3 a4 a5 a6 a7)
        with (select_internal lib vs s sv1 sv2 sv3 sv4 sv5 sv6 sv7)
  end.
  rewrite select_internal_overwrites. reflexivity.
Qed.

(** X14.  When [select_model] returns, it returns 0 with the model selected
    if [select_internal], called on the object with the seven arguments,
    returned 0, and 1 with the model deselected if it returned one of the
    codes 1 to 9; the object is the one [select_internal] left. *)
Theorem select_model_result (st st' : eos) (c : Z) (sv1 sv2 : Z)
    (sv3 sv4 sv5 sv6 sv7 : R) :
  select_model lib vs st sv1 sv2 sv3 sv4 sv5 sv6 sv7 = Ok (c, st') ->
  exists iret : Z,
    select_internal lib vs st sv1 sv2 sv3 sv4 sv5 sv6 sv7 = Ok (iret, st')
    /\ ((iret = 0%Z /\ c = 0%Z /\ model_selected st' = true)
        \/ ((1 <= iret <= 9)%Z /\ c = 1%Z /\ model_selected st' = false)).
Proof.
  rewrite select_model_calls_select_internal. intros H.
  apply bind_Ok_inv in H as ([iret s1] & E & H). cbn [fst snd] in H.
  destruct (select_internal_codes _ _ _ _ _ _ _ _ _ _ E)
    as [[-> Hm] | [Hc Hm]].
  - cbn [Z.eqb negb] in H. apply Ok_inj in H. injection H as <- <-.
    exists 0%Z. split; [exact E |]. left. repeat split; assumption.
  - assert (Hn : (iret =? 0)%Z = false) by (apply Z.eqb_neq; lia).
    rewrite Hn in H. cbn [negb] in H.
    apply Ok_inj in H. injection H as <- <-.
    exists iret. split; [exact E |]. right. repeat split; assumption || lia.
Qed.

(** X15.  [point] returns 1 and leaves the object as it is when no model is
    selected; with a model selected it returns 0 and leaves the densities
    [nB*(1-Ye)] and [nB*Ye] in the neutron and the proton. *)
Theorem point_result (st : eos) (nB Ye T_MeV : R) :
  if model_selected st then
    exists st' : eos,
      point lib vs st nB Ye T_MeV = Ok (0%Z, st')
      /\ model_selected st' = true
      /\ fermion.n (neutron st') = nB * (1.0 - Ye)
      /\ fermion.n (proton st') = nB * Ye
  else point lib vs st nB Ye T_MeV = Ok (1%Z, st).
Proof.
  unfold point. destruct (model_selected st) eqn:Hsel; cbn [negb].
  - cbv zeta. unfold free_energy_density.
    cbn [model_selected set_proton set_neutron]. rewrite Hsel. cbn [negb bind].
    eexists. split; [reflexivity |].
    split; [| split].
    + rewrite <- Hsel. reflexivity.
    + reflexivity.
    + reflexivity.
  - reflexivity.
Qed.

End ReturnCodes.

Lemma select_internal_return_code_witness :
  exists st' : eos,
    select_internal Sample.lib Sample.vs Sample.st 0 0 0 (-1) 0 28 0.5
    = Ok (0%Z, st')
    /\ model_selected st' = true.
Proof.
  destruct sample_select_internal as (st' & E & _).
  exists st'. split; [exact E |].
  exact (proj2 (select_internal_return_code Sample.lib Sample.vs Sample.st
                  st' 0 0 0 0 (-1) 0 28 0.5 E)).
Defined.

(** With the soft fit the sound speed of the fit is negative. *)
Lemma soft_parms_cs2_fit (lib : o2scl) (st : eos) (nb : R) :
  hc_mev_fm lib = 197.33 -> old_ns_fit st = true ->
  ns_fit_parms st = Sample.soft_parms -> 0 < nb < 4 ->
  cs2_fit lib st nb < 0.
Proof.
  intros Hhc Hold Hparms Hnb.
  unfold cs2_fit, dmudn_fit, mu_fit. rewrite Hold, Hparms, Hhc.
  cbn [Sample.soft_parms idx nth].
  assert (Hs0 : 0 < sqrt nb) by (apply sqrt_lt_R0; lra).
  assert (Hnum : (0.75 / sqrt nb * 0 + 2.0 * -1 + 3.75 * sqrt nb * 0
                  + 6.0 * nb * 0 + 12.0 * nb * nb * 0) / 197.33 * nb
                 = - (2 * nb / 197.33)) by (decimals; field; lra).
  assert (Hden : (1.5 * sqrt nb * 0 + 2.0 * nb * -1 + 2.5 * nb * sqrt nb * 0
                  + 3.0 * nb * nb * 0 + 4.0 * nb * nb * nb * 0) / 197.33
                 + 939.565 / 197.33
                 = (939.565 - 2 * nb) / 197.33) by (decimals; field; lra).
  rewrite Hnum, Hden.
  assert (H1 : 0 < 2 * nb / 197.33) by (apply Rdiv_lt_0_compat; lra).
  assert (H2 : 0 < (939.565 - 2 * nb) / 197.33)
    by (apply Rdiv_lt_0_compat; lra).
  unfold Rdiv at 1. rewrite <- Ropp_mult_distr_l.
  apply Ropp_lt_gt_0_contravar. apply Rlt_gt.
  apply Rmult_lt_0_compat; [exact H1 |]. apply Rinv_0_lt_compat. exact H2.
Qed.

(** With the soft fit, [ns_fit] returns the soft parameters and the cutoff
    of the table. *)
Lemma soft_ns_fit (st : eos) :
  nstar_tab st = Sample.flat_table 3 -> ns_record st = false ->
  old_ns_fit st = true ->
  ns_fit (Sample.lib_fit Sample.soft_parms) st 0
  = Ok (set_chi2_ns 0
          (set_ns_fit_parms Sample.soft_parms
             (set_ns_nb_max 3 (set_i_ns 0%Z st)))).
Proof.
  intros Htab Hrec Hold. unfold ns_fit. rewrite Htab.
  cbn [Sample.flat_table table_units.get_nlines Z.geb Z.compare].
  cbv zeta.
  cbn [nstar_tab set_i_ns i_ns]. rewrite Htab.
  cbn [Sample.flat_table table_units.get Sample.lib_fit fit fst snd].
  set (lib := Sample.lib_fit Sample.soft_parms).
  destruct (nstar_high_rows_range lib (set_i_ns 0%Z st) 0 3 100 0)
    as [HF _].
  assert (Hrows : exists r rows,
            nstar_high_rows lib (set_i_ns 0%Z st) 0 3 100 0 = r :: rows).
  { change 100%nat with (S 99). rewrite nstar_high_rows_step.
    destruct (Rlt_dec (0.04 + INR 0 * 0.012) (3 + 0.000001)) as [_ | Hn];
      [| exfalso; apply Hn; simpl INR; lra].
    cbn [nstar_tab set_i_ns]. rewrite Htab.
    cbn [Sample.flat_table table_units.get].
    destruct (Rgt_dec (fabs 3) 1.0e-2) as [_ | Hn];
      [| exfalso; apply Hn; unfold fabs; rewrite Rabs_right; lra].
    eexists; eexists; reflexivity. }
  set (rows := nstar_high_rows lib (set_i_ns 0%Z st) 0 3 100 0) in *.
  destruct Hrows as (r & rows' & Erows).
  set (s1 := set_chi2_ns 0 _).
  rewrite nb_new_loop_below.
  - destruct rows as [| r0 rows0]; [discriminate |].
    destruct (Rgt_dec 0.0 0.01) as [Habs | _]; [lra |].
    change (ns_record s1) with (ns_record st). rewrite Hrec. reflexivity.
  - apply Forall_forall. intros x Hx.
    apply in_map_iff in Hx as (nb & <- & Hnb).
    apply in_map_iff in Hnb as (row & <- & Hrow).
    pose proof (proj1 (Forall_forall _ _) HF row Hrow) as Hrange.
    cbv beta in Hrange. change (INR 0) with 0 in Hrange. cbn [snd].
    apply Rlt_le. apply Rlt_trans with (r2 := 0); [| lra].
    apply soft_parms_cs2_fit; [reflexivity | exact Hold | reflexivity | lra].
Qed.

Lemma select_internal_rejects_negative_fit_witness :
  exists st1 : eos,
    select_internal (Sample.lib_fit Sample.soft_parms) Sample.vs Sample.st
      0 0 0.48 12.7 40 30 0.5
    = Ok (1%Z, set_model_selected false st1)
    /\ cs2_fit (Sample.lib_fit Sample.soft_parms) st1 0.08 < 0.
Proof.
  eexists.
  assert (Hneg : cs2_fit (Sample.lib_fit Sample.soft_parms)
                   (set_chi2_ns 0
                      (set_ns_fit_parms Sample.soft_parms
                         (set_ns_nb_max 3
                            (set_i_ns 0%Z
                               (set_model_selected true
                                  (set_phi 0.5
                                     (set_eos_S 30
                                        (set_eos_L 40
                                           (set_qmc_a 12.7
                                              (set_qmc_alpha 0.48
                                                 (set_i_skyrme 0%Z
                                                    (set_i_ns 0%Z
                                                       Sample.st))))))))))))
                   0.08 < 0).
  { apply soft_parms_cs2_fit; [reflexivity | reflexivity | reflexivity | lra]. }
  split; [| exact Hneg].
  apply (select_internal_rejects_negative_fit
           (Sample.lib_fit Sample.soft_parms) Sample.vs Sample.st _
           0 0 0.48 12.7 40 30 0.5 0.08).
  - apply soft_ns_fit; reflexivity.
  - left. reflexivity.
  - exact Hneg.
Defined.

Lemma select_internal_rejects_qmc_parameters_witness :
  exists st' : eos,
    select_internal Sample.lib Sample.vs Sample.st 0 0 0.48 12.7 0 28 0.5
    = Ok (3%Z, st')
    /\ model_selected st' = false.
Proof.
  destruct (select_internal_rejects_qmc_parameters Sample.lib Sample.vs
              Sample.st
              (set_chi2_ns 0
                 (set_ns_fit_parms [0; 0; 0; 0; 0]
                    (set_ns_nb_max 3
                       (set_i_ns 0%Z
                          (set_model_selected true
                             (set_phi 0.5
                                (set_eos_S 28
                                   (set_eos_L 0
                                      (set_qmc_a 12.7
                                         (set_qmc_alpha 0.48
                                            (set_i_skyrme 0%Z
                                               (set_i_ns 0%Z
                                                  Sample.st))))))))))))
              0 0 0.48 12.7 0 28 0.5)
    as (st' & E & Hm & _).
  - apply (sample_ns_fit 1000); reflexivity.
  - rewrite zero_parms_min_max_cs2 by reflexivity. cbn [fst]. lra.
  - lra.
  - left. change (28 + -28 - 12.7 < 0). lra.
  - exists st'. split; assumption.
Defined.

Lemma select_model_result_witness :
  exists st' : eos,
    select_model Sample.lib Sample.vs Sample.st 0 0 0 (-1) 0 28 0.5
    = Ok (0%Z, st')
    /\ model_selected st' = true.
Proof.
  destruct sample_select_internal as (st' & E & _).
  assert (Em : select_model Sample.lib Sample.vs Sample.st 0 0 0 (-1) 0 28 0.5
               = Ok (0%Z, st')).
  { rewrite select_model_calls_select_internal, E. reflexivity. }
  exists st'. split; [exact Em |].
  destruct (select_model_result Sample.lib Sample.vs Sample.st st' 0 0 0 0
              (-1) 0 28 0.5 Em) as (iret & _ & [(_ & _ & Hm) | (_ & Hc & _)]).
  - exact Hm.
  - discriminate Hc.
Defined.

(** ** The two sound speeds *)

Section SoundSpeeds.

Variable lib : o2scl.
Variable vs : virial_methods.

(** The next library or member call of a computation, by cases on its
    outcome. *)
Ltac next_call :=
  lazymatch goal with
  | |- context [bind ?m _] =>
      lazymatch m with
      | context [bind _ _] => fail
      | _ => destruct m as [[? ?] | ? ? | ?]; cbn [bind fst snd]
      end
  end.

(** X16.  [cs2] makes the calls of [cs2_fixYe], in the same order and on
    the same arguments: on the same objects the two return together and
    leave the same objects, or fail with the same error; they differ in the
    number returned only. *)
Theorem cs2_calls_of_cs2_fixYe (w : world) (T : R) :
  match cs2_fixYe lib vs w T, cs2 lib vs w T with
  | Ok (_, w1), Ok (_, w2) => w1 = w2
  | Raise e1 msg1, Raise e2 msg2 => e1 = e2 /\ msg1 = msg2
  | Exit c1, Exit c2 => c1 = c2
  | _, _ => False
  end.
Proof.
  cbv delta [cs2_fixYe cs2]. cbv beta. cbv zeta.
  repeat (next_call; [| split; reflexivity | reflexivity]).
  reflexivity.
Qed.

End SoundSpeeds.

(** ** The electron-photon EOS *)

(** X17.  When the electron density [nb1*ye1] is zero, [compute_eg_point]
    returns the free energy per baryon of the photons alone,
    [photon.ed/nb1*hc - T1*photon.en/nb1]; it leaves an electron with zero
    density, chemical potential, energy, pressure and entropy, and, if
    muons are included, a muon with the same. *)
Theorem compute_eg_point_without_leptons (lib : o2scl)
    (pair_mu : fermion.t -> R -> fermion.t) (eso : eos_sn_oo1.t)
    (nb1 ye1 T1 : R) :
  nb1 * ye1 = 0 ->
  let r := compute_eg_point lib pair_mu eso nb1 ye1 T1 in
  let ph := massless_calc lib (eos_sn_oo1.photon eso) (T1 / hc_mev_fm lib) in
  fst r = boson.ed ph / nb1 * hc_mev_fm lib - T1 * (boson.en ph / nb1)
  /\ eos_sn_oo1.photon (snd r) = ph
  /\ eos_sn_oo1.electron (snd r)
     = fermion.mk 0 (fermion.m (eos_sn_oo1.electron eso)) 0
         (fermion.ms (eos_sn_oo1.electron eso)) 0 0 0
  /\ eos_sn_oo1.muon (snd r)
     = if eos_sn_oo1.include_muons eso then
         fermion.mk 0 (fermion.m (eos_sn_oo1.muon eso)) 0
           (fermion.ms (eos_sn_oo1.muon eso)) 0 0 0
       else eos_sn_oo1.muon eso.
Proof.
  intros Hz r ph. unfold r, compute_eg_point. cbv zeta.
  unfold fermion.set_mu, fermion.set_n.
  cbn [fermion.n fermion.m fermion.mu fermion.ms].
  assert (E0 : Reqb (nb1 * ye1) 0.0 = true).
  { unfold Reqb. destruct (Req_dec_T (nb1 * ye1) 0.0) as [_ | Hn];
      [reflexivity | exfalso; apply Hn; lra]. }
  rewrite E0, orb_true_r.
  cbn [fermion.n fermion.m fermion.mu fermion.ms fermion.ed fermion.en
       fermion.pr].
  assert (E1 : Reqb 0.0 0.0 = true).
  { unfold Reqb. destruct (Req_dec_T 0.0 0.0) as [_ | Hn];
      [reflexivity | exfalso; apply Hn; reflexivity]. }
  rewrite E1, orb_true_r.
  fold ph.
  destruct (eos_sn_oo1.include_muons eso);
    cbn [fst snd eos_sn_oo1.photon eos_sn_oo1.electron eos_sn_oo1.muon
         fermion.ed fermion.en].
  - split; [unfold Rdiv; decimals; ring |].
    split; [reflexivity |].
    rewrite Hz. replace 0.0 with 0 by lra. split; reflexivity.
  - split; [unfold Rdiv; decimals; ring |].
    split; [reflexivity |].
    rewrite Hz. replace 0.0 with 0 by lra. split; reflexivity.
Qed.

Lemma compute_eg_point_without_leptons_witness :
  eos_sn_oo1.muon
    (snd (compute_eg_point Sample.lib (fun f _ => f) Sample.lepton_gas
            0.1 0 1))
  = fermion.mk 0 0.535 0 0.535 0 0 0.
Proof.
  assert (Hz : 0.1 * 0 = 0) by lra.
  exact (proj2 (proj2 (proj2
           (compute_eg_point_without_leptons Sample.lib (fun f _ => f)
              Sample.lepton_gas 0.1 0 1 Hz)))).
Defined.

(** ** The functions handed to the root solver *)

Section SolverFunctions.

Variable lib : o2scl.
Variable vs : virial_methods.

(** X18.  On the same object, density, electron fraction and temperature,
    [solve_Ye] and [solve_T] return the same code and leave the same
    object, or fail with the same error.  The code is 1, with nothing
    written to [y] and an effective mass negative, or it is 0 with a model
    selected, and then [y[0]] holds
    [mu_n - mu_p - mu_e + muL + m_n - m_p] for [solve_Ye] and
    [(th2.en + electron.en + photon.en)/nb - sonb] for [solve_T], read from
    the object left. *)
Theorem solver_functions_agree (nb Ye T muL sonb : R) (st : eos) :
  match solve_Ye lib vs nb T muL Ye st, solve_T lib vs nb Ye sonb T st with
  | Ok (c1, y1, s1), Ok (c2, y2, s2) =>
      c1 = c2 /\ s1 = s2
      /\ ((c1 = 1%Z /\ y1 = None /\ y2 = None /\ ms_negative s1 = true)
          \/ (c1 = 0%Z /\ model_selected s1 = true
              /\ y1 = Some (fermion.mu (neutron s1) - fermion.mu (proton s1)
                            - fermion.mu (electron s1) + muL
                            + fermion.m (neutron s1) - fermion.m (proton s1))
              /\ y2 = Some ((thermo.en (th2 s1) + fermion.en (electron s1)
                             + boson.en (photon s1)) / nb - sonb)))
  | Raise e1 msg1, Raise e2 msg2 => e1 = e2 /\ msg1 = msg2
  | Exit c1, Exit c2 => c1 = c2
  | _, _ => False
  end.
Proof.
  unfold solve_Ye, solve_T. cbv zeta.
  match goal with
  | |- context [if ?c then Ok (1%Z, None, ?s) else _] =>
      set (s0 := s)
  end.
  change (Rltb (fermion.ms (neutron s0)) 0.0
          || Rltb (fermion.ms (proton s0)) 0.0) with (ms_negative s0).
  destruct (ms_negative s0) eqn:Ems.
  - cbv beta iota. split; [reflexivity |]. split; [reflexivity |].
    left. repeat split. exact Ems.
  - destruct (free_energy_density lib vs s0 (neutron s0) (proton s0) T
                (th2 s0)) as [[f w] | e msg | c] eqn:E; cbn [bind];
      cbv beta iota.
    + split; [reflexivity |]. split; [reflexivity |].
      right. split; [reflexivity |].
      split; [| split; reflexivity].
      apply free_energy_density_ok in E as [Hsel E].
      assert (Hw : w = snd (free_energy_density_body lib vs s0 (neutron s0)
                              (proton s0) T (th2 s0)))
        by (rewrite <- E; reflexivity).
      cbn [snd]. rewrite Hw, <- Hsel. reflexivity.
    + split; reflexivity.
    + reflexivity.
Qed.

End SolverFunctions.
